(** * PCB raw-file parsers: shallow embedding and checked properties

  Embedded sources:
  - [RawPCBParser]      : raw_parser.js (top-level block parser),
  - [PartDataParser]    : the revision of part_data_parser.js whose
                          [parse] takes [t07blockSize],
  - [PartDataParser0]   : src/part_data_parser.js (one-argument [parse]).

  JavaScript numbers that occur here are integers far below 2^53, so they
  are modelled by [Z]; [undefined] and [NaN] are kept where the code can
  produce them.  Exceptions are an explicit outcome.  [while] loops take a
  fuel argument and the entry points supply enough of it (proved below). *)

From Stdlib Require Import ZArith List Lia Bool NArith Sorted.
From Stdlib.Strings Require Byte String Ascii.
Import ListNotations.
Import String.StringSyntax.
Delimit Scope string_scope with string.
Local Open Scope Z_scope.

(* ================================================================== *)
(** * Part I. Definitions                                              *)
(* ================================================================== *)

(** ** JavaScript values, numbers and completions *)

Module JS.

Inductive js_error : Type :=
| RangeError   (* DataView / typed-array access outside the buffer *)
| Error.       (* [throw new Error(...)] and errors of a library *)

(** Completion of a call: a value, a thrown exception, or the model's
    loop fuel used up. *)
Inductive outcome (A : Type) : Type :=
| Return (a : A)
| Throw (e : js_error)
| OutOfFuel.
Arguments Return {A} a.
Arguments Throw {A} e.
Arguments OutOfFuel {A}.

(** Whatever the call throws is a RangeError. *)
Definition throws_only_RangeError {A} (o : outcome A) : Prop :=
  forall e, o = Throw e -> e = RangeError.

(** The call completed: it returned or threw. *)
Definition completes {A} (o : outcome A) : Prop :=
  (exists a, o = Return a) \/ (exists e, o = Throw e).

Inductive jsval : Type :=
| JUndefined
| JNumber (z : Z).

Inductive jsnum : Type :=
| NaN
| Fin (z : Z).

Definition ToNumber (v : jsval) : jsnum :=
  match v with
  | JUndefined => NaN
  | JNumber z => Fin z
  end.

Definition js_sub (a b : jsnum) : jsnum :=
  match a, b with
  | Fin x, Fin y => Fin (x - y)
  | _, _ => NaN
  end.

(** [a <= b]: false as soon as one side is NaN. *)
Definition js_le (a b : jsnum) : bool :=
  match a, b with
  | Fin x, Fin y => x <=? y
  | _, _ => false
  end.

(** [a !== b] *)
Definition js_strict_neq (a b : jsval) : bool :=
  match a, b with
  | JUndefined, JUndefined => false
  | JNumber x, JNumber y => negb (x =? y)
  | _, _ => true
  end.

Definition ToInt32 (z : Z) : Z := (z + 2 ^ 31) mod 2 ^ 32 - 2 ^ 31.
Definition ToUint32 (z : Z) : Z := z mod 2 ^ 32.

(** [a ^ b], [a | b], [a & b], [a << n], [a >>> n] *)
Definition js_xor (a b : Z) : Z := ToInt32 (Z.lxor (ToInt32 a) (ToInt32 b)).
Definition js_or (a b : Z) : Z := ToInt32 (Z.lor (ToInt32 a) (ToInt32 b)).
Definition js_and (a b : Z) : Z := ToInt32 (Z.land (ToInt32 a) (ToInt32 b)).
Definition js_shl (a n : Z) : Z := ToInt32 (Z.shiftl (ToInt32 a) (ToUint32 n mod 32)).
Definition js_shr_u (a n : Z) : Z := Z.shiftr (ToUint32 a) (ToUint32 n mod 32).

End JS.
Export JS.

(** ** Bytes, ArrayBuffer, DataView and Uint8Array *)

Module DataView.

Definition byte := Byte.byte.

Definition byte_to_Z (b : byte) : Z := Z.of_N (Byte.to_N b).

(** Storing a number into a byte cell keeps it modulo 256. *)
Definition byte_of_Z (z : Z) : byte :=
  match Byte.of_N (Z.to_N (z mod 256)) with
  | Some b => b
  | None => Byte.x00
  end.

Definition bytes_of (l : list Z) : list byte := map byte_of_Z l.

Definition byteLength (dv : list byte) : Z := Z.of_nat (List.length dv).

(** The access [off .. off + width) lies inside the view. *)
Definition in_range (dv : list byte) (off width : Z) : bool :=
  (0 <=? off) && (off + width <=? byteLength dv).

Definition byte_at (dv : list byte) (off : Z) : Z :=
  match nth_error dv (Z.to_nat off) with
  | Some b => byte_to_Z b
  | None => 0
  end.

(** Little-endian values at [off], as every call passes [true]. *)
Definition uint16_at (dv : list byte) (off : Z) : Z :=
  byte_at dv off + 2 ^ 8 * byte_at dv (off + 1).

Definition uint32_at (dv : list byte) (off : Z) : Z :=
  byte_at dv off + 2 ^ 8 * byte_at dv (off + 1)
  + 2 ^ 16 * byte_at dv (off + 2) + 2 ^ 24 * byte_at dv (off + 3).

(** The getters throw a RangeError when the access leaves the view. *)
Definition getUint8 (dv : list byte) (off : Z) : outcome Z :=
  if in_range dv off 1 then Return (byte_at dv off) else Throw RangeError.

Definition getUint16 (dv : list byte) (off : Z) : outcome Z :=
  if in_range dv off 2 then Return (uint16_at dv off) else Throw RangeError.

Definition getUint32 (dv : list byte) (off : Z) : outcome Z :=
  if in_range dv off 4 then Return (uint32_at dv off) else Throw RangeError.

Definition getInt32 (dv : list byte) (off : Z) : outcome Z :=
  match getUint32 dv off with
  | Return v => Return (ToInt32 v)
  | Throw e => Throw e
  | OutOfFuel => OutOfFuel
  end.

Fixpoint list_set (l : list byte) (n : nat) (b : byte) : list byte :=
  match l, n with
  | [], _ => []
  | _ :: t, O => b :: t
  | h :: t, S n' => h :: list_set t n' b
  end.

Definition setUint8 (dv : list byte) (off : Z) (v : Z) : outcome (list byte) :=
  if in_range dv off 1
  then Return (list_set dv (Z.to_nat off) (byte_of_Z v))
  else Throw RangeError.

(** [buffer.slice(0, stop)] for [0 <= stop]: the end is clamped to the
    buffer. *)
Definition slice0 (buffer : list byte) (stop : Z) : list byte :=
  firstn (Z.to_nat stop) buffer.

(** A [Uint8Array]: a window of an ArrayBuffer. [buffer] is the whole
    underlying ArrayBuffer, not the window. *)
Record Uint8Array : Type := mkUint8Array {
  buffer : list byte;
  byteOffset : Z;
  u8length : Z     (* the [length] property *)
}.

Definition elements (u : Uint8Array) : list byte :=
  firstn (Z.to_nat (u8length u)) (skipn (Z.to_nat (byteOffset u)) (buffer u)).

(** [new Uint8Array(buf, off, len)] *)
Definition new_Uint8Array (buf : list byte) (off len : Z) : outcome Uint8Array :=
  if (0 <=? off) && (0 <=? len) && (off + len <=? byteLength buf)
  then Return (mkUint8Array buf off len)
  else Throw RangeError.

(** [Array.from(u8)] *)
Definition Array_from (u : Uint8Array) : list Z := map byte_to_Z (elements u).

End DataView.
Export DataView.

(** ** The parser objects: a cursor over a DataView, with exceptions *)

Module Cursor.

(** [this] of a parser: [dataView], [offset] and the fields [X] that the
    class adds. *)
Record pstate (X : Type) : Type := mkState {
  dataView : list byte;
  offset : Z;
  extra : X
}.
Arguments mkState {X} _ _ _.
Arguments dataView {X} _.
Arguments offset {X} _.
Arguments extra {X} _.

Definition M (X A : Type) : Type := pstate X -> outcome (A * pstate X).

Definition ret {X A} (a : A) : M X A := fun s => Return (a, s).

Definition bind {X A B} (m : M X A) (f : A -> M X B) : M X B :=
  fun s =>
    match m s with
    | Return (a, s') => f a s'
    | Throw e => Throw e
    | OutOfFuel => OutOfFuel
    end.

Definition throw {X A} (e : js_error) : M X A := fun _ => Throw e.
Definition out_of_fuel {X A} : M X A := fun _ => OutOfFuel.

(** [this.dataView.getXxx(this.offset, true)] *)
Definition at_offset {X A} (get : list byte -> Z -> outcome A) : M X A :=
  fun s =>
    match get (dataView s) (offset s) with
    | Return a => Return (a, s)
    | Throw e => Throw e
    | OutOfFuel => OutOfFuel
    end.

(** [this.offset += n] *)
Definition advance {X} (n : Z) : M X unit :=
  fun s => Return (tt, mkState (dataView s) (offset s + n) (extra s)).

Definition get_offset {X} : M X Z := fun s => Return (offset s, s).

(** [s'] is [s] with the cursor moved forward by at least [n]. *)
Definition moved {X} (n : Z) (s s' : pstate X) : Prop :=
  dataView s' = dataView s /\ extra s' = extra s /\ offset s + n <= offset s'.

(** The cursor of [s] in a parser object with fields [y]. *)
Definition put_extra {X Y} (s : pstate X) (y : Y) : pstate Y :=
  mkState (dataView s) (offset s) y.

(** Two parser objects look at the same view from the same position. *)
Definition same_cursor {X Y} (s : pstate X) (t : pstate Y) : Prop :=
  dataView s = dataView t /\ offset s = offset t.
Definition get_byteLength {X} : M X Z := fun s => Return (byteLength (dataView s), s).

End Cursor.
Export Cursor.

Declare Scope js_scope.
Delimit Scope js_scope with js.
Notation "x <- m ;; k" := (bind m (fun x => k))
(at level 61, m at next level, right associativity) : js_scope.
Notation "m ;;; k" := (bind m (fun _ => k))
(at level 61, right associativity) : js_scope.
Local Open Scope js_scope.

Module Reads.

(** [const v = this.dataView.getUint32(this.offset, true); this.offset += 4;] *)
Definition u32 {X} : M X Z := v <- at_offset getUint32 ;; advance 4 ;;; ret v.
Definition i32 {X} : M X Z := v <- at_offset getInt32 ;; advance 4 ;;; ret v.
Definition u16 {X} : M X Z := v <- at_offset getUint16 ;; advance 2 ;;; ret v.
Definition u8 {X} : M X Z := v <- at_offset getUint8 ;; advance 1 ;;; ret v.

(** [new Uint8Array(this.dataView.buffer, this.dataView.byteOffset +
    this.offset, n)]; every DataView here covers its whole buffer, so
    [byteOffset] is 0. *)
Definition view_bytes {X} (n : Z) : M X Uint8Array :=
  at_offset (fun dv off => new_Uint8Array dv off n).

End Reads.
Export Reads.

(** ** Parsed part payloads (the objects built by the two PartDataParser
  revisions) *)

Module PartData.

Definition string := String.string.

(** [header] object. [part_rotation] is a property of the object only in
    the revision that reads it. *)
Record Header : Type := mkHeader {
  part_size : Z;
  part_x : Z;
  part_y : Z;
  part_rotation : option Z;
  visibility : Z;
  part_group_name_size : Z;
  part_group_name : string
}.

(** Element of [pins] (two-argument revision). *)
Inductive Pin : Type :=
| mkPin (un1 x y un2 pin_rotation pin_name_size : Z) (pin_name : string)
        (height width pin_shape netIndex : Z).

(** Element of [sub_parts] (one-argument revision). [int2] is set only
    when [int1 > 0]. *)
Inductive PinSubPart : Type :=
| pin_sub_type_00 (net_index diode_reading_size : Z) (diode_reading : string)
| pin_sub_type_01 (int1 : Z) (int2 : option Z)
| pin_sub_type_02 (int1 : Z) (int2 : option Z)
| pin_sub_type_03 (int1 : Z) (int2 : option Z).

Inductive SubBlock : Type :=
| sub_type_01 (block_size layer x1 y1 padding_size : Z)
| sub_type_05 (block_size layer x1 y1 x2 y2 scale : Z)
| sub_type_06 (block_size layer x y font_size font_scale visibility label_size : Z)
              (label : string)
(* sub_type_09 as built by the two-argument revision *)
| sub_type_09 (block_size : Z) (pins : list Pin)
(* sub_type_09 as built by src/part_data_parser.js *)
| sub_type_09_single (block_size un1 x y un2 un3 pin_name_size : Z)
                     (pin_name : string) (height width : Z)
                     (sub_parts : list PinSubPart) (un4 : Z).

Record PartResult : Type := mkPartResult {
  header : Header;
  sub_blocks : list SubBlock
}.

(** The header object without its [part_rotation] property. *)
Definition drop_rotation (h : Header) : Header :=
  mkHeader (part_size h) (part_x h) (part_y h) None (visibility h)
           (part_group_name_size h) (part_group_name h).

Definition is_sub_type_09 (b : SubBlock) : bool :=
  match b with
  | sub_type_09 _ _ => true
  | sub_type_09_single _ _ _ _ _ _ _ _ _ _ _ _ => true
  | _ => false
  end.

(** No pin-array (0x09) sub-block in the sequence. *)
Definition no_sub_type_09 (l : list SubBlock) : Prop :=
  existsb is_sub_type_09 l = false.

(** Every pin array of the sequence is empty. *)
Definition pins_all_empty (l : list SubBlock) : Prop :=
  forall bs pins, In (sub_type_09 bs pins) l -> pins = [].

(** [int2] is a property of a pin sub-part of type 01, 02 or 03 exactly
    when its [int1] is positive. *)
Definition int2_follows_int1 (p : PinSubPart) : Prop :=
  match p with
  | pin_sub_type_00 _ _ _ => True
  | pin_sub_type_01 int1 int2 | pin_sub_type_02 int1 int2 | pin_sub_type_03 int1 int2 =>
      0 <= int1 /\ (int2 = None <-> int1 = 0)
  end.

(** The [sub_parts] of a sub-block, for the kind that has them. *)
Definition sub_parts_of (b : SubBlock) : list PinSubPart :=
  match b with
  | sub_type_09_single _ _ _ _ _ _ _ _ _ _ sub_parts _ => sub_parts
  | _ => []
  end.

End PartData.
Export PartData.

(** ** PartDataParser, revision with [parse(arrayBuffer, t07blockSize)] *)

Module PartDataParser.
Section WithDecoder.

(** [new TextDecoder('utf-8').decode(bytes)], a function of the platform. *)
Variable TextDecoder_decode : list byte -> string.

(** Fields added by the class: [cur_block_size], [pin_block_size]. *)
Record fields : Type := mkFields {
  cur_block_size : jsval;
  pin_block_size : Z
}.

Definition P := M fields.

Definition init (arrayBuffer : list byte) : pstate fields :=
  mkState arrayBuffer 0 (mkFields (JNumber 0) 0).

Definition parseHeader : P Header :=
  part_size <- at_offset getUint32 ;;
  advance 4 ;;;
  (* Skip padding 0x04-0x07 *)
  advance 4 ;;;
  part_x <- u32 ;;
  part_y <- u32 ;;
  part_rotation <- u32 ;;
  visibility <- u8 ;;
  (* Skip padding 0x15 *)
  advance 1 ;;;
  part_group_name_size <- u32 ;;
  part_group_name <-
    (if 0 <? part_group_name_size
     then nameBytes <- view_bytes part_group_name_size ;;
          advance part_group_name_size ;;;
          ret (TextDecoder_decode (elements nameBytes))
     else ret String.EmptyString) ;;
  ret (mkHeader part_size part_x part_y (Some part_rotation) visibility
                part_group_name_size part_group_name).

Definition parseSubType01 : P SubBlock :=
  blockSize <- u32 ;;
  layer <- u32 ;;
  x1 <- u32 ;;
  y1 <- u32 ;;
  (* Skip padding[block_size-12] *)
  let paddingSize := blockSize - 12 in
  advance paddingSize ;;;
  ret (sub_type_01 blockSize layer x1 y1 paddingSize).

Definition parseSubType05 : P SubBlock :=
  blockSize <- u32 ;;
  layer <- u32 ;;
  x1 <- u32 ;;
  y1 <- u32 ;;
  x2 <- u32 ;;
  y2 <- u32 ;;
  scale <- u32 ;;
  (* Skip padding[4] *)
  advance 4 ;;;
  ret (sub_type_05 blockSize layer x1 y1 x2 y2 scale).

Definition parseSubType06 : P SubBlock :=
  blockSize <- u32 ;;
  layer <- u32 ;;
  x <- u32 ;;
  y <- u32 ;;
  fontSize <- u32 ;;
  fontScale <- u32 ;;
  (* Skip padding[4] *)
  advance 4 ;;;
  visibility <- u8 ;;
  (* Skip padding[1] *)
  advance 1 ;;;
  labelSize <- u32 ;;
  label <-
    (if 0 <? labelSize
     then labelBytes <- view_bytes labelSize ;;
          advance labelSize ;;;
          ret (TextDecoder_decode (elements labelBytes))
     else ret String.EmptyString) ;;
  ret (sub_type_06 blockSize layer x y fontSize fontScale visibility labelSize label).

(** Body of the pin loop: one Pin record, then the 13 bytes between
    records. *)
Definition parsePin : P Pin :=
  un1 <- u32 ;;
  x <- u32 ;;
  y <- u32 ;;
  un2 <- u32 ;;
  pinRotation <- u32 ;;
  pinNameSize <- u32 ;;
  pinName <-
    (if 0 <? pinNameSize
     then pinNameBytes <- view_bytes pinNameSize ;;
          advance pinNameSize ;;;
          ret (TextDecoder_decode (elements pinNameBytes))
     else ret String.EmptyString) ;;
  width <- u32 ;;
  height <- u32 ;;
  pin_shape <- u8 ;;
  (* Skip the 2 repeated 9-byte blocks and 5-byte outline end block *)
  advance 23 ;;;
  netIndex <- u32 ;;
  advance 13 ;;;
  ret (mkPin un1 x y un2 pinRotation pinNameSize pinName height width pin_shape netIndex).

(** [while (this.offset + blockSize <= this.cur_block_size) { ... }] *)
Fixpoint pinLoop (fuel : nat) (blockSize : Z) (pins : list Pin) : P (list Pin) :=
  fun s =>
    match fuel with
    | O => OutOfFuel
    | S fuel' =>
        if js_le (Fin (offset s + blockSize)) (ToNumber (cur_block_size (extra s)))
        then (pin <- parsePin ;; pinLoop fuel' blockSize (pins ++ [pin])) s
        else Return (pins, s)
    end.

Definition parseSubType09 : P SubBlock :=
  blockSize <- u32 ;;
  fun s =>
    (pins <- pinLoop (S (List.length (dataView s))) blockSize [] ;;
     ret (sub_type_09 blockSize pins)) s.

(** Returns [null] ([None]) at the end of the view and on an unknown
    sub-type identifier. *)
Definition parseSubBlock : P (option SubBlock) :=
  fun s =>
    if byteLength (dataView s) <=? offset s then Return (None, s)
    else
      (subTypeIdentifier <- u8 ;;
       match subTypeIdentifier with
       | 0x01 => b <- parseSubType01 ;; ret (Some b)
       | 0x05 => b <- parseSubType05 ;; ret (Some b)
       | 0x06 => b <- parseSubType06 ;; ret (Some b)
       | 0x09 => b <- parseSubType09 ;; ret (Some b)
       | _ => ret None
       end) s.

(** [while (this.offset + this.pin_block_size < this.dataView.byteLength)] *)
Fixpoint subBlockLoop (fuel : nat) (sub_blocks : list SubBlock) : P (list SubBlock) :=
  fun s =>
    match fuel with
    | O => OutOfFuel
    | S fuel' =>
        if offset s + pin_block_size (extra s) <? byteLength (dataView s)
        then
          match parseSubBlock s with
          | Return (Some subBlock, s') => subBlockLoop fuel' (sub_blocks ++ [subBlock]) s'
          | Return (None, s') => Return (sub_blocks, s')   (* break *)
          | Throw e => Throw e
          | OutOfFuel => OutOfFuel
          end
        else Return (sub_blocks, s)
    end.

(** The state in which the sub-block loop starts: the view is replaced by
    a DataView over [arrayBuffer.slice(0, 4 + partSize)], the cursor
    stays where the header ended. *)
Definition rescope (arrayBuffer : list byte) (partSize : Z) (s : pstate fields)
  : pstate fields :=
  let trimmedBuffer := slice0 arrayBuffer (4 + partSize) in
  mkState trimmedBuffer (offset s) (extra s).

(** [this.init(arrayBuffer); this.cur_block_size = t07blockSize;] *)
Definition start (arrayBuffer : list byte) (t07blockSize : jsval) : pstate fields :=
  let s0 := init arrayBuffer in
  mkState (dataView s0) (offset s0) (mkFields t07blockSize (pin_block_size (extra s0))).

Definition parse (arrayBuffer : list byte) (t07blockSize : jsval) : outcome PartResult :=
  match parseHeader (start arrayBuffer t07blockSize) with
  | Return (hdr, s1) =>
      let partSize := part_size hdr in
      let s2 := rescope arrayBuffer partSize s1 in
      match subBlockLoop (S (List.length (dataView s2))) [] s2 with
      | Return (sub_blocks, _) => Return (mkPartResult hdr sub_blocks)
      | Throw e => Throw e
      | OutOfFuel => OutOfFuel
      end
  | Throw e => Throw e
  | OutOfFuel => OutOfFuel
  end.

End WithDecoder.
End PartDataParser.

(** ** PartDataParser, src/part_data_parser.js ([parse(arrayBuffer)]) *)

Module PartDataParser0.
Section WithDecoder.

Variable TextDecoder_decode : list byte -> string.

(** The class adds no field to [dataView] and [offset]. *)
Definition P := M unit.

Definition init (arrayBuffer : list byte) : pstate unit :=
  mkState arrayBuffer 0 tt.

Definition parseHeader : P Header :=
  part_size <- at_offset getUint32 ;;
  advance 4 ;;;
  (* Skip padding 0x04-0x07 *)
  advance 4 ;;;
  part_x <- u32 ;;
  part_y <- u32 ;;
  (* Skip padding 0x10-0x13 *)
  advance 4 ;;;
  visibility <- u8 ;;
  (* Skip padding 0x15 *)
  advance 1 ;;;
  part_group_name_size <- u32 ;;
  part_group_name <-
    (if 0 <? part_group_name_size
     then nameBytes <- view_bytes part_group_name_size ;;
          advance part_group_name_size ;;;
          ret (TextDecoder_decode (elements nameBytes))
     else ret String.EmptyString) ;;
  ret (mkHeader part_size part_x part_y None visibility
                part_group_name_size part_group_name).

Definition parseSubType01 : P SubBlock :=
  blockSize <- u32 ;;
  layer <- u32 ;;
  x1 <- u32 ;;
  y1 <- u32 ;;
  (* Skip padding[block_size-12] *)
  let paddingSize := blockSize - 12 in
  advance paddingSize ;;;
  ret (sub_type_01 blockSize layer x1 y1 paddingSize).

Definition parseSubType05 : P SubBlock :=
  blockSize <- u32 ;;
  layer <- u32 ;;
  x1 <- u32 ;;
  y1 <- u32 ;;
  x2 <- u32 ;;
  y2 <- u32 ;;
  scale <- u32 ;;
  (* Skip padding[4] *)
  advance 4 ;;;
  ret (sub_type_05 blockSize layer x1 y1 x2 y2 scale).

Definition parseSubType06 : P SubBlock :=
  blockSize <- u32 ;;
  layer <- u32 ;;
  x <- u32 ;;
  y <- u32 ;;
  fontSize <- u32 ;;
  fontScale <- u32 ;;
  (* Skip padding[4] *)
  advance 4 ;;;
  visibility <- u8 ;;
  (* Skip padding[1] *)
  advance 1 ;;;
  labelSize <- u32 ;;
  label <-
    (if 0 <? labelSize
     then labelBytes <- view_bytes labelSize ;;
          advance labelSize ;;;
          ret (TextDecoder_decode (elements labelBytes))
     else ret String.EmptyString) ;;
  ret (sub_type_06 blockSize layer x y fontSize fontScale visibility labelSize label).

Definition parsePinSubType00 : P PinSubPart :=
  netIndex <- u32 ;;
  diodeReadingSize <- u32 ;;
  diodeReading <-
    (if 0 <? diodeReadingSize
     then diodeReadingBytes <- view_bytes diodeReadingSize ;;
          advance diodeReadingSize ;;;
          ret (TextDecoder_decode (elements diodeReadingBytes))
     else ret String.EmptyString) ;;
  ret (pin_sub_type_00 netIndex diodeReadingSize diodeReading).

(** Shared shape of [parsePinSubType01], [02] and [03]. *)
Definition parsePinSubTypeInts (mk : Z -> option Z -> PinSubPart) : P PinSubPart :=
  int1 <- u32 ;;
  if 0 <? int1
  then int2 <- u32 ;; ret (mk int1 (Some int2))
  else ret (mk int1 None).

Definition parsePinSubType01 : P PinSubPart := parsePinSubTypeInts pin_sub_type_01.
Definition parsePinSubType02 : P PinSubPart := parsePinSubTypeInts pin_sub_type_02.
Definition parsePinSubType03 : P PinSubPart := parsePinSubTypeInts pin_sub_type_03.

Definition parsePinSubType : P (option PinSubPart) :=
  fun s =>
    if byteLength (dataView s) <=? offset s then Return (None, s)
    else
      (pinType <- u8 ;;
       match pinType with
       | 0x00 => p <- parsePinSubType00 ;; ret (Some p)
       | 0x01 => p <- parsePinSubType01 ;; ret (Some p)
       | 0x02 => p <- parsePinSubType02 ;; ret (Some p)
       | 0x03 => p <- parsePinSubType03 ;; ret (Some p)
       | _ => ret None
       end) s.

(** [while (this.offset < blockEnd - 4) { ... }] *)
Fixpoint subPartLoop (fuel : nat) (blockEnd : Z) (subParts : list PinSubPart)
  : P (list PinSubPart) :=
  fun s =>
    match fuel with
    | O => OutOfFuel
    | S fuel' =>
        if offset s <? blockEnd - 4
        then
          match parsePinSubType s with
          | Return (Some subPart, s') => subPartLoop fuel' blockEnd (subParts ++ [subPart]) s'
          | Return (None, s') => Return (subParts, s')   (* break *)
          | Throw e => Throw e
          | OutOfFuel => OutOfFuel
          end
        else Return (subParts, s)
    end.

Definition parseSubType09 : P SubBlock :=
  blockSize <- u32 ;;
  off <- get_offset ;;
  let blockEnd := off + blockSize in
  un1 <- u32 ;;
  x <- u32 ;;
  y <- u32 ;;
  un2 <- u32 ;;
  un3 <- u32 ;;
  pinNameSize <- u32 ;;
  pinName <-
    (if 0 <? pinNameSize
     then pinNameBytes <- view_bytes pinNameSize ;;
          advance pinNameSize ;;;
          ret (TextDecoder_decode (elements pinNameBytes))
     else ret String.EmptyString) ;;
  height <- u32 ;;
  width <- u32 ;;
  subParts <- (fun s => subPartLoop (S (List.length (dataView s))) blockEnd [] s) ;;
  un4 <- u32 ;;
  ret (sub_type_09_single blockSize un1 x y un2 un3 pinNameSize pinName
                          height width subParts un4).

Definition parseSubBlock : P (option SubBlock) :=
  fun s =>
    if byteLength (dataView s) <=? offset s then Return (None, s)
    else
      (subTypeIdentifier <- u8 ;;
       match subTypeIdentifier with
       | 0x01 => b <- parseSubType01 ;; ret (Some b)
       | 0x05 => b <- parseSubType05 ;; ret (Some b)
       | 0x06 => b <- parseSubType06 ;; ret (Some b)
       | 0x09 => b <- parseSubType09 ;; ret (Some b)
       | _ => ret None
       end) s.

(** [while (this.offset < this.dataView.byteLength)] *)
Fixpoint subBlockLoop (fuel : nat) (sub_blocks : list SubBlock) : P (list SubBlock) :=
  fun s =>
    match fuel with
    | O => OutOfFuel
    | S fuel' =>
        if offset s <? byteLength (dataView s)
        then
          match parseSubBlock s with
          | Return (Some subBlock, s') => subBlockLoop fuel' (sub_blocks ++ [subBlock]) s'
          | Return (None, s') => Return (sub_blocks, s')   (* break *)
          | Throw e => Throw e
          | OutOfFuel => OutOfFuel
          end
        else Return (sub_blocks, s)
    end.

Definition rescope (arrayBuffer : list byte) (partSize : Z) (s : pstate unit)
  : pstate unit :=
  let trimmedBuffer := slice0 arrayBuffer (4 + partSize) in
  mkState trimmedBuffer (offset s) (extra s).

Definition parse (arrayBuffer : list byte) : outcome PartResult :=
  let s0 := init arrayBuffer in
  match parseHeader s0 with
  | Return (hdr, s1) =>
      let partSize := part_size hdr in
      let s2 := rescope arrayBuffer partSize s1 in
      match subBlockLoop (S (List.length (dataView s2))) [] s2 with
      | Return (sub_blocks, _) => Return (mkPartResult hdr sub_blocks)
      | Throw e => Throw e
      | OutOfFuel => OutOfFuel
      end
  | Throw e => Throw e
  | OutOfFuel => OutOfFuel
  end.

End WithDecoder.
End PartDataParser0.

(** ** RawPCBParser (raw_parser.js) *)

Module RawPCBParser.

(** *** Output objects *)

(** Element of [main_data_block]. [EmptyObject] is the [{}] returned by
    [parseType03] and [parseType09]. *)
Inductive TopLevelBlock : Type :=
| ARC (layer x1 y1 r angle_start angle_end scale unknown_arc : Z)
| VIA (x y outer_radius inner_radius layer_a_index layer_b_index net_index : Z)
      (via_text : string)
| EmptyObject
| SEGMENT (layer x1 y1 x2 y2 scale trace_net_index : Z)
| TEXT (unknown_1 pos_x pos_y text_size divider empty one text_length : Z)
       (text : string)
| DATA (block_size : Z) (encrypted_data decrypted_data : list Z)
       (parsed_data : option PartResult).

Record ParseResult : Type := mkParseResult {
  main_data_block : list TopLevelBlock
}.

(** *** The globals the script looks up at run time *)

(** CryptoJS word arrays. *)
Record WordArray : Type := mkWordArray {
  words : list Z;
  sigBytes : Z
}.

(** What the parser uses of the CryptoJS library. [DES_decrypt c k] is
    [CryptoJS.DES.decrypt({ciphertext: c}, k, {mode: ECB, padding:
    Pkcs7})]; [None] stands for a call that throws. *)
Record CryptoJS_library : Type := mkCryptoJS {
  WordArray_create : list byte -> WordArray;
  DES_decrypt : WordArray -> WordArray -> option WordArray
}.

(** Which class the global [PartDataParser] is bound to, if any. *)
Inductive PartDataParser_global : Type :=
| PartDataParser_undefined
| PartDataParser_two_args    (* parse(arrayBuffer, t07blockSize) *)
| PartDataParser_one_arg.    (* parse(arrayBuffer) *)

(** *** findSequence *)

(** The objects [findSequence] is applied to: it reads [array.length] and
    [array[k]]. A DataView has neither a [length] nor indexed elements. *)
Inductive array_like : Type :=
| DataViewObject (bytes : list byte)
| Uint8ArrayObject (bytes : list byte).

Definition get_length (array : array_like) : jsval :=
  match array with
  | DataViewObject _ => JUndefined
  | Uint8ArrayObject bytes => JNumber (byteLength bytes)
  end.

Definition get_index (array : array_like) (k : Z) : jsval :=
  match array with
  | DataViewObject _ => JUndefined
  | Uint8ArrayObject bytes =>
      if k <? 0 then JUndefined
      else match nth_error bytes (Z.to_nat k) with
           | Some b => JNumber (byte_to_Z b)
           | None => JUndefined
           end
  end.

(** Inner loop over [j]: value of [found] when it ends. [rest] is
    [sequence] from index [j] on. *)
Fixpoint found_at (array : array_like) (i j : Z) (rest : list Z) : bool :=
  match rest with
  | [] => true
  | x :: rest' =>
      if js_strict_neq (get_index array (i + j)) (JNumber x) then false
      else found_at array i (j + 1) rest'
  end.

(** Outer loop from [i], [count] iterations left. *)
Fixpoint findSequence_from (array : array_like) (sequence : list Z) (i : Z) (count : nat) : Z :=
  match count with
  | O => -1
  | S count' =>
      if found_at array i 0 sequence then i
      else findSequence_from array sequence (i + 1) count'
  end.

(** [for (let i = 0; i <= array.length - sequence.length; i++)] *)
Definition findSequence (array : array_like) (sequence : list Z) : Z :=
  match js_sub (ToNumber (get_length array)) (Fin (Z.of_nat (List.length sequence))) with
  | NaN => -1      (* [0 <= NaN] is false: the body never runs *)
  | Fin last => findSequence_from array sequence 0 (Z.to_nat (last + 1))
  end.

(** [sequence] is in [bytes] at offset [i]. *)
Definition occurs_at (bytes : list byte) (sequence : list Z) (i : Z) : Prop :=
  0 <= i /\
  firstn (List.length sequence) (skipn (Z.to_nat i) (map byte_to_Z bytes)) = sequence.

(** *** DES helpers *)

Definition MASTER_KEY : string := "DCFC12AC00000000"%string.

Definition hex_digit (c : Ascii.ascii) : option Z :=
  let n := Z.of_nat (Ascii.nat_of_ascii c) in
  if (48 <=? n) && (n <=? 57) then Some (n - 48)
  else if (65 <=? n) && (n <=? 70) then Some (n - 55)
  else if (97 <=? n) && (n <=? 102) then Some (n - 87)
  else None.

(** Code units that [parseInt] skips at the start of its argument:
    the white space and line terminators among the code units below
    0x100 (TAB, LF, VT, FF, CR, SP, NBSP). *)
Definition is_white_space (c : Ascii.ascii) : bool :=
  let n := Z.of_nat (Ascii.nat_of_ascii c) in
  ((9 <=? n) && (n <=? 13)) || (n =? 32) || (n =? 160).

Fixpoint trim_start (s : string) : string :=
  match s with
  | String.String c rest => if is_white_space c then trim_start rest else s
  | String.EmptyString => s
  end.

(** The value of the longest prefix of hexadecimal digits of [s], after
    the digits of value [acc]; [None] when there is no digit at all. *)
Fixpoint hex_digits (s : string) (acc : option Z) : option Z :=
  match s with
  | String.String c rest =>
      match hex_digit c with
      | Some d => hex_digits rest (Some (16 * match acc with Some a => a | None => 0 end + d))
      | None => acc
      end
  | String.EmptyString => acc
  end.

(** [parseInt(s, 16)]: leading white space is skipped, then a sign and
    a prefix [0x] or [0X] are taken, then the longest run of hexadecimal
    digits; NaN when that run is empty. *)
Definition parseInt16 (s : string) : jsnum :=
  let code c := Z.of_nat (Ascii.nat_of_ascii c) in
  let trimmed := trim_start s in
  let signed :=
    match trimmed with
    | String.String c rest =>
        if code c =? 45 then (-1, rest)          (* - *)
        else if code c =? 43 then (1, rest)      (* + *)
        else (1, trimmed)
    | String.EmptyString => (1, trimmed)
    end in
  let digits :=
    match snd signed with
    | String.String c1 (String.String c2 rest) =>
        if (code c1 =? 48) && ((code c2 =? 120) || (code c2 =? 88)) then rest
        else snd signed
    | other => other
    end in
  match hex_digits digits None with
  | Some v => Fin (fst signed * v)
  | None => NaN
  end.

(** [bytes[i / 2] = parseInt(hexString.substr(i, 2), 16)]: a NaN is
    stored as 0, any other number modulo 256.  The array has
    [hexString.length / 2] cells, rounded down, so the store for a last
    single character falls outside it and is dropped. *)
Fixpoint hexToBytes (hexString : string) : list byte :=
  match hexString with
  | String.String c1 (String.String c2 rest) =>
      match parseInt16 (String.String c1 (String.String c2 String.EmptyString)) with
      | Fin v => byte_of_Z v
      | NaN => Byte.x00
      end :: hexToBytes rest
  | _ => []
  end.

(** [words[k]] of a plain array; [undefined] counts as 0 under [|=] and
    [>>>]. *)
Definition word_or_0 (ws : list Z) (k : Z) : Z := nth (Z.to_nat k) ws 0.

(** [words[k] = v], where [k <= words.length]. *)
Fixpoint word_set (ws : list Z) (k : nat) (v : Z) : list Z :=
  match ws, k with
  | [], _ => [v]
  | _ :: t, O => v :: t
  | h :: t, S k' => h :: word_set t k' v
  end.

(** [words[i >>> 2] |= u8[i] << (24 - (i % 4) * 8)] for [i] from the
    current index on. *)
Fixpoint u8ToWords (u8 : list byte) (i : Z) (ws : list Z) : list Z :=
  match u8 with
  | [] => ws
  | b :: rest =>
      let k := js_shr_u i 2 in
      let w := js_or (word_or_0 ws k) (js_shl (byte_to_Z b) (24 - (i mod 4) * 8)) in
      u8ToWords rest (i + 1) (word_set ws (Z.to_nat k) w)
  end.

Definition u8ToWordArray (u8 : list byte) : WordArray :=
  mkWordArray (u8ToWords u8 0 []) (byteLength u8).

(** [new Uint8Array(sigBytes)] throws a RangeError on a negative length. *)
Definition wordArrayToU8 (wordArray : WordArray) : outcome Uint8Array :=
  let n := sigBytes wordArray in
  if n <? 0 then Throw RangeError
  else
    let cell (i : nat) :=
      let i := Z.of_nat i in
      byte_of_Z (js_and (js_shr_u (word_or_0 (words wordArray) (js_shr_u i 2))
                                  (24 - (i mod 4) * 8)) 0xff) in
    Return (mkUint8Array (map cell (seq 0 (Z.to_nat n))) 0 n).

(** The byte that [setUint8(i, getUint8(i) ^ xorKey)] stores over [b]. *)
Definition xor_byte (xorKey : Z) (b : byte) : byte :=
  byte_of_Z (js_xor (byte_to_Z b) xorKey).

(** How [parseBlock] answers a tag: an object of the tag's kind, the
    empty object for 0x03 and 0x09, nothing ([undefined]) for 0x04, 0x08
    and the tags it does not know. *)
Definition answers_tag (blockType : Z) (block : option TopLevelBlock) : bool :=
  match blockType, block with
  | 0x01, Some (ARC _ _ _ _ _ _ _ _) => true
  | 0x02, Some (VIA _ _ _ _ _ _ _ _) => true
  | 0x03, Some EmptyObject => true
  | 0x05, Some (SEGMENT _ _ _ _ _ _ _) => true
  | 0x06, Some (TEXT _ _ _ _ _ _ _ _ _) => true
  | 0x07, Some (DATA _ _ _ _) => true
  | 0x09, Some EmptyObject => true
  | 0x01, _ | 0x02, _ | 0x03, _ | 0x05, _ | 0x06, _ | 0x07, _ | 0x09, _ => false
  | _, None => true
  | _, Some _ => false
  end.

Section WithGlobals.

Variable TextDecoder_decode : list byte -> string.
(** [None]: [typeof CryptoJS === 'undefined']. *)
Variable CryptoJS : option CryptoJS_library.
Variable PartDataParser : PartDataParser_global.

Definition decryptWithDES (encryptedData : Uint8Array) : outcome Uint8Array :=
  match CryptoJS with
  | None => Throw Error
  | Some lib =>
      let keyBytes := hexToBytes MASTER_KEY in
      let keyWA := WordArray_create lib keyBytes in
      let cipherWA := u8ToWordArray (elements encryptedData) in
      match DES_decrypt lib cipherWA keyWA with
      | None => Throw Error
      | Some decryptedWA => wordArrayToU8 decryptedWA
      end
  end.

(** Fields added by the class besides [dataView] and [offset]. *)
Record fields : Type := mkFields {
  mainDataBlocksSize : Z
}.

Definition P := M fields.

(** [this.dataView.getUint32(k, true)] at a fixed position. *)
Definition at_fixed {A} (get : list byte -> Z -> outcome A) (k : Z) : P A :=
  fun s =>
    match get (dataView s) k with
    | Return a => Return (a, s)
    | Throw e => Throw e
    | OutOfFuel => OutOfFuel
    end.

(** The hex dump that [parseFileHeader] logs first reads only bytes below
    [byteLength] and changes nothing; it is left out. *)
Definition parseFileHeader : P unit :=
  headerAddressesSize <- at_fixed getUint32 0x20 ;;
  imageBlockStart <- at_fixed getUint32 0x24 ;;
  netBlockStart <- at_fixed getUint32 0x28 ;;
  mainDataBlocksSize <- at_fixed getUint32 0x40 ;;
  fun s => Return (tt, mkState (dataView s) 0x44 (mkFields mainDataBlocksSize)).

Definition readString (length : Z) : P string :=
  stringBytes <- view_bytes length ;;
  advance length ;;;
  ret (TextDecoder_decode (elements stringBytes)).

Definition parseType01 : P TopLevelBlock :=
  blockSize <- u32 ;;
  layer <- u32 ;;
  x1 <- u32 ;;
  y1 <- u32 ;;
  r <- i32 ;;
  angleStart <- i32 ;;
  angleEnd <- i32 ;;
  scale <- i32 ;;
  unknownArc <- i32 ;;
  ret (ARC layer x1 y1 r angleStart angleEnd scale unknownArc).

Definition parseType02 : P TopLevelBlock :=
  blockSize <- u32 ;;
  x <- i32 ;;
  y <- i32 ;;
  outerRadius <- i32 ;;
  innerRadius <- i32 ;;
  layerAIndex <- u32 ;;
  layerBIndex <- u32 ;;
  netIndex <- u32 ;;
  viaTextLength <- u32 ;;
  viaText <- readString viaTextLength ;;
  ret (VIA x y outerRadius innerRadius layerAIndex layerBIndex netIndex viaText).

Definition parseType03 : P TopLevelBlock :=
  blockSize <- u32 ;;
  (* Skip the entire block data *)
  advance blockSize ;;;
  ret EmptyObject.

Definition parseType05 : P TopLevelBlock :=
  blockSize <- u32 ;;
  layer <- u32 ;;
  x1 <- i32 ;;
  y1 <- i32 ;;
  x2 <- i32 ;;
  y2 <- i32 ;;
  scale <- i32 ;;
  traceNetIndex <- u32 ;;
  ret (SEGMENT layer x1 y1 x2 y2 scale traceNetIndex).

Definition parseType06 : P TopLevelBlock :=
  blockSize <- u32 ;;
  unknown1 <- u32 ;;
  posX <- u32 ;;
  posY <- u32 ;;
  textSize <- u32 ;;
  divider <- u32 ;;
  empty <- u32 ;;
  one <- u16 ;;
  textLength <- u32 ;;
  text <- readString textLength ;;
  ret (TEXT unknown1 posX posY textSize divider empty one textLength text).

(** [partDataParser.parse(decryptedData.buffer)]: one argument, so a
    second parameter of [parse] is [undefined]. *)
Definition call_PartDataParser_parse (arrayBuffer : list byte) : outcome (option PartResult) :=
  match PartDataParser with
  | PartDataParser_undefined => Return None
  | PartDataParser_two_args =>
      match PartDataParser.parse TextDecoder_decode arrayBuffer JUndefined with
      | Return r => Return (Some r)
      | Throw _ => Return None        (* catch: parsedData stays null *)
      | OutOfFuel => OutOfFuel
      end
  | PartDataParser_one_arg =>
      match PartDataParser0.parse TextDecoder_decode arrayBuffer with
      | Return r => Return (Some r)
      | Throw _ => Return None
      | OutOfFuel => OutOfFuel
      end
  end.

Definition parseType07 : P TopLevelBlock :=
  blockSize <- u32 ;;
  (* Read the encrypted data *)
  encryptedData <- view_bytes blockSize ;;
  advance blockSize ;;;
  (* Decrypt the data *)
  let decryptedData :=
    match decryptWithDES encryptedData with
    | Return d => d
    | _ => encryptedData    (* Fallback to original data *)
    end in
  fun s =>
    match call_PartDataParser_parse (buffer decryptedData) with
    | Return parsedData =>
        Return (DATA blockSize (Array_from encryptedData) (Array_from decryptedData)
                     parsedData, s)
    | Throw e => Throw e
    | OutOfFuel => OutOfFuel
    end.

Definition parseType09 : P TopLevelBlock :=
  blockSize <- u32 ;;
  (* Skip the entire block data *)
  advance blockSize ;;;
  ret EmptyObject.

(** One turn of the [while] body of [parseMainDataBlocks], after its
    guards: the value of [block] at [if (block)], [None] for [undefined]
    and for the [continue] of the padding case. *)
Definition parseBlock : P (option TopLevelBlock) :=
  (* Check for padding (4 zero bytes) *)
  paddingCheck <- at_offset getUint32 ;;
  if paddingCheck =? 0 then advance 4 ;;; ret None
  else
    blockType <- u8 ;;
    match blockType with
    | 0x01 => b <- parseType01 ;; ret (Some b)
    | 0x02 => b <- parseType02 ;; ret (Some b)
    | 0x03 => b <- parseType03 ;; ret (Some b)
    | 0x04 => advance 1 ;;; ret None
    | 0x05 => b <- parseType05 ;; ret (Some b)
    | 0x06 => b <- parseType06 ;; ret (Some b)
    | 0x07 => b <- parseType07 ;; ret (Some b)
    | 0x08 => advance 1 ;;; ret None
    | 0x09 => b <- parseType09 ;; ret (Some b)
    | _ => ret None
    end.

(** [if (block) { blocks.push(block); }]: [undefined] is falsy, every
    object is truthy, the empty object [{}] included. *)
Definition push_if_truthy (blocks : list TopLevelBlock) (block : option TopLevelBlock)
  : list TopLevelBlock :=
  match block with
  | Some b => blocks ++ [b]
  | None => blocks
  end.

(** [while (this.offset < endOffset && this.offset < this.dataView.byteLength)] *)
Fixpoint mainLoop (fuel : nat) (endOffset : Z) (blocks : list TopLevelBlock)
  : P (list TopLevelBlock) :=
  fun s =>
    match fuel with
    | O => OutOfFuel
    | S fuel' =>
        if (offset s <? endOffset) && (offset s <? byteLength (dataView s))
        then
          (* Check for end of data *)
          if endOffset <=? offset s then Return (blocks, s)
          else
            match parseBlock s with
            | Return (block, s') => mainLoop fuel' endOffset (push_if_truthy blocks block) s'
            | Throw e => Throw e
            | OutOfFuel => OutOfFuel
            end
        else Return (blocks, s)
    end.

Definition parseMainDataBlocks : P (list TopLevelBlock) :=
  fun s =>
    let startOffset := offset s in
    let endOffset := startOffset + mainDataBlocksSize (extra s) in
    mainLoop (S (List.length (dataView s))) endOffset [] s.

(** *** XOR de-obfuscation *)

Definition sequence : list Z :=
  [0x76; 0x36; 0x76; 0x36; 0x35; 0x35; 0x35; 0x76; 0x36; 0x76; 0x36].

(** [this.dataView.setUint8(i, v)] *)
Definition set_u8 (i v : Z) : P unit :=
  fun s =>
    match setUint8 (dataView s) i v with
    | Return dv => Return (tt, mkState dv (offset s) (extra s))
    | Throw e => Throw e
    | OutOfFuel => OutOfFuel
    end.

(** [for (let i = ...; i < xoredDataLength; i++)
      this.dataView.setUint8(i, this.dataView.getUint8(i) ^ xorKey);]
    with [count] turns left. *)
Fixpoint xorLoop (xorKey : Z) (i : Z) (count : nat) : P unit :=
  match count with
  | O => ret tt
  | S count' =>
      v <- at_fixed getUint8 i ;;
      set_u8 i (js_xor v xorKey) ;;;
      xorLoop xorKey (i + 1) count'
  end.

(** The length that [parse] computes for the XOR loop. *)
Definition xoredDataLength (dv : list byte) : Z :=
  let sequenceIndex := findSequence (DataViewObject dv) sequence in
  if negb (sequenceIndex =? -1) then sequenceIndex else byteLength dv.

Definition xorDecrypt : P unit :=
  key <- at_fixed getUint8 0x10 ;;
  if negb (key =? 0x00)
  then
    fun s =>
      let n := xoredDataLength (dataView s) in
      (xorKey <- at_fixed getUint8 0x10 ;;
       xorLoop xorKey 0 (Z.to_nat n)) s
  else ret tt.

Definition parse (arrayBuffer : list byte) : outcome ParseResult :=
  let s0 := mkState arrayBuffer 0 (mkFields 0) in
  match (xorDecrypt ;;; parseFileHeader ;;; parseMainDataBlocks) s0 with
  | Return (blocks, _) => Return (mkParseResult blocks)
  | Throw e => Throw e
  | OutOfFuel => OutOfFuel
  end.

(** *** Runs of the scan *)

(** The turns that the [while] loop of [parseMainDataBlocks] takes from
    the state [s] at a loop test to the state [s'] at a later one.  A
    turn is taken when the loop test holds and its body runs to the end;
    its entry is the state it started from with the value of [block] at
    [if (block)]. *)
Inductive scan_turns (endOffset : Z)
  : pstate fields -> list (pstate fields * option TopLevelBlock) -> pstate fields -> Prop :=
| scan_none s : scan_turns endOffset s [] s
| scan_turn s block s1 turns s' :
    offset s < endOffset -> offset s < byteLength (dataView s) ->
    parseBlock s = Return (block, s1) ->
    scan_turns endOffset s1 turns s' ->
    scan_turns endOffset s ((s, block) :: turns) s'.

End WithGlobals.

(** What the turns of a run push onto [blocks], in their order. *)
Definition handed_over (turns : list (pstate fields * option TopLevelBlock))
  : list TopLevelBlock :=
  flat_map (fun turn => push_if_truthy [] (snd turn)) turns.

End RawPCBParser.

(** ** Concrete buffers used by the examples below *)

Module Samples.

(** Decoder used in the concrete runs. It agrees with UTF-8 decoding on
    the texts of the samples, which are empty. *)
Definition ascii_decode (bytes : list byte) : string :=
  String.string_of_list_byte bytes.

(** Four bytes, little-endian. *)
Definition le32 (z : Z) : list Z :=
  [z mod 256; (z / 256) mod 256; (z / 65536) mod 256; (z / 16777216) mod 256].

(** A 0x44-byte file header: [key] at 0x10, [mainDataBlocksSize] at 0x40,
    zero elsewhere. *)
Definition file_header (key mainDataBlocksSize : Z) : list Z :=
  repeat 0 16 ++ [key] ++ repeat 0 47 ++ le32 mainDataBlocksSize.

(** The VIA block of the scenario: tag, blockSize = 21, the seven
    fields, a zero text length. *)
Definition via_block : list Z :=
  [0x02] ++ le32 21 ++ le32 100 ++ le32 200 ++ le32 50 ++ le32 20
  ++ le32 1 ++ le32 3 ++ le32 7 ++ le32 0.

Definition via_file : list byte := bytes_of (file_header 0 13 ++ via_block).

(** A VIA block followed by two stray bytes inside the declared
    budget. *)
Definition via_then_two_bytes : list byte :=
  bytes_of (file_header 0 39 ++ via_block ++ [1; 0]).

(** Blocks of type 0x03 and 0x09 with empty bodies, one-byte blocks of
    type 0x04 and 0x08, then the VIA block. *)
Definition skips_then_via : list byte :=
  bytes_of (file_header 0 51 ++ [0x03] ++ le32 0 ++ [0x09] ++ le32 0
            ++ [0x04; 0xEE] ++ [0x08; 0xEE] ++ via_block).

(** Key 0x55 at 0x10 and the marker right after the header. *)
Definition obfuscated_with_marker : list byte :=
  bytes_of (file_header 0x55 0 ++ RawPCBParser.sequence ++ [1; 2; 3]).

(** A 26-byte part header: part_size, then zero fields and an empty
    group name. *)
Definition part_header (part_size : Z) : list Z :=
  le32 part_size ++ repeat 0 22.

(** One pin record of the two-argument revision (73 bytes): x = 10,
    y = 20, rotation 90, empty name, width 5, height 6, shape 1,
    net 42. *)
Definition pin_record : list Z :=
  le32 0 ++ le32 10 ++ le32 20 ++ le32 0 ++ le32 90 ++ le32 0
  ++ le32 5 ++ le32 6 ++ [1] ++ repeat 0 23 ++ le32 42 ++ repeat 0 13.

(** Payload of 104 bytes: header, pin-array tag, blockSize = 60, one
    pin. *)
Definition pin_payload : list byte :=
  bytes_of (part_header 100 ++ [0x09] ++ le32 60 ++ pin_record).

(** A file whose single DATA block carries 112 bytes of ciphertext. *)
Definition data_file : list byte :=
  bytes_of (file_header 0 117 ++ [0x07] ++ le32 112 ++ repeat 0xAA 112).

(** A stand-in for the DES routine whose plaintext is [pin_payload]
    whatever the ciphertext. *)
Definition pin_payload_library : RawPCBParser.CryptoJS_library :=
  RawPCBParser.mkCryptoJS
    (fun key => RawPCBParser.u8ToWordArray key)
    (fun _ _ => Some (RawPCBParser.u8ToWordArray pin_payload)).


(** A DATA block of three ciphertext bytes. *)
Definition short_data_file : list byte :=
  bytes_of (file_header 0 8 ++ [0x07] ++ le32 3 ++ [1; 2; 3]).

(** A DATA block whose 26 ciphertext bytes are no multiple of the cipher
    block and read as a part header (part_size = 22) themselves. *)
Definition unaligned_data_file : list byte :=
  bytes_of (file_header 0 31 ++ [0x07] ++ le32 26 ++ part_header 22).

(** Payload of 67 bytes with one pin block in the layout of
    src/part_data_parser.js. *)
Definition single_pin_payload : list byte :=
  bytes_of (part_header 63 ++ [0x09] ++ le32 36
            ++ le32 0 ++ le32 2 ++ le32 3 ++ le32 4 ++ le32 5 ++ le32 0
            ++ le32 6 ++ le32 7 ++ le32 8).

(** Two payloads with the same header (part_size = 22, so the working
    buffer is the 26 header bytes) and different bytes after it. *)
Definition payload_with_tail_a : list byte :=
  bytes_of (part_header 22 ++ [0x05] ++ repeat 1 32).

Definition payload_with_tail_b : list byte :=
  bytes_of (part_header 22 ++ [0x01] ++ le32 12 ++ repeat 2 12).

(** A payload whose header announces more bytes than there are. *)
Definition payload_short_of_part_size : list byte :=
  bytes_of (part_header 1000).

(** Payload of 76 bytes with an arc-like and a line sub-block. *)
Definition geometry_payload : list byte :=
  bytes_of (part_header 72
            ++ [0x01] ++ le32 12 ++ le32 1 ++ le32 30 ++ le32 40
            ++ [0x05] ++ le32 28 ++ le32 2 ++ le32 1 ++ le32 2 ++ le32 3 ++ le32 4
            ++ le32 9 ++ le32 0).

(** A block of type 0x03 whose size field (100) points past the end of
    the file. *)
Definition skip_past_end_file : list byte :=
  bytes_of (file_header 0 5 ++ [0x03] ++ le32 100).

(** An obfuscated file that ends with its header. *)
Definition header_only_file : list byte := bytes_of (file_header 0x55 1000).

(** A payload whose first sub-block tag (0x07) is not a sub-block
    type. *)
Definition payload_unknown_tag : list byte :=
  bytes_of (part_header 30 ++ [0x07; 1; 2; 3]).

(** Payload of 81 bytes in the layout of src/part_data_parser.js: one
    pin block with a sub-part of type 01 (int1 = 5, int2 = 6) and one of
    type 02 (int1 = 0). *)
Definition sub_parts_payload : list byte :=
  bytes_of (part_header 77 ++ [0x09] ++ le32 50
            ++ le32 0 ++ le32 2 ++ le32 3 ++ le32 4 ++ le32 5 ++ le32 0
            ++ le32 6 ++ le32 7
            ++ [0x01] ++ le32 5 ++ le32 6
            ++ [0x02] ++ le32 0
            ++ le32 8).

End Samples.

(* ================================================================== *)
(** * Part II. Properties                                              *)
(* ================================================================== *)

(** ** Facts about the reads and about monadic code *)

Module Facts.

#[global] Arguments uint32_at : simpl never.
#[global] Arguments uint16_at : simpl never.
#[global] Arguments byte_at : simpl never.
#[global] Arguments ToInt32 : simpl never.
#[global] Arguments byteLength : simpl never.
#[global] Arguments js_le : simpl never.

Lemma Return_inj {A} (a b : A) : Return a = Return b -> a = b.
Proof. intros H. injection H as H. exact H. Qed.

Lemma byte_to_Z_range (b : byte) : 0 <= byte_to_Z b < 256.
Proof.
  unfold byte_to_Z. pose proof (Byte.to_N_bounded b). lia.
Qed.

Lemma byte_at_range dv off : 0 <= byte_at dv off < 256.
Proof.
  unfold byte_at. destruct (nth_error dv (Z.to_nat off)).
  - apply byte_to_Z_range.
  - lia.
Qed.

Lemma in_range_true dv off w :
  in_range dv off w = true -> 0 <= off /\ off + w <= byteLength dv.
Proof. unfold in_range. intros H. apply andb_prop in H. lia. Qed.

Lemma uint16_at_range dv off : 0 <= uint16_at dv off < 2 ^ 16.
Proof.
  unfold uint16_at.
  pose proof (byte_at_range dv off). pose proof (byte_at_range dv (off + 1)).
  change (2 ^ 8) with 256. change (2 ^ 16) with 65536. lia.
Qed.

Lemma uint32_at_range dv off : 0 <= uint32_at dv off < 2 ^ 32.
Proof.
  unfold uint32_at.
  pose proof (byte_at_range dv off). pose proof (byte_at_range dv (off + 1)).
  pose proof (byte_at_range dv (off + 2)). pose proof (byte_at_range dv (off + 3)).
  change (2 ^ 8) with 256. change (2 ^ 16) with 65536.
  change (2 ^ 24) with 16777216. change (2 ^ 32) with 4294967296. lia.
Qed.

Lemma getUint8_Return dv off v :
  getUint8 dv off = Return v ->
  v = byte_at dv off /\ 0 <= off /\ off + 1 <= byteLength dv.
Proof.
  unfold getUint8. destruct (in_range dv off 1) eqn:E; [|discriminate].
  intros H. apply Return_inj in H. apply in_range_true in E. split; [congruence | lia].
Qed.

Lemma getUint16_Return dv off v :
  getUint16 dv off = Return v ->
  v = uint16_at dv off /\ 0 <= off /\ off + 2 <= byteLength dv.
Proof.
  unfold getUint16. destruct (in_range dv off 2) eqn:E; [|discriminate].
  intros H. apply Return_inj in H. apply in_range_true in E. split; [congruence | lia].
Qed.

Lemma getUint32_Return dv off v :
  getUint32 dv off = Return v ->
  v = uint32_at dv off /\ 0 <= off /\ off + 4 <= byteLength dv.
Proof.
  unfold getUint32. destruct (in_range dv off 4) eqn:E; [|discriminate].
  intros H. apply Return_inj in H. apply in_range_true in E. split; [congruence | lia].
Qed.

Lemma getInt32_Return dv off v :
  getInt32 dv off = Return v ->
  v = ToInt32 (uint32_at dv off) /\ 0 <= off /\ off + 4 <= byteLength dv.
Proof.
  unfold getInt32. destruct (getUint32 dv off) eqn:E; try discriminate.
  intros H. apply Return_inj in H. apply getUint32_Return in E.
  destruct E as (-> & ? & ?). split; [congruence | lia].
Qed.

Lemma in_range_intro dv off w :
  0 <= off -> off + w <= byteLength dv -> in_range dv off w = true.
Proof. unfold in_range. intros. apply andb_true_intro. split; lia. Qed.

Lemma in_range_false dv off w :
  byteLength dv < off + w -> in_range dv off w = false.
Proof. unfold in_range. intros. apply andb_false_iff. right. lia. Qed.

Lemma new_Uint8Array_Return buf off n u :
  new_Uint8Array buf off n = Return u ->
  u = mkUint8Array buf off n /\ 0 <= off /\ 0 <= n /\ off + n <= byteLength buf.
Proof.
  unfold new_Uint8Array.
  destruct ((0 <=? off) && (0 <=? n) && (off + n <=? byteLength buf)) eqn:E; [|discriminate].
  intros [= <-]. apply andb_prop in E. destruct E as [E ?]. apply andb_prop in E.
  split; [reflexivity | lia].
Qed.


(** *** Inversion of monadic code *)

Lemma bind_Return {X A B} (m : M X A) (f : A -> M X B) s r :
  bind m f s = Return r ->
  exists a s', m s = Return (a, s') /\ f a s' = Return r.
Proof.
  unfold bind. destruct (m s) as [[a s']| |]; try discriminate.
  intros H. exists a, s'. split; [reflexivity | exact H].
Qed.

Lemma ret_Return {X A} (a b : A) (s s' : pstate X) :
  ret a s = Return (b, s') -> b = a /\ s' = s.
Proof. unfold ret. intros [= -> ->]. split; reflexivity. Qed.

Lemma advance_Return {X} n (s s' : pstate X) u :
  advance n s = Return (u, s') ->
  s' = mkState (dataView s) (offset s + n) (extra s).
Proof. unfold advance. intros [= _ <-]. reflexivity. Qed.

Lemma at_offset_Return {X A} (get : list byte -> Z -> outcome A) (s s' : pstate X) a :
  at_offset get s = Return (a, s') ->
  s' = s /\ get (dataView s) (offset s) = Return a.
Proof.
  unfold at_offset. destruct (get (dataView s) (offset s)); try discriminate.
  intros [= -> ->]. split; reflexivity.
Qed.

Lemma u32_Return {X} (s s' : pstate X) v :
  u32 s = Return (v, s') ->
  s' = mkState (dataView s) (offset s + 4) (extra s) /\
  v = uint32_at (dataView s) (offset s) /\
  0 <= offset s /\ offset s + 4 <= byteLength (dataView s) /\ 0 <= v < 2 ^ 32.
Proof.
  unfold u32. intros H.
  apply bind_Return in H. destruct H as (a & s1 & H1 & H).
  apply at_offset_Return in H1. destruct H1 as [-> H1].
  apply bind_Return in H. destruct H as (u & s2 & H2 & H).
  apply advance_Return in H2. subst s2.
  apply ret_Return in H. destruct H as [-> ->].
  apply getUint32_Return in H1. destruct H1 as (-> & ? & ?).
  pose proof (uint32_at_range (dataView s) (offset s)). repeat split; try reflexivity; lia.
Qed.

Lemma i32_Return {X} (s s' : pstate X) v :
  i32 s = Return (v, s') ->
  s' = mkState (dataView s) (offset s + 4) (extra s) /\
  v = ToInt32 (uint32_at (dataView s) (offset s)) /\
  0 <= offset s /\ offset s + 4 <= byteLength (dataView s).
Proof.
  unfold i32. intros H.
  apply bind_Return in H. destruct H as (a & s1 & H1 & H).
  apply at_offset_Return in H1. destruct H1 as [-> H1].
  apply bind_Return in H. destruct H as (u & s2 & H2 & H).
  apply advance_Return in H2. subst s2.
  apply ret_Return in H. destruct H as [-> ->].
  apply getInt32_Return in H1. destruct H1 as (-> & ? & ?).
  repeat split; try reflexivity; lia.
Qed.

Lemma u16_Return {X} (s s' : pstate X) v :
  u16 s = Return (v, s') ->
  s' = mkState (dataView s) (offset s + 2) (extra s) /\
  v = uint16_at (dataView s) (offset s) /\
  0 <= offset s /\ offset s + 2 <= byteLength (dataView s).
Proof.
  unfold u16. intros H.
  apply bind_Return in H. destruct H as (a & s1 & H1 & H).
  apply at_offset_Return in H1. destruct H1 as [-> H1].
  apply bind_Return in H. destruct H as (u & s2 & H2 & H).
  apply advance_Return in H2. subst s2.
  apply ret_Return in H. destruct H as [-> ->].
  apply getUint16_Return in H1. destruct H1 as (-> & ? & ?).
  repeat split; try reflexivity; lia.
Qed.

Lemma u8_Return {X} (s s' : pstate X) v :
  u8 s = Return (v, s') ->
  s' = mkState (dataView s) (offset s + 1) (extra s) /\
  v = byte_at (dataView s) (offset s) /\
  0 <= offset s /\ offset s + 1 <= byteLength (dataView s) /\ 0 <= v < 256.
Proof.
  unfold u8. intros H.
  apply bind_Return in H. destruct H as (a & s1 & H1 & H).
  apply at_offset_Return in H1. destruct H1 as [-> H1].
  apply bind_Return in H. destruct H as (u & s2 & H2 & H).
  apply advance_Return in H2. subst s2.
  apply ret_Return in H. destruct H as [-> ->].
  apply getUint8_Return in H1. destruct H1 as (-> & ? & ?).
  pose proof (byte_at_range (dataView s) (offset s)). repeat split; try reflexivity; lia.
Qed.

Lemma view_bytes_Return {X} n (s s' : pstate X) u :
  view_bytes n s = Return (u, s') ->
  s' = s /\ u = mkUint8Array (dataView s) (offset s) n /\
  0 <= offset s /\ 0 <= n /\ offset s + n <= byteLength (dataView s).
Proof.
  unfold view_bytes. intros H. apply at_offset_Return in H. destruct H as [-> H].
  apply new_Uint8Array_Return in H. tauto.
Qed.

(** Decompose a hypothesis [m s = Return (a, s')] along the binds of
    [m], down to the facts about each read. *)
Ltac flat := cbn [dataView offset extra] in *.

Ltac invM H :=
  lazymatch type of H with
  | bind _ _ _ = Return _ =>
      let a := fresh "v" in
      let s := fresh "s" in
      let Hm := fresh "Hm" in
      apply bind_Return in H; destruct H as (a & s & Hm & H);
      invM Hm; invM H
  | u32 _ = Return _ =>
      apply u32_Return in H; destruct H as (? & ? & ? & ? & ?); flat; subst
  | i32 _ = Return _ =>
      apply i32_Return in H; destruct H as (? & ? & ? & ?); flat; subst
  | u16 _ = Return _ =>
      apply u16_Return in H; destruct H as (? & ? & ? & ?); flat; subst
  | u8 _ = Return _ =>
      apply u8_Return in H; destruct H as (? & ? & ? & ? & ?); flat; subst
  | view_bytes _ _ = Return _ =>
      apply view_bytes_Return in H; destruct H as (? & ? & ? & ? & ?); flat; subst
  | advance _ _ = Return _ =>
      apply advance_Return in H; flat; subst
  | ret _ _ = Return _ =>
      apply ret_Return in H; destruct H as [? ?]; subst
  | (if ?c then _ else _) _ = Return _ =>
      destruct c eqn:?; invM H
  | _ => idtac
  end.

(** *** Completion without running out of fuel *)

Lemma getUint8_total dv off : getUint8 dv off <> OutOfFuel.
Proof. unfold getUint8. destruct (in_range dv off 1); discriminate. Qed.

Lemma getUint16_total dv off : getUint16 dv off <> OutOfFuel.
Proof. unfold getUint16. destruct (in_range dv off 2); discriminate. Qed.

Lemma getUint32_total dv off : getUint32 dv off <> OutOfFuel.
Proof. unfold getUint32. destruct (in_range dv off 4); discriminate. Qed.

Lemma getInt32_total dv off : getInt32 dv off <> OutOfFuel.
Proof.
  unfold getInt32. pose proof (getUint32_total dv off).
  destruct (getUint32 dv off); congruence.
Qed.

Lemma new_Uint8Array_total buf off n : new_Uint8Array buf off n <> OutOfFuel.
Proof. unfold new_Uint8Array. destruct (_ && _); discriminate. Qed.

Lemma bind_total {X A B} (m : M X A) (f : A -> M X B) s :
  m s <> OutOfFuel ->
  (forall a s', m s = Return (a, s') -> f a s' <> OutOfFuel) ->
  bind m f s <> OutOfFuel.
Proof.
  unfold bind. intros Hm Hf. destruct (m s) as [[a s']| |].
  - apply Hf. reflexivity.
  - discriminate.
  - congruence.
Qed.

Lemma ret_total {X A} (a : A) (s : pstate X) : ret a s <> OutOfFuel.
Proof. discriminate. Qed.

Lemma advance_total {X} n (s : pstate X) : advance n s <> OutOfFuel.
Proof. discriminate. Qed.

Lemma at_offset_total {X A} (get : list byte -> Z -> outcome A) (s : pstate X) :
  (forall dv off, get dv off <> OutOfFuel) -> at_offset get s <> OutOfFuel.
Proof.
  intros H. unfold at_offset. specialize (H (dataView s) (offset s)).
  destruct (get (dataView s) (offset s)); congruence.
Qed.

Lemma u32_total {X} (s : pstate X) : u32 s <> OutOfFuel.
Proof.
  unfold u32. apply bind_total; [apply at_offset_total, getUint32_total|].
  intros. apply bind_total; [apply advance_total|]. intros. apply ret_total.
Qed.

Lemma i32_total {X} (s : pstate X) : i32 s <> OutOfFuel.
Proof.
  unfold i32. apply bind_total; [apply at_offset_total, getInt32_total|].
  intros. apply bind_total; [apply advance_total|]. intros. apply ret_total.
Qed.

Lemma u16_total {X} (s : pstate X) : u16 s <> OutOfFuel.
Proof.
  unfold u16. apply bind_total; [apply at_offset_total, getUint16_total|].
  intros. apply bind_total; [apply advance_total|]. intros. apply ret_total.
Qed.

Lemma u8_total {X} (s : pstate X) : u8 s <> OutOfFuel.
Proof.
  unfold u8. apply bind_total; [apply at_offset_total, getUint8_total|].
  intros. apply bind_total; [apply advance_total|]. intros. apply ret_total.
Qed.

Lemma view_bytes_total {X} n (s : pstate X) : view_bytes n s <> OutOfFuel.
Proof. unfold view_bytes. apply at_offset_total. intros. apply new_Uint8Array_total. Qed.

Create HintDb total discriminated.
#[export] Hint Resolve u32_total i32_total u16_total u8_total view_bytes_total
  ret_total advance_total : total.

(** Straight-line monadic code never runs out of fuel. *)
Ltac straight_total :=
  cbv beta;
  lazymatch goal with
  | |- ret _ _ <> OutOfFuel => apply ret_total
  | |- bind _ _ _ <> OutOfFuel =>
      apply bind_total; [straight_total | intros ? ? _; straight_total]
  | |- (if ?c then _ else _) _ <> OutOfFuel => destruct c; straight_total
  | |- _ => solve [auto with total]
  end.

(** The [switch] statements on a tag byte, as chains of tests. *)
Lemma switch_sub_block {A} (v : Z) (a1 a5 a6 a9 d : A) :
  match v with 0x01 => a1 | 0x05 => a5 | 0x06 => a6 | 0x09 => a9 | _ => d end =
  if v =? 1 then a1 else if v =? 5 then a5 else if v =? 6 then a6
  else if v =? 9 then a9 else d.
Proof.
  destruct v as [|p|p]; try reflexivity.
  do 4 (try (destruct p as [p|p|]; try reflexivity)).
Qed.

Lemma switch_pin_sub_type {A} (v : Z) (a0 a1 a2 a3 d : A) :
  match v with 0x00 => a0 | 0x01 => a1 | 0x02 => a2 | 0x03 => a3 | _ => d end =
  if v =? 0 then a0 else if v =? 1 then a1 else if v =? 2 then a2
  else if v =? 3 then a3 else d.
Proof.
  destruct v as [|p|p]; try reflexivity.
  do 2 (try (destruct p as [p|p|]; try reflexivity)).
Qed.

Lemma switch_block {A} (v : Z) (a1 a2 a3 a4 a5 a6 a7 a8 a9 d : A) :
  match v with
  | 0x01 => a1 | 0x02 => a2 | 0x03 => a3 | 0x04 => a4 | 0x05 => a5
  | 0x06 => a6 | 0x07 => a7 | 0x08 => a8 | 0x09 => a9 | _ => d
  end =
  if v =? 1 then a1 else if v =? 2 then a2 else if v =? 3 then a3
  else if v =? 4 then a4 else if v =? 5 then a5 else if v =? 6 then a6
  else if v =? 7 then a7 else if v =? 8 then a8 else if v =? 9 then a9 else d.
Proof.
  destruct v as [|p|p]; try reflexivity.
  do 4 (try (destruct p as [p|p|]; try reflexivity)).
Qed.

Ltac moved_tac := unfold moved; simpl in *; repeat split; try reflexivity; lia.

End Facts.
Import Facts.

(** ** PartDataParser (two-argument revision): progress and termination *)

Module PartDataParserFacts.
Section WithDecoder.

Variable decode : list byte -> string.

Local Abbreviation parsePin := (PartDataParser.parsePin decode).
Local Abbreviation pinLoop := (PartDataParser.pinLoop decode).
Local Abbreviation parseSubType01 := PartDataParser.parseSubType01.
Local Abbreviation parseSubType05 := PartDataParser.parseSubType05.
Local Abbreviation parseSubType06 := (PartDataParser.parseSubType06 decode).
Local Abbreviation parseSubType09 := (PartDataParser.parseSubType09 decode).
Local Abbreviation parseSubBlock := (PartDataParser.parseSubBlock decode).
Local Abbreviation subBlockLoop := (PartDataParser.subBlockLoop decode).
Local Abbreviation parseHeader := (PartDataParser.parseHeader decode).

Lemma parseHeader_moved s h s' :
  parseHeader s = Return (h, s') -> moved 26 s s' /\ 0 <= offset s.
Proof.
  unfold PartDataParser.parseHeader. intros H. invM H.
  - apply at_offset_Return in Hm. destruct Hm as [-> Hm].
    apply getUint32_Return in Hm. split; [moved_tac | lia].
  - apply at_offset_Return in Hm. destruct Hm as [-> Hm].
    apply getUint32_Return in Hm. split; [moved_tac | lia].
Qed.

Lemma parseHeader_total s : parseHeader s <> OutOfFuel.
Proof.
  unfold PartDataParser.parseHeader.
  apply bind_total; [apply at_offset_total, getUint32_total | intros ? ? _].
  straight_total.
Qed.

Lemma parseSubType01_moved s sb s' :
  parseSubType01 s = Return (sb, s') -> moved 4 s s'.
Proof. unfold PartDataParser.parseSubType01. intros H. invM H. moved_tac. Qed.

Lemma parseSubType05_moved s sb s' :
  parseSubType05 s = Return (sb, s') -> moved 32 s s'.
Proof. unfold PartDataParser.parseSubType05. intros H. invM H. moved_tac. Qed.

Lemma parseSubType06_moved s sb s' :
  parseSubType06 s = Return (sb, s') -> moved 34 s s'.
Proof. unfold PartDataParser.parseSubType06. intros H. invM H; moved_tac. Qed.

Lemma parsePin_moved s p s' :
  parsePin s = Return (p, s') ->
  moved 73 s s' /\ 0 <= offset s /\ offset s + 4 <= byteLength (dataView s).
Proof.
  unfold PartDataParser.parsePin. intros H. invM H; (split; [moved_tac | simpl in *; lia]).
Qed.

Lemma parsePin_total s : parsePin s <> OutOfFuel.
Proof. unfold PartDataParser.parsePin. straight_total. Qed.

Lemma pinLoop_total fuel blockSize : forall pins s,
  byteLength (dataView s) - offset s < Z.of_nat fuel -> (0 < fuel)%nat ->
  pinLoop fuel blockSize pins s <> OutOfFuel.
Proof.
  induction fuel as [|fuel IH]; intros pins s Hm Hf; [lia|].
  simpl. destruct (js_le _ _); [|discriminate].
  apply bind_total; [apply parsePin_total|].
  intros p s' Hp. apply parsePin_moved in Hp. destruct Hp as ((Hd & _ & Ho) & H0 & H4).
  apply IH; rewrite ?Hd; lia.
Qed.

Lemma pinLoop_moved fuel blockSize : forall pins s out s',
  pinLoop fuel blockSize pins s = Return (out, s') -> moved 0 s s'.
Proof.
  induction fuel as [|fuel IH]; intros pins s out s' H; [discriminate|].
  simpl in H. destruct (js_le _ _).
  - apply bind_Return in H. destruct H as (p & s1 & Hp & H).
    apply parsePin_moved in Hp. destruct Hp as ((Hd & He & Ho) & _).
    apply IH in H. destruct H as (Hd' & He' & Ho').
    unfold moved. rewrite Hd', He', Hd, He. repeat split; lia.
  - injection H as _ <-. moved_tac.
Qed.

Lemma parseSubType09_moved s sb s' :
  parseSubType09 s = Return (sb, s') -> moved 4 s s'.
Proof.
  unfold PartDataParser.parseSubType09. intros H.
  apply bind_Return in H. destruct H as (bs & s1 & Hb & H). invM Hb.
  apply bind_Return in H. destruct H as (pins & s2 & Hl & H).
  apply pinLoop_moved in Hl. invM H. destruct Hl as (Hd & He & Ho). simpl in *.
  unfold moved. rewrite Hd, He. repeat split; lia.
Qed.

Lemma parseSubType09_total s : parseSubType09 s <> OutOfFuel.
Proof.
  unfold PartDataParser.parseSubType09.
  apply bind_total; [apply u32_total|]. intros bs s1 Hb. invM Hb.
  apply bind_total; [|intros; apply ret_total].
  apply pinLoop_total; simpl; unfold byteLength in *; lia.
Qed.

Lemma parseSubBlock_moved s sb s' :
  parseSubBlock s = Return (Some sb, s') -> moved 1 s s'.
Proof.
  unfold PartDataParser.parseSubBlock. intros H.
  destruct (byteLength (dataView s) <=? offset s); [discriminate|].
  apply bind_Return in H. destruct H as (tag & s1 & Ht & H). invM Ht.
  rewrite switch_sub_block in H.
  repeat match type of H with
         | (if ?c then _ else _) _ = _ => destruct c
         end;
    try (apply bind_Return in H; destruct H as (b & s2 & Hb & H); invM H;
         first [ apply parseSubType01_moved in Hb | apply parseSubType05_moved in Hb
               | apply parseSubType06_moved in Hb | apply parseSubType09_moved in Hb ];
         destruct Hb as (Hd & He & Ho); simpl in *;
         unfold moved; rewrite Hd, He; repeat split; lia).
  invM H. discriminate.
Qed.

Lemma parseSubBlock_None s s' :
  parseSubBlock s = Return (None, s') -> dataView s' = dataView s /\ extra s' = extra s.
Proof.
  unfold PartDataParser.parseSubBlock. intros H.
  destruct (byteLength (dataView s) <=? offset s).
  - injection H as <-. split; reflexivity.
  - apply bind_Return in H. destruct H as (tag & s1 & Ht & H). invM Ht.
    rewrite switch_sub_block in H.
    repeat match type of H with
           | (if ?c then _ else _) _ = _ => destruct c
           end;
      try (apply bind_Return in H; destruct H as (b & s2 & Hb & H); invM H; discriminate).
    invM H. split; reflexivity.
Qed.

Lemma parseSubBlock_total s : parseSubBlock s <> OutOfFuel.
Proof.
  unfold PartDataParser.parseSubBlock.
  destruct (byteLength (dataView s) <=? offset s); [discriminate|].
  apply bind_total; [apply u8_total|]. intros tag s1 _.
  rewrite switch_sub_block.
  repeat match goal with
         | |- (if ?c then _ else _) _ <> _ => destruct c
         end;
    try apply ret_total;
    (apply bind_total; [|intros; apply ret_total]).
  - unfold PartDataParser.parseSubType01. straight_total.
  - unfold PartDataParser.parseSubType05. straight_total.
  - unfold PartDataParser.parseSubType06. straight_total.
  - apply parseSubType09_total.
Qed.

Lemma subBlockLoop_total fuel : forall sub_blocks s,
  byteLength (dataView s) - offset s - PartDataParser.pin_block_size (extra s) < Z.of_nat fuel ->
  (0 < fuel)%nat ->
  subBlockLoop fuel sub_blocks s <> OutOfFuel.
Proof.
  induction fuel as [|fuel IH]; intros sbs s Hm Hf; [lia|].
  simpl. destruct (Z.ltb_spec (offset s + PartDataParser.pin_block_size (extra s))
                              (byteLength (dataView s))) as [Hlt|]; [|discriminate].
  pose proof (parseSubBlock_total s) as Ht.
  destruct (parseSubBlock s) as [[[sb|] s']| |] eqn:E; try congruence; try discriminate.
  apply parseSubBlock_moved in E. destruct E as (Hd & He & Ho).
  apply IH; rewrite ?Hd, ?He; lia.
Qed.

Lemma parse_total arrayBuffer t07blockSize :
  PartDataParser.parse decode arrayBuffer t07blockSize <> OutOfFuel.
Proof.
  unfold PartDataParser.parse. cbv zeta.
  destruct (parseHeader _) as [[h s2]| |] eqn:E;
    [ | discriminate | exfalso; eapply parseHeader_total; eassumption ].
  apply parseHeader_moved in E. destruct E as ((Hd & He & Ho) & H0).
  match goal with
  | |- match ?l with _ => _ end <> _ =>
      assert (Hl : l <> OutOfFuel); [| destruct l as [[? ?]| |]; congruence || discriminate ]
  end.
  apply subBlockLoop_total; [|lia].
  unfold PartDataParser.rescope, PartDataParser.start, PartDataParser.init in *.
  flat. rewrite He.
  cbn [PartDataParser.pin_block_size]. unfold byteLength. lia.
Qed.

End WithDecoder.
End PartDataParserFacts.


(** ** PartDataParser of src/part_data_parser.js: progress and termination *)

Module PartDataParser0Facts.
Section WithDecoder.

Variable decode : list byte -> string.

Local Abbreviation parseHeader := (PartDataParser0.parseHeader decode).
Local Abbreviation parseSubType01 := PartDataParser0.parseSubType01.
Local Abbreviation parseSubType05 := PartDataParser0.parseSubType05.
Local Abbreviation parseSubType06 := (PartDataParser0.parseSubType06 decode).
Local Abbreviation parseSubType09 := (PartDataParser0.parseSubType09 decode).
Local Abbreviation parsePinSubType := (PartDataParser0.parsePinSubType decode).
Local Abbreviation subPartLoop := (PartDataParser0.subPartLoop decode).
Local Abbreviation parseSubBlock := (PartDataParser0.parseSubBlock decode).
Local Abbreviation subBlockLoop := (PartDataParser0.subBlockLoop decode).

Lemma parseHeader_moved0 s h s' :
  parseHeader s = Return (h, s') -> moved 26 s s' /\ 0 <= offset s.
Proof.
  unfold PartDataParser0.parseHeader. intros H. invM H.
  - apply at_offset_Return in Hm. destruct Hm as [-> Hm].
    apply getUint32_Return in Hm. split; [moved_tac | lia].
  - apply at_offset_Return in Hm. destruct Hm as [-> Hm].
    apply getUint32_Return in Hm. split; [moved_tac | lia].
Qed.

Lemma parseHeader_total0 s : parseHeader s <> OutOfFuel.
Proof.
  unfold PartDataParser0.parseHeader.
  apply bind_total; [apply at_offset_total, getUint32_total | intros ? ? _].
  straight_total.
Qed.

Lemma parseSubType01_moved0 s sb s' :
  parseSubType01 s = Return (sb, s') -> moved 4 s s'.
Proof. unfold PartDataParser0.parseSubType01. intros H. invM H. moved_tac. Qed.

Lemma parseSubType05_moved0 s sb s' :
  parseSubType05 s = Return (sb, s') -> moved 32 s s'.
Proof. unfold PartDataParser0.parseSubType05. intros H. invM H. moved_tac. Qed.

Lemma parseSubType06_moved0 s sb s' :
  parseSubType06 s = Return (sb, s') -> moved 34 s s'.
Proof. unfold PartDataParser0.parseSubType06. intros H. invM H; moved_tac. Qed.

Lemma parsePinSubType_moved s p s' :
  parsePinSubType s = Return (Some p, s') ->
  moved 5 s s' /\ 0 <= offset s /\ offset s + 1 <= byteLength (dataView s).
Proof.
  unfold PartDataParser0.parsePinSubType. intros H.
  destruct (byteLength (dataView s) <=? offset s); [discriminate|].
  apply bind_Return in H. destruct H as (tag & s1 & Ht & H). invM Ht.
  rewrite switch_pin_sub_type in H.
  unfold PartDataParser0.parsePinSubType00, PartDataParser0.parsePinSubType01,
    PartDataParser0.parsePinSubType02, PartDataParser0.parsePinSubType03,
    PartDataParser0.parsePinSubTypeInts in H.
  repeat match type of H with
         | (if ?c then _ else _) _ = _ => destruct c
         end;
    invM H; try discriminate; (split; [moved_tac | simpl in *; lia]).
Qed.

Lemma parsePinSubType_None s s' :
  parsePinSubType s = Return (None, s') -> moved 0 s s'.
Proof.
  unfold PartDataParser0.parsePinSubType. intros H.
  destruct (byteLength (dataView s) <=? offset s).
  - injection H as <-. moved_tac.
  - apply bind_Return in H. destruct H as (tag & s1 & Ht & H). invM Ht.
    rewrite switch_pin_sub_type in H.
    repeat match type of H with
           | (if ?c then _ else _) _ = _ => destruct c
           end;
      try (apply bind_Return in H; destruct H as (b & s2 & Hb & H); invM H; discriminate).
    invM H. moved_tac.
Qed.

Lemma parsePinSubType_total s : parsePinSubType s <> OutOfFuel.
Proof.
  unfold PartDataParser0.parsePinSubType.
  destruct (byteLength (dataView s) <=? offset s); [discriminate|].
  apply bind_total; [apply u8_total|]. intros tag s1 _.
  rewrite switch_pin_sub_type.
  unfold PartDataParser0.parsePinSubType00, PartDataParser0.parsePinSubType01,
    PartDataParser0.parsePinSubType02, PartDataParser0.parsePinSubType03,
    PartDataParser0.parsePinSubTypeInts.
  straight_total.
Qed.

Lemma subPartLoop_total fuel blockEnd : forall subParts s,
  byteLength (dataView s) - offset s < Z.of_nat fuel -> (0 < fuel)%nat ->
  subPartLoop fuel blockEnd subParts s <> OutOfFuel.
Proof.
  induction fuel as [|fuel IH]; intros sp s Hm Hf; [lia|].
  simpl. destruct (offset s <? blockEnd - 4); [|discriminate].
  pose proof (parsePinSubType_total s) as Ht.
  destruct (parsePinSubType s) as [[[p|] s']| |] eqn:E; try congruence; try discriminate.
  apply parsePinSubType_moved in E. destruct E as ((Hd & _ & Ho) & H0 & H1).
  apply IH; rewrite ?Hd; lia.
Qed.

Lemma subPartLoop_moved fuel blockEnd : forall subParts s out s',
  subPartLoop fuel blockEnd subParts s = Return (out, s') -> moved 0 s s'.
Proof.
  induction fuel as [|fuel IH]; intros sp s out s' H; [discriminate|].
  simpl in H. destruct (offset s <? blockEnd - 4).
  - destruct (parsePinSubType s) as [[[p|] s1]| |] eqn:E; try discriminate.
    + apply parsePinSubType_moved in E. destruct E as ((Hd & He & Ho) & _).
      apply IH in H. destruct H as (Hd' & He' & Ho').
      unfold moved. rewrite Hd', He', Hd, He. repeat split; lia.
    + apply parsePinSubType_None in E. injection H as _ <-. exact E.
  - injection H as _ <-. moved_tac.
Qed.

Lemma parseSubType09_moved0 s sb s' :
  parseSubType09 s = Return (sb, s') -> moved 4 s s'.
Proof.
  unfold PartDataParser0.parseSubType09. intros H.
  repeat (apply bind_Return in H;
          let v := fresh "v" in let s1 := fresh "s" in let Hm := fresh "Hm" in
          destruct H as (v & s1 & Hm & H);
          lazymatch type of Hm with
          | subPartLoop _ _ _ _ = _ => apply subPartLoop_moved in Hm
          | get_offset _ = _ => unfold get_offset in Hm; injection Hm as <- <-
          | _ => invM Hm
          end).
  all: invM H; unfold moved in *; simpl in *;
    repeat match goal with
           | Hx : _ /\ _ |- _ => destruct Hx
           end;
    repeat split; try congruence; lia.
Qed.

Lemma parseSubType09_total0 s : parseSubType09 s <> OutOfFuel.
Proof.
  unfold PartDataParser0.parseSubType09.
  repeat (apply bind_total;
          [ first [ solve [auto with total] | discriminate | straight_total | idtac ]
          | let a := fresh "a" in let s1 := fresh "s" in let Hr := fresh "Hr" in
            intros a s1 Hr; try (invM Hr) ]); try apply ret_total.
  all: try (apply subPartLoop_total; simpl; unfold byteLength in *; lia).
Qed.

Lemma parseSubBlock_moved0 s sb s' :
  parseSubBlock s = Return (Some sb, s') -> moved 1 s s'.
Proof.
  unfold PartDataParser0.parseSubBlock. intros H.
  destruct (byteLength (dataView s) <=? offset s); [discriminate|].
  apply bind_Return in H. destruct H as (tag & s1 & Ht & H). invM Ht.
  rewrite switch_sub_block in H.
  repeat match type of H with
         | (if ?c then _ else _) _ = _ => destruct c
         end;
    try (apply bind_Return in H; destruct H as (b & s2 & Hb & H); invM H;
         first [ apply parseSubType01_moved0 in Hb | apply parseSubType05_moved0 in Hb
               | apply parseSubType06_moved0 in Hb | apply parseSubType09_moved0 in Hb ];
         destruct Hb as (Hd & He & Ho); simpl in *;
         unfold moved; rewrite Hd, He; repeat split; lia).
  invM H. discriminate.
Qed.

Lemma parseSubBlock_total0 s : parseSubBlock s <> OutOfFuel.
Proof.
  unfold PartDataParser0.parseSubBlock.
  destruct (byteLength (dataView s) <=? offset s); [discriminate|].
  apply bind_total; [apply u8_total|]. intros tag s1 _.
  rewrite switch_sub_block.
  repeat match goal with
         | |- (if ?c then _ else _) _ <> _ => destruct c
         end;
    try apply ret_total;
    (apply bind_total; [|intros; apply ret_total]).
  - unfold PartDataParser0.parseSubType01. straight_total.
  - unfold PartDataParser0.parseSubType05. straight_total.
  - unfold PartDataParser0.parseSubType06. straight_total.
  - apply parseSubType09_total0.
Qed.

Lemma subBlockLoop_total0 fuel : forall sub_blocks s,
  byteLength (dataView s) - offset s < Z.of_nat fuel -> (0 < fuel)%nat ->
  subBlockLoop fuel sub_blocks s <> OutOfFuel.
Proof.
  induction fuel as [|fuel IH]; intros sbs s Hm Hf; [lia|].
  simpl. destruct (Z.ltb_spec (offset s) (byteLength (dataView s))) as [Hlt|]; [|discriminate].
  pose proof (parseSubBlock_total0 s) as Ht.
  destruct (parseSubBlock s) as [[[sb|] s']| |] eqn:E; try congruence; try discriminate.
  apply parseSubBlock_moved0 in E. destruct E as (Hd & He & Ho).
  apply IH; rewrite ?Hd; lia.
Qed.

Lemma parse_total0 arrayBuffer :
  PartDataParser0.parse decode arrayBuffer <> OutOfFuel.
Proof.
  unfold PartDataParser0.parse. cbv zeta.
  destruct (parseHeader _) as [[h s2]| |] eqn:E;
    [ | discriminate | exfalso; eapply parseHeader_total0; eassumption ].
  apply parseHeader_moved0 in E. destruct E as ((Hd & He & Ho) & H0).
  match goal with
  | |- match ?l with _ => _ end <> _ =>
      assert (Hl : l <> OutOfFuel); [| destruct l as [[? ?]| |]; congruence || discriminate ]
  end.
  apply subBlockLoop_total0; [|lia].
  unfold PartDataParser0.rescope, PartDataParser0.init in *. flat.
  unfold byteLength. lia.
Qed.

End WithDecoder.
End PartDataParser0Facts.

(** ** Running monadic code forward *)

Module Run.

Lemma bind_run {X A B} (m : M X A) (f : A -> M X B) s a s' r :
  m s = Return (a, s') -> f a s' = r -> bind m f s = r.
Proof. unfold bind. intros -> H. exact H. Qed.

Lemma at_offset_run {X A} (get : list byte -> Z -> outcome A) (s : pstate X) a :
  get (dataView s) (offset s) = Return a -> at_offset get s = Return (a, s).
Proof. unfold at_offset. intros ->. reflexivity. Qed.

Lemma getUint32_run dv off :
  0 <= off -> off + 4 <= byteLength dv -> getUint32 dv off = Return (uint32_at dv off).
Proof. intros. unfold getUint32. rewrite in_range_intro by lia. reflexivity. Qed.

Lemma getUint16_run dv off :
  0 <= off -> off + 2 <= byteLength dv -> getUint16 dv off = Return (uint16_at dv off).
Proof. intros. unfold getUint16. rewrite in_range_intro by lia. reflexivity. Qed.

Lemma getUint8_run dv off :
  0 <= off -> off + 1 <= byteLength dv -> getUint8 dv off = Return (byte_at dv off).
Proof. intros. unfold getUint8. rewrite in_range_intro by lia. reflexivity. Qed.

Lemma getInt32_run dv off :
  0 <= off -> off + 4 <= byteLength dv ->
  getInt32 dv off = Return (ToInt32 (uint32_at dv off)).
Proof. intros. unfold getInt32. rewrite getUint32_run by lia. reflexivity. Qed.

Lemma u32_run {X} (s : pstate X) :
  0 <= offset s -> offset s + 4 <= byteLength (dataView s) ->
  u32 s = Return (uint32_at (dataView s) (offset s),
                  mkState (dataView s) (offset s + 4) (extra s)).
Proof.
  intros. unfold u32. eapply bind_run; [apply at_offset_run, getUint32_run; lia|].
  reflexivity.
Qed.

Lemma i32_run {X} (s : pstate X) :
  0 <= offset s -> offset s + 4 <= byteLength (dataView s) ->
  i32 s = Return (ToInt32 (uint32_at (dataView s) (offset s)),
                  mkState (dataView s) (offset s + 4) (extra s)).
Proof.
  intros. unfold i32. eapply bind_run; [apply at_offset_run, getInt32_run; lia|].
  reflexivity.
Qed.

Lemma u16_run {X} (s : pstate X) :
  0 <= offset s -> offset s + 2 <= byteLength (dataView s) ->
  u16 s = Return (uint16_at (dataView s) (offset s),
                  mkState (dataView s) (offset s + 2) (extra s)).
Proof.
  intros. unfold u16. eapply bind_run; [apply at_offset_run, getUint16_run; lia|].
  reflexivity.
Qed.

Lemma u8_run {X} (s : pstate X) :
  0 <= offset s -> offset s + 1 <= byteLength (dataView s) ->
  u8 s = Return (byte_at (dataView s) (offset s),
                 mkState (dataView s) (offset s + 1) (extra s)).
Proof.
  intros. unfold u8. eapply bind_run; [apply at_offset_run, getUint8_run; lia|].
  reflexivity.
Qed.

Lemma view_bytes_run {X} n (s : pstate X) :
  0 <= offset s -> 0 <= n -> offset s + n <= byteLength (dataView s) ->
  view_bytes n s = Return (mkUint8Array (dataView s) (offset s) n, s).
Proof.
  intros. unfold view_bytes. apply at_offset_run. unfold new_Uint8Array.
  replace ((0 <=? offset s) && (0 <=? n) && (offset s + n <=? byteLength (dataView s)))
    with true; [reflexivity|].
  symmetry. repeat (apply andb_true_intro; split); lia.
Qed.

(** Run the binds of the goal forward; the range conditions come from
    the context. *)
Ltac runM :=
  repeat (cbv beta; simpl offset; simpl dataView; simpl extra;
    lazymatch goal with
    | |- bind u32 _ _ = _ => eapply bind_run; [apply u32_run; simpl; lia|]
    | |- bind i32 _ _ = _ => eapply bind_run; [apply i32_run; simpl; lia|]
    | |- bind u16 _ _ = _ => eapply bind_run; [apply u16_run; simpl; lia|]
    | |- bind u8 _ _ = _ => eapply bind_run; [apply u8_run; simpl; lia|]
    | |- bind (at_offset getUint32) _ _ = _ =>
        eapply bind_run; [apply at_offset_run, getUint32_run; simpl; lia|]
    | |- bind (view_bytes _) _ _ = _ =>
        eapply bind_run; [apply view_bytes_run; simpl; lia|]
    | |- bind (advance _) _ _ = _ => eapply bind_run; [reflexivity|]
    | |- bind (ret _) _ _ = _ => eapply bind_run; [reflexivity|]
    | |- bind (if ?c then _ else _) _ _ = _ =>
        match goal with
        | Hc : c = _ |- _ => rewrite Hc
        end
    | |- bind (bind _ _) _ _ = _ => eapply bind_run
    | |- ret _ _ = _ => reflexivity
    end).

End Run.
Import Run.

(** ** The two PartDataParser revisions side by side *)

Module PartEquiv.
Section WithDecoder.
Variable decode : list byte -> string.

Ltac same_states s t Hs :=
  destruct s as [dv o x], t as [dv' o' x']; destruct Hs as [Hs1 Hs2];
  simpl in Hs1, Hs2; subst dv' o'.

(** Both directions of one proof: invert the run of one revision, run
    the other forward. *)
Ltac transfer s t Hs H f g :=
  same_states s t Hs; unfold f in H; invM H; unfold g; runM.

Lemma parseSubType01_old_new s t a s' :
  same_cursor s t ->
  PartDataParser0.parseSubType01 s = Return (a, s') ->
  PartDataParser.parseSubType01 t = Return (a, put_extra s' (extra t)).
Proof.
  intros Hs H.
  transfer s t Hs H PartDataParser0.parseSubType01 PartDataParser.parseSubType01.
Qed.

Lemma parseSubType05_old_new s t a s' :
  same_cursor s t ->
  PartDataParser0.parseSubType05 s = Return (a, s') ->
  PartDataParser.parseSubType05 t = Return (a, put_extra s' (extra t)).
Proof.
  intros Hs H.
  transfer s t Hs H PartDataParser0.parseSubType05 PartDataParser.parseSubType05.
Qed.

Lemma parseSubType06_old_new s t a s' :
  same_cursor s t ->
  PartDataParser0.parseSubType06 decode s = Return (a, s') ->
  PartDataParser.parseSubType06 decode t = Return (a, put_extra s' (extra t)).
Proof.
  intros Hs H.
  transfer s t Hs H PartDataParser0.parseSubType06 PartDataParser.parseSubType06.
Qed.

Lemma parseSubType01_new_old s t a s' :
  same_cursor s t ->
  PartDataParser.parseSubType01 s = Return (a, s') ->
  PartDataParser0.parseSubType01 t = Return (a, put_extra s' (extra t)).
Proof.
  intros Hs H.
  transfer s t Hs H PartDataParser.parseSubType01 PartDataParser0.parseSubType01.
Qed.

Lemma parseSubType05_new_old s t a s' :
  same_cursor s t ->
  PartDataParser.parseSubType05 s = Return (a, s') ->
  PartDataParser0.parseSubType05 t = Return (a, put_extra s' (extra t)).
Proof.
  intros Hs H.
  transfer s t Hs H PartDataParser.parseSubType05 PartDataParser0.parseSubType05.
Qed.

Lemma parseSubType06_new_old s t a s' :
  same_cursor s t ->
  PartDataParser.parseSubType06 decode s = Return (a, s') ->
  PartDataParser0.parseSubType06 decode t = Return (a, put_extra s' (extra t)).
Proof.
  intros Hs H.
  transfer s t Hs H PartDataParser.parseSubType06 PartDataParser0.parseSubType06.
Qed.

Lemma parseHeader_old_new s t h s' :
  same_cursor s t ->
  PartDataParser0.parseHeader decode s = Return (h, s') ->
  exists h',
    PartDataParser.parseHeader decode t = Return (h', put_extra s' (extra t)) /\
    drop_rotation h' = h /\
    part_rotation h' = Some (uint32_at (dataView s) (offset s + 16)).
Proof.
  intros Hs H. same_states s t Hs.
  unfold PartDataParser0.parseHeader in H. invM H;
    apply at_offset_Return in Hm; destruct Hm as [-> Hm];
    apply getUint32_Return in Hm; destruct Hm as (-> & ? & ?); flat;
    eexists; (split; [unfold PartDataParser.parseHeader; runM|]);
    (split; [reflexivity | cbn; do 2 f_equal; lia]).
Qed.

Lemma parseHeader_new_old s t h s' :
  same_cursor s t ->
  PartDataParser.parseHeader decode s = Return (h, s') ->
  PartDataParser0.parseHeader decode t =
    Return (drop_rotation h, put_extra s' (extra t)).
Proof.
  intros Hs H. same_states s t Hs.
  unfold PartDataParser.parseHeader in H. invM H;
    apply at_offset_Return in Hm; destruct Hm as [-> Hm];
    apply getUint32_Return in Hm; destruct Hm as (-> & ? & ?); flat;
    unfold PartDataParser0.parseHeader; runM.
Qed.

Ltac split_ifs H :=
  repeat match type of H with
         | (if ?c then _ else _) _ = _ => destruct c eqn:?
         end.

Ltac pick_ifs :=
  repeat match goal with
         | Hc : ?c = _ |- context [if ?c then _ else _] => rewrite Hc
         end.

Lemma parseSubBlock_old_new s t sb s' :
  same_cursor s t ->
  PartDataParser0.parseSubBlock decode s = Return (Some sb, s') ->
  is_sub_type_09 sb = false ->
  PartDataParser.parseSubBlock decode t = Return (Some sb, put_extra s' (extra t)).
Proof.
  intros Hs H Hn. same_states s t Hs. unfold PartDataParser0.parseSubBlock in H.
  unfold PartDataParser.parseSubBlock. flat.
  destruct (byteLength dv <=? o); [discriminate|].
  apply bind_Return in H. destruct H as (tag & s1 & Ht & H). invM Ht.
  eapply bind_run; [apply u8_run; flat; lia|]. flat.
  rewrite switch_sub_block in H. rewrite switch_sub_block. split_ifs H; pick_ifs;
    try (apply bind_Return in H; destruct H as (b & s2 & Hb & H); invM H;
         match goal with Hx : Some _ = Some _ |- _ => injection Hx as -> end).
  - eapply bind_run; [eapply parseSubType01_old_new; [|eassumption]; split; reflexivity|].
    reflexivity.
  - eapply bind_run; [eapply parseSubType05_old_new; [|eassumption]; split; reflexivity|].
    reflexivity.
  - eapply bind_run; [eapply parseSubType06_old_new; [|eassumption]; split; reflexivity|].
    reflexivity.
  - exfalso. unfold PartDataParser0.parseSubType09 in Hb.
    repeat (apply bind_Return in Hb; destruct Hb as (? & ? & _ & Hb)).
    invM Hb. discriminate.
  - invM H. discriminate.
Qed.

Lemma parseSubBlock_new_old s t sb s' :
  same_cursor s t ->
  PartDataParser.parseSubBlock decode s = Return (Some sb, s') ->
  is_sub_type_09 sb = false ->
  PartDataParser0.parseSubBlock decode t = Return (Some sb, put_extra s' (extra t)).
Proof.
  intros Hs H Hn. same_states s t Hs. unfold PartDataParser.parseSubBlock in H.
  unfold PartDataParser0.parseSubBlock. flat.
  destruct (byteLength dv <=? o); [discriminate|].
  apply bind_Return in H. destruct H as (tag & s1 & Ht & H). invM Ht.
  eapply bind_run; [apply u8_run; flat; lia|]. flat.
  rewrite switch_sub_block in H. rewrite switch_sub_block.
  split_ifs H; pick_ifs;
    try (apply bind_Return in H; destruct H as (b & s2 & Hb & H); invM H;
         match goal with Hx : Some _ = Some _ |- _ => injection Hx as -> end).
  - eapply bind_run; [eapply parseSubType01_new_old; [|eassumption]; split; reflexivity|].
    reflexivity.
  - eapply bind_run; [eapply parseSubType05_new_old; [|eassumption]; split; reflexivity|].
    reflexivity.
  - eapply bind_run; [eapply parseSubType06_new_old; [|eassumption]; split; reflexivity|].
    reflexivity.
  - exfalso. unfold PartDataParser.parseSubType09 in Hb.
    repeat (apply bind_Return in Hb; destruct Hb as (? & ? & _ & Hb)).
    invM Hb. discriminate.
  - invM H. discriminate.
Qed.

(** On [null] the two revisions agree whenever both get that far: the
    end of the view or an unknown identifier. *)
Lemma parseSubBlock_None_old_new s t s' :
  same_cursor s t ->
  PartDataParser0.parseSubBlock decode s = Return (None, s') ->
  PartDataParser.parseSubBlock decode t = Return (None, put_extra s' (extra t)).
Proof.
  intros Hs H. same_states s t Hs. unfold PartDataParser0.parseSubBlock in H.
  unfold PartDataParser.parseSubBlock. flat.
  destruct (byteLength dv <=? o).
  - injection H as <-. reflexivity.
  - apply bind_Return in H. destruct H as (tag & s1 & Ht & H). invM Ht.
    eapply bind_run; [apply u8_run; flat; lia|]. flat.
    rewrite switch_sub_block in H. rewrite switch_sub_block.
    split_ifs H; pick_ifs;
      try (apply bind_Return in H; destruct H as (b & s2 & Hb & H); invM H; discriminate).
    invM H. reflexivity.
Qed.

Lemma parseSubBlock_None_new_old s t s' :
  same_cursor s t ->
  PartDataParser.parseSubBlock decode s = Return (None, s') ->
  PartDataParser0.parseSubBlock decode t = Return (None, put_extra s' (extra t)).
Proof.
  intros Hs H. same_states s t Hs. unfold PartDataParser.parseSubBlock in H.
  unfold PartDataParser0.parseSubBlock. flat.
  destruct (byteLength dv <=? o).
  - injection H as <-. reflexivity.
  - apply bind_Return in H. destruct H as (tag & s1 & Ht & H). invM Ht.
    eapply bind_run; [apply u8_run; flat; lia|]. flat.
    rewrite switch_sub_block in H. rewrite switch_sub_block.
    split_ifs H; pick_ifs;
      try (apply bind_Return in H; destruct H as (b & s2 & Hb & H); invM H; discriminate).
    invM H. reflexivity.
Qed.

(** The loops only append to [sub_blocks]. *)
Lemma subBlockLoop0_appends fuel : forall acc s out s',
  PartDataParser0.subBlockLoop decode fuel acc s = Return (out, s') ->
  exists tl, out = acc ++ tl.
Proof.
  induction fuel as [|fuel IH]; intros acc s out s' H; [discriminate|].
  simpl in H. destruct (offset s <? byteLength (dataView s)).
  - destruct (PartDataParser0.parseSubBlock decode s) as [[[sb|] s1]| |]; try discriminate.
    + apply IH in H. destruct H as [tl ->]. exists (sb :: tl).
      rewrite <- app_assoc. reflexivity.
    + injection H as <- _. exists []. rewrite app_nil_r. reflexivity.
  - injection H as <- _. exists []. rewrite app_nil_r. reflexivity.
Qed.

Lemma subBlockLoop_appends fuel : forall acc s out s',
  PartDataParser.subBlockLoop decode fuel acc s = Return (out, s') ->
  exists tl, out = acc ++ tl.
Proof.
  induction fuel as [|fuel IH]; intros acc s out s' H; [discriminate|].
  simpl in H. destruct (_ <? _).
  - destruct (PartDataParser.parseSubBlock decode s) as [[[sb|] s1]| |]; try discriminate.
    + apply IH in H. destruct H as [tl ->]. exists (sb :: tl).
      rewrite <- app_assoc. reflexivity.
    + injection H as <- _. exists []. rewrite app_nil_r. reflexivity.
  - injection H as <- _. exists []. rewrite app_nil_r. reflexivity.
Qed.

Lemma no_sub_type_09_pushed acc sb tl :
  no_sub_type_09 ((acc ++ [sb]) ++ tl) -> is_sub_type_09 sb = false.
Proof.
  unfold no_sub_type_09. rewrite !existsb_app. simpl.
  destruct (is_sub_type_09 sb); [|reflexivity].
  rewrite orb_true_r. simpl. intros H. exact H.
Qed.

Lemma subBlockLoop_old_new fuel : forall acc s t out s',
  same_cursor s t -> PartDataParser.pin_block_size (extra t) = 0 ->
  PartDataParser0.subBlockLoop decode fuel acc s = Return (out, s') ->
  no_sub_type_09 out ->
  PartDataParser.subBlockLoop decode fuel acc t = Return (out, put_extra s' (extra t)).
Proof.
  induction fuel as [|fuel IH]; intros acc s t out s' Hs Hp H Hn; [discriminate|].
  simpl in H. simpl. rewrite Hp, Z.add_0_r.
  destruct Hs as [Hd Ho]. rewrite <- Hd, <- Ho.
  destruct (offset s <? byteLength (dataView s)).
  - destruct (PartDataParser0.parseSubBlock decode s) as [[[sb|] s1]| |] eqn:E;
      try discriminate.
    + pose proof H as Ha. apply subBlockLoop0_appends in Ha. destruct Ha as [tl ->].
      erewrite parseSubBlock_old_new;
        [ | split; eassumption | eassumption | eapply no_sub_type_09_pushed; eassumption ].
      apply (IH _ _ (put_extra s1 (extra t))) in H; [exact H | split; reflexivity | exact Hp | exact Hn].
    + erewrite parseSubBlock_None_old_new; [ | split; eassumption | eassumption ].
      injection H as <- <-. reflexivity.
  - injection H as <- <-. unfold put_extra. rewrite Hd, Ho. destruct t; reflexivity.
Qed.

Lemma subBlockLoop_new_old fuel : forall acc s t out s',
  same_cursor s t -> PartDataParser.pin_block_size (extra s) = 0 ->
  PartDataParser.subBlockLoop decode fuel acc s = Return (out, s') ->
  no_sub_type_09 out ->
  PartDataParser0.subBlockLoop decode fuel acc t = Return (out, put_extra s' (extra t)).
Proof.
  induction fuel as [|fuel IH]; intros acc s t out s' Hs Hp H Hn; [discriminate|].
  simpl in H. simpl. rewrite Hp, Z.add_0_r in H.
  destruct Hs as [Hd Ho]. rewrite <- Hd, <- Ho.
  destruct (offset s <? byteLength (dataView s)).
  - destruct (PartDataParser.parseSubBlock decode s) as [[[sb|] s1]| |] eqn:E;
      try discriminate.
    + pose proof H as Ha. apply subBlockLoop_appends in Ha. destruct Ha as [tl ->].
      erewrite parseSubBlock_new_old;
        [ | split; eassumption | eassumption | eapply no_sub_type_09_pushed; eassumption ].
      pose proof (PartDataParserFacts.parseSubBlock_moved _ _ _ _ E) as (_ & He & _).
      apply (IH _ _ (put_extra s1 (extra t))) in H;
        [exact H | split; reflexivity | rewrite He; exact Hp | exact Hn].
    + erewrite parseSubBlock_None_new_old; [ | split; eassumption | eassumption ].
      injection H as <- <-. reflexivity.
  - injection H as <- <-. unfold put_extra. rewrite Hd, Ho. destruct t; reflexivity.
Qed.


Lemma parse_old_new arrayBuffer t07blockSize r0 :
  PartDataParser0.parse decode arrayBuffer = Return r0 ->
  no_sub_type_09 (sub_blocks r0) ->
  exists h,
    PartDataParser.parse decode arrayBuffer t07blockSize
      = Return (mkPartResult h (sub_blocks r0)) /\
    drop_rotation h = header r0 /\
    part_rotation h = Some (uint32_at arrayBuffer 16).
Proof.
  unfold PartDataParser0.parse, PartDataParser.parse. cbv zeta. intros H Hn.
  destruct (PartDataParser0.parseHeader decode _) as [[h0 s1]| |] eqn:Eh; try discriminate.
  destruct (PartDataParser0.subBlockLoop decode _ _ _) as [[sbs s2]| |] eqn:El;
    try discriminate.
  injection H as <-. cbn [sub_blocks header] in *.
  eapply parseHeader_old_new with (t := PartDataParser.start arrayBuffer t07blockSize) in Eh;
    [|split; reflexivity].
  destruct Eh as (h & Eh & Hdrop & Hrot). exists h.
  rewrite Eh.
  assert (Hps : part_size h = part_size h0) by (rewrite <- Hdrop; reflexivity).
  rewrite Hps.
  pose proof (fun t Hs Hp => subBlockLoop_old_new _ _ _ t _ _ Hs Hp El Hn) as El'.
  specialize (El' (PartDataParser.rescope arrayBuffer (part_size h0)
                     (put_extra s1 (PartDataParser.mkFields t07blockSize 0)))
                  (conj eq_refl eq_refl) eq_refl).
  unfold PartDataParser0.rescope, PartDataParser.rescope, PartDataParser0.init,
    PartDataParser.start, PartDataParser.init, put_extra in *.
  flat. cbn [PartDataParser.pin_block_size] in *. rewrite El'. repeat split; assumption.
Qed.

Lemma parse_new_old arrayBuffer t07blockSize r :
  PartDataParser.parse decode arrayBuffer t07blockSize = Return r ->
  no_sub_type_09 (sub_blocks r) ->
  PartDataParser0.parse decode arrayBuffer
    = Return (mkPartResult (drop_rotation (header r)) (sub_blocks r)).
Proof.
  unfold PartDataParser0.parse, PartDataParser.parse. cbv zeta. intros H Hn.
  destruct (PartDataParser.parseHeader decode _) as [[h s1]| |] eqn:Eh; try discriminate.
  destruct (PartDataParser.subBlockLoop decode _ _ _) as [[sbs s2]| |] eqn:El;
    try discriminate.
  injection H as <-. cbn [sub_blocks header] in *.
  pose proof (PartDataParserFacts.parseHeader_moved _ _ _ _ Eh) as ((_ & He & _) & _).
  eapply parseHeader_new_old with (t := PartDataParser0.init arrayBuffer) in Eh;
    [|split; reflexivity].
  rewrite Eh. cbn [part_size drop_rotation].
  pose proof (fun t Hs Hp => subBlockLoop_new_old _ _ _ t _ _ Hs Hp El Hn) as El'.
  specialize (El' (PartDataParser0.rescope arrayBuffer (part_size h) (put_extra s1 tt))
                  (conj eq_refl eq_refl)).
  unfold PartDataParser0.rescope, PartDataParser.rescope, PartDataParser0.init,
    PartDataParser.start, PartDataParser.init, put_extra in *.
  flat. rewrite El'; [reflexivity|]. rewrite He. reflexivity.
Qed.

End WithDecoder.
End PartEquiv.

(** ** Claims about the part payload parsers *)

Module PartClaims.
Section WithDecoder.

Variable decode : list byte -> string.

Lemma not_OutOfFuel_completes {A} (o : outcome A) : o <> OutOfFuel -> completes o.
Proof.
  unfold completes. destruct o as [a|e|]; intros H.
  - left. exists a. reflexivity.
  - right. exists e. reflexivity.
  - congruence.
Qed.

(** Where the header ends, and what it leaves untouched. *)
Lemma parseHeader_end s h s' :
  PartDataParser.parseHeader decode s = Return (h, s') ->
  dataView s' = dataView s /\ extra s' = extra s /\
  0 <= part_size h /\
  offset s' = offset s + 26
              + (if 0 <? part_group_name_size h then part_group_name_size h else 0).
Proof.
  intros H. destruct s as [dv o x].
  unfold PartDataParser.parseHeader in H. invM H;
    apply at_offset_Return in Hm; destruct Hm as [-> Hm];
    apply getUint32_Return in Hm; destruct Hm as (-> & ? & ?); flat;
    cbn [part_size part_group_name_size];
    pose proof (uint32_at_range dv o);
    match goal with Hc : (0 <? _) = _ |- _ => rewrite Hc end;
    repeat split; try reflexivity; lia.
Qed.

Lemma parseHeader0_end s h s' :
  PartDataParser0.parseHeader decode s = Return (h, s') ->
  dataView s' = dataView s /\ extra s' = extra s /\
  0 <= part_size h /\
  offset s' = offset s + 26
              + (if 0 <? part_group_name_size h then part_group_name_size h else 0).
Proof.
  intros H. destruct s as [dv o x].
  unfold PartDataParser0.parseHeader in H. invM H;
    apply at_offset_Return in Hm; destruct Hm as [-> Hm];
    apply getUint32_Return in Hm; destruct Hm as (-> & ? & ?); flat;
    cbn [part_size part_group_name_size];
    pose proof (uint32_at_range dv o);
    match goal with Hc : (0 <? _) = _ |- _ => rewrite Hc end;
    repeat split; try reflexivity; lia.
Qed.

Lemma byteLength_slice0 buf n :
  0 <= n -> byteLength (slice0 buf n) = Z.min (byteLength buf) n.
Proof.
  intros Hn. unfold byteLength, slice0. rewrite length_firstn. lia.
Qed.

(** Two payloads with equal headers and equal first [4 + part_size] bytes
    enter the sub-block loop in the same state. *)
Lemma same_loop_entry p p' t hdr s s' :
  PartDataParser.parseHeader decode (PartDataParser.start p t) = Return (hdr, s) ->
  PartDataParser.parseHeader decode (PartDataParser.start p' t) = Return (hdr, s') ->
  slice0 p (4 + part_size hdr) = slice0 p' (4 + part_size hdr) ->
  PartDataParser.rescope p (part_size hdr) s = PartDataParser.rescope p' (part_size hdr) s'.
Proof.
  intros H H' Hs. apply parseHeader_end in H, H'.
  destruct H as (_ & He & _ & Ho), H' as (_ & He' & _ & Ho').
  unfold PartDataParser.rescope. cbv zeta. rewrite Hs, He, He', Ho, Ho'. reflexivity.
Qed.

Lemma same_loop_entry0 p p' hdr s s' :
  PartDataParser0.parseHeader decode (PartDataParser0.init p) = Return (hdr, s) ->
  PartDataParser0.parseHeader decode (PartDataParser0.init p') = Return (hdr, s') ->
  slice0 p (4 + part_size hdr) = slice0 p' (4 + part_size hdr) ->
  PartDataParser0.rescope p (part_size hdr) s = PartDataParser0.rescope p' (part_size hdr) s'.
Proof.
  intros H H' Hs. apply parseHeader0_end in H, H'.
  destruct H as (_ & He & _ & Ho), H' as (_ & He' & _ & Ho').
  unfold PartDataParser0.rescope. cbv zeta. rewrite Hs, He, He', Ho, Ho'. reflexivity.
Qed.

(** C6 (amended). After the part header is read, the sub-block loop
    works on [arrayBuffer.slice(0, 4 + part_size)]: the first
    [4 + part_size] bytes of the payload, or all of it when it is shorter,
    so at most [4 + part_size] bytes.  Every read of the loop that
    returns lies below [4 + part_size], and the bytes from
    [4 + part_size] on have no influence: two payloads with the same
    header and the same first [4 + part_size] bytes have the same parse
    outcome, in both revisions of the parser. *)
Theorem sub_blocks_confined_to_part_size
    (p p' : list byte) (t07blockSize : jsval) (hdr : Header)
    (s s' : pstate PartDataParser.fields) :
  PartDataParser.parseHeader decode (PartDataParser.start p t07blockSize)
    = Return (hdr, s) ->
  PartDataParser.parseHeader decode (PartDataParser.start p' t07blockSize)
    = Return (hdr, s') ->
  slice0 p (4 + part_size hdr) = slice0 p' (4 + part_size hdr) ->
  let working := dataView (PartDataParser.rescope p (part_size hdr) s) in
  working = firstn (Z.to_nat (4 + part_size hdr)) p /\
  byteLength working = Z.min (byteLength p) (4 + part_size hdr) /\
  (forall (u u' : pstate PartDataParser.fields) v,
      dataView u = working ->
      (u8 u = Return (v, u') -> offset u + 1 <= 4 + part_size hdr) /\
      (u32 u = Return (v, u') -> offset u + 4 <= 4 + part_size hdr)) /\
  (forall (u u' : pstate PartDataParser.fields) n bytes,
      dataView u = working ->
      view_bytes n u = Return (bytes, u') -> offset u + n <= 4 + part_size hdr) /\
  PartDataParser.parse decode p t07blockSize = PartDataParser.parse decode p' t07blockSize /\
  PartDataParser0.parse decode p = PartDataParser0.parse decode p'.
Proof.
  intros H H' Hs working.
  pose proof (parseHeader_end _ _ _ H) as (_ & _ & Hps & _).
  assert (Hlen : byteLength working = Z.min (byteLength p) (4 + part_size hdr)).
  { unfold working, PartDataParser.rescope. flat. apply byteLength_slice0. lia. }
  split; [reflexivity|]. split; [exact Hlen|].
  split; [|split; [|split]].
  - intros u u' v Hu. split; intros Hr.
    + apply u8_Return in Hr. rewrite Hu in Hr. lia.
    + apply u32_Return in Hr. rewrite Hu in Hr. lia.
  - intros u u' n bytes Hu Hr. apply view_bytes_Return in Hr. rewrite Hu in Hr. lia.
  - unfold PartDataParser.parse. rewrite H, H'. cbv zeta.
    rewrite (same_loop_entry _ _ _ _ _ _ H H' Hs). reflexivity.
  - pose proof (PartEquiv.parseHeader_new_old decode
                  (PartDataParser.start p t07blockSize) (PartDataParser0.init p) _ _
                  (conj eq_refl eq_refl) H) as H0.
    pose proof (PartEquiv.parseHeader_new_old decode
                  (PartDataParser.start p' t07blockSize) (PartDataParser0.init p') _ _
                  (conj eq_refl eq_refl) H') as H0'.
    unfold PartDataParser0.parse. rewrite H0, H0'. cbv zeta.
    rewrite (same_loop_entry0 _ _ _ _ _ H0 H0' Hs). reflexivity.
Qed.

(** C7. [PartDataParser.parse] completes (returns or throws) on every
    buffer and every [t07blockSize], in both revisions: no loop runs
    forever.  A sub-block of type 0x01 moves the cursor by
    [4 + block_size] from the byte after its tag, which is forwards even
    when [block_size < 12] makes the padding size negative. *)
Theorem PartDataParser_parse_terminates
    (arrayBuffer : list byte) (t07blockSize : jsval) :
  completes (PartDataParser.parse decode arrayBuffer t07blockSize) /\
  completes (PartDataParser0.parse decode arrayBuffer) /\
  (forall s : pstate PartDataParser.fields,
      match PartDataParser.parseSubType01 s with
      | Return (sub_type_01 block_size _ _ _ padding_size, s') =>
          padding_size = block_size - 12 /\ 0 <= block_size /\
          offset s' = offset s + 4 + block_size
      | Return _ => False
      | _ => True
      end) /\
  (forall s : pstate unit,
      match PartDataParser0.parseSubType01 s with
      | Return (sub_type_01 block_size _ _ _ padding_size, s') =>
          padding_size = block_size - 12 /\ 0 <= block_size /\
          offset s' = offset s + 4 + block_size
      | Return _ => False
      | _ => True
      end).
Proof.
  split; [apply not_OutOfFuel_completes, PartDataParserFacts.parse_total|].
  split; [apply not_OutOfFuel_completes, PartDataParser0Facts.parse_total0|].
  split; intros s.
  - destruct (PartDataParser.parseSubType01 s) as [[sb s']| |] eqn:E; [|exact I|exact I].
    destruct s as [dv o x]. unfold PartDataParser.parseSubType01 in E. invM E.
    repeat split; flat; lia.
  - destruct (PartDataParser0.parseSubType01 s) as [[sb s']| |] eqn:E; [|exact I|exact I].
    destruct s as [dv o x]. unfold PartDataParser0.parseSubType01 in E. invM E.
    repeat split; flat; lia.
Qed.

(** C10 (amended). The two revisions agree on payloads without
    pin-array (0x09) sub-blocks: when either returns a result that
    contains no sub_type_09 entry, the other returns the same sub-block
    sequence and the same header fields, except that only the
    two-argument revision records part_rotation (the u32 at offset 16). *)
Theorem revisions_agree_without_pin_arrays
    (arrayBuffer : list byte) (t07blockSize : jsval) :
  (forall r0,
      PartDataParser0.parse decode arrayBuffer = Return r0 ->
      no_sub_type_09 (sub_blocks r0) ->
      exists h,
        PartDataParser.parse decode arrayBuffer t07blockSize
          = Return (mkPartResult h (sub_blocks r0)) /\
        drop_rotation h = header r0 /\
        part_rotation h = Some (uint32_at arrayBuffer 16)) /\
  (forall r,
      PartDataParser.parse decode arrayBuffer t07blockSize = Return r ->
      no_sub_type_09 (sub_blocks r) ->
      PartDataParser0.parse decode arrayBuffer
        = Return (mkPartResult (drop_rotation (header r)) (sub_blocks r))).
Proof.
  split.
  - intros r0. apply PartEquiv.parse_old_new.
  - intros r. apply PartEquiv.parse_new_old.
Qed.

End WithDecoder.

Import Samples.

Lemma sub_blocks_confined_to_part_size_witness :
  PartDataParser.parse ascii_decode payload_with_tail_a JUndefined
  = PartDataParser.parse ascii_decode payload_with_tail_b JUndefined.
Proof.
  refine (proj1 (proj2 (proj2 (proj2 (proj2
    (sub_blocks_confined_to_part_size ascii_decode
       payload_with_tail_a payload_with_tail_b JUndefined
       (mkHeader 22 0 0 (Some 0) 0 0 String.EmptyString)
       (mkState payload_with_tail_a 26 (PartDataParser.mkFields JUndefined 0))
       (mkState payload_with_tail_b 26 (PartDataParser.mkFields JUndefined 0))
       _ _ _)))))); vm_compute; reflexivity.
Defined.

Lemma revisions_agree_without_pin_arrays_witness :
  exists h,
    PartDataParser.parse ascii_decode geometry_payload (JNumber 80)
      = Return (mkPartResult h
                  [sub_type_01 12 1 30 40 0; sub_type_05 28 2 1 2 3 4 9]) /\
    drop_rotation h = mkHeader 72 0 0 None 0 0 String.EmptyString /\
    part_rotation h = Some (uint32_at geometry_payload 16).
Proof.
  refine (proj1 (revisions_agree_without_pin_arrays ascii_decode
                   geometry_payload (JNumber 80))
            (mkPartResult (mkHeader 72 0 0 None 0 0 String.EmptyString)
                          [sub_type_01 12 1 30 40 0; sub_type_05 28 2 1 2 3 4 9])
            _ _); vm_compute; reflexivity.
Defined.

(** C10, as stated, fails: on a payload with a pin block the two
    revisions return different sub-block sequences, and the
    two-argument revision even throws when it is given the size of the
    ciphertext. *)
Lemma revisions_differ_on_pin_block :
  PartDataParser0.parse ascii_decode single_pin_payload
    = Return (mkPartResult (mkHeader 63 0 0 None 0 0 String.EmptyString)
                [sub_type_09_single 36 0 2 3 4 5 0 String.EmptyString 6 7 [] 8]) /\
  PartDataParser.parse ascii_decode single_pin_payload JUndefined
    = Return (mkPartResult (mkHeader 63 0 0 (Some 0) 0 0 String.EmptyString)
                [sub_type_09 36 []]) /\
  PartDataParser.parse ascii_decode single_pin_payload (JNumber 72)
    = Throw RangeError /\
  ~ (forall t07blockSize,
        PartDataParser0.parse ascii_decode single_pin_payload
        = PartDataParser.parse ascii_decode single_pin_payload t07blockSize).
Proof.
  split; [vm_compute; reflexivity|].
  split; [vm_compute; reflexivity|].
  split; [vm_compute; reflexivity|].
  intros H. specialize (H (JNumber 72)). vm_compute in H. discriminate.
Qed.

End PartClaims.

(** ** RawPCBParser: progress and termination of the block scan *)

Module RawFacts.
Section WithGlobals.

Variable decode : list byte -> string.
Variable CryptoJS : option RawPCBParser.CryptoJS_library.
Variable PartDataParser : RawPCBParser.PartDataParser_global.

Local Abbreviation parseType02 := (RawPCBParser.parseType02 decode).
Local Abbreviation parseType06 := (RawPCBParser.parseType06 decode).
Local Abbreviation parseType07 := (RawPCBParser.parseType07 decode CryptoJS PartDataParser).
Local Abbreviation parseBlock := (RawPCBParser.parseBlock decode CryptoJS PartDataParser).
Local Abbreviation mainLoop := (RawPCBParser.mainLoop decode CryptoJS PartDataParser).
Local Abbreviation call_parse :=
  (RawPCBParser.call_PartDataParser_parse decode PartDataParser).

Lemma call_parse_total buf : call_parse buf <> OutOfFuel.
Proof.
  unfold RawPCBParser.call_PartDataParser_parse. destruct PartDataParser.
  - discriminate.
  - pose proof (PartDataParserFacts.parse_total decode buf JUndefined).
    destruct (PartDataParser.parse decode buf JUndefined); congruence.
  - pose proof (PartDataParser0Facts.parse_total0 decode buf).
    destruct (PartDataParser0.parse decode buf); congruence.
Qed.

Lemma parseType01_moved s b s' :
  RawPCBParser.parseType01 s = Return (b, s') -> moved 36 s s'.
Proof. unfold RawPCBParser.parseType01. intros H. invM H. moved_tac. Qed.

Lemma parseType02_moved s b s' :
  parseType02 s = Return (b, s') -> moved 36 s s'.
Proof.
  unfold RawPCBParser.parseType02, RawPCBParser.readString. intros H. invM H. moved_tac.
Qed.

Lemma parseType03_moved s b s' :
  RawPCBParser.parseType03 s = Return (b, s') -> moved 4 s s' /\ b = RawPCBParser.EmptyObject.
Proof. unfold RawPCBParser.parseType03. intros H. invM H. split; [moved_tac|reflexivity]. Qed.

Lemma parseType05_moved s b s' :
  RawPCBParser.parseType05 s = Return (b, s') -> moved 32 s s'.
Proof. unfold RawPCBParser.parseType05. intros H. invM H. moved_tac. Qed.

Lemma parseType06_moved s b s' :
  parseType06 s = Return (b, s') -> moved 34 s s'.
Proof.
  unfold RawPCBParser.parseType06, RawPCBParser.readString. intros H. invM H. moved_tac.
Qed.

Lemma parseType07_moved s b s' :
  parseType07 s = Return (b, s') -> moved 4 s s'.
Proof.
  unfold RawPCBParser.parseType07. intros H.
  apply bind_Return in H. destruct H as (bs & s1 & Hbs & H). invM Hbs.
  apply bind_Return in H. destruct H as (enc & s2 & Henc & H). invM Henc.
  apply bind_Return in H. destruct H as (u & s3 & Hadv & H). invM Hadv.
  cbv zeta in H. destruct (call_parse _); try discriminate.
  injection H as _ <-. moved_tac.
Qed.

Lemma parseType09_moved s b s' :
  RawPCBParser.parseType09 s = Return (b, s') -> moved 4 s s' /\ b = RawPCBParser.EmptyObject.
Proof. unfold RawPCBParser.parseType09. intros H. invM H. split; [moved_tac|reflexivity]. Qed.

Lemma parseType07_total s : parseType07 s <> OutOfFuel.
Proof.
  unfold RawPCBParser.parseType07.
  apply bind_total; [apply u32_total|]. intros bs s1 _.
  apply bind_total; [apply view_bytes_total|]. intros enc s2 _.
  apply bind_total; [apply advance_total|]. intros u s3 _.
  cbv zeta. pose proof (call_parse_total
    (buffer match RawPCBParser.decryptWithDES CryptoJS enc with
            | Return d => d
            | _ => enc
            end)) as Ht.
  destruct (call_parse _); congruence || discriminate.
Qed.

(** A turn of the scan that returns has moved the cursor forward. *)
Lemma parseBlock_moved s b s' :
  parseBlock s = Return (b, s') ->
  moved 1 s s' /\ 0 <= offset s /\ offset s + 4 <= byteLength (dataView s).
Proof.
  unfold RawPCBParser.parseBlock. intros H.
  apply bind_Return in H. destruct H as (pad & s1 & Hp & H).
  apply at_offset_Return in Hp. destruct Hp as [-> Hp].
  apply getUint32_Return in Hp. destruct Hp as (-> & H0 & H4).
  split; [|lia].
  destruct (uint32_at (dataView s) (offset s) =? 0).
  - invM H. moved_tac.
  - apply bind_Return in H. destruct H as (tag & s2 & Ht & H). invM Ht.
    rewrite switch_block in H.
    repeat match type of H with
           | (if ?c then _ else _) _ = _ => destruct c
           end;
      try (apply bind_Return in H; destruct H as (blk & s3 & Hb & H); invM H;
           first [ apply parseType01_moved in Hb | apply parseType02_moved in Hb
                 | apply parseType03_moved in Hb; destruct Hb as [Hb _]
                 | apply parseType05_moved in Hb | apply parseType06_moved in Hb
                 | apply parseType07_moved in Hb
                 | apply parseType09_moved in Hb; destruct Hb as [Hb _] ];
           destruct Hb as (Hd & He & Ho); flat;
           unfold moved; rewrite Hd, He; repeat split; lia);
      invM H; moved_tac.
Qed.

Lemma parseBlock_total s : parseBlock s <> OutOfFuel.
Proof.
  unfold RawPCBParser.parseBlock.
  apply bind_total; [apply at_offset_total, getUint32_total|]. intros pad s1 _.
  destruct (pad =? 0); [straight_total|].
  apply bind_total; [apply u8_total|]. intros tag s2 _.
  rewrite switch_block.
  repeat match goal with
         | |- (if ?c then _ else _) _ <> _ => destruct c
         end;
    try (apply bind_total; [|intros; apply ret_total]);
    try apply ret_total; try apply advance_total.
  - unfold RawPCBParser.parseType01. straight_total.
  - unfold RawPCBParser.parseType02, RawPCBParser.readString. straight_total.
  - unfold RawPCBParser.parseType03. straight_total.
  - unfold RawPCBParser.parseType05. straight_total.
  - unfold RawPCBParser.parseType06, RawPCBParser.readString. straight_total.
  - apply parseType07_total.
  - unfold RawPCBParser.parseType09. straight_total.
Qed.

Lemma mainLoop_total fuel endOffset : forall blocks s,
  byteLength (dataView s) - offset s < Z.of_nat fuel -> (0 < fuel)%nat ->
  mainLoop fuel endOffset blocks s <> OutOfFuel.
Proof.
  induction fuel as [|fuel IH]; intros blocks s Hm Hf; [lia|].
  simpl. destruct ((offset s <? endOffset) && (offset s <? byteLength (dataView s)));
    [|discriminate].
  destruct (endOffset <=? offset s); [discriminate|].
  pose proof (parseBlock_total s) as Ht.
  destruct (parseBlock s) as [[b s']| |] eqn:E; try congruence; try discriminate.
  apply parseBlock_moved in E. destruct E as ((Hd & _ & Ho) & H0 & H4).
  apply IH; rewrite ?Hd; lia.
Qed.

(** The scan only appends to [blocks]. *)
Lemma mainLoop_appends fuel endOffset : forall blocks s out s',
  mainLoop fuel endOffset blocks s = Return (out, s') ->
  exists tl, out = blocks ++ tl.
Proof.
  induction fuel as [|fuel IH]; intros blocks s out s' H; [discriminate|].
  simpl in H. destruct (_ && _).
  - destruct (endOffset <=? offset s).
    + injection H as <- _. exists []. rewrite app_nil_r. reflexivity.
    + destruct (parseBlock s) as [[b s1]| |]; try discriminate.
      apply IH in H. destruct H as [tl ->]. destruct b as [b|]; simpl.
      * exists (b :: tl). rewrite <- app_assoc. reflexivity.
      * exists tl. reflexivity.
  - injection H as <- _. exists []. rewrite app_nil_r. reflexivity.
Qed.

(** When the scan returns, the cursor is at or past the end of the
    budget or of the buffer. *)
Lemma mainLoop_stops_at_end fuel endOffset : forall blocks s out s',
  mainLoop fuel endOffset blocks s = Return (out, s') ->
  endOffset <= offset s' \/ byteLength (dataView s') <= offset s'.
Proof.
  induction fuel as [|fuel IH]; intros blocks s out s' H; [discriminate|].
  simpl in H.
  destruct (Z.ltb_spec (offset s) endOffset); simpl in H.
  - destruct (Z.ltb_spec (offset s) (byteLength (dataView s))).
    + destruct (endOffset <=? offset s) eqn:E.
      * injection H as _ <-. lia.
      * destruct (parseBlock s) as [[b s1]| |]; try discriminate.
        eapply IH. eassumption.
    + injection H as _ <-. lia.
  - injection H as _ <-. lia.
Qed.

(** The call of the payload parser always comes back with a value:
    [null] or a result. *)
Lemma call_parse_Return buf : exists parsed, call_parse buf = Return parsed.
Proof.
  pose proof (call_parse_total buf) as Ht.
  unfold RawPCBParser.call_PartDataParser_parse in *. destruct PartDataParser.
  - eexists. reflexivity.
  - destruct (PartDataParser.parse decode buf JUndefined); try congruence;
      eexists; reflexivity.
  - destruct (PartDataParser0.parse decode buf); try congruence; eexists; reflexivity.
Qed.

(** *** Exceptions of the scan *)

Lemma only_bind {X A B} (m : M X A) (f : A -> M X B) s :
  throws_only_RangeError (m s) ->
  (forall a s', m s = Return (a, s') -> throws_only_RangeError (f a s')) ->
  throws_only_RangeError (bind m f s).
Proof.
  unfold bind, throws_only_RangeError. intros Hm Hf e.
  destruct (m s) as [[a s']| |].
  - apply Hf. reflexivity.
  - intros [= <-]. apply Hm. reflexivity.
  - discriminate.
Qed.

Lemma only_ret {X A} (a : A) (s : pstate X) : throws_only_RangeError (ret a s).
Proof. intros e; discriminate. Qed.

Lemma only_advance {X} n (s : pstate X) : throws_only_RangeError (advance n s).
Proof. intros e; discriminate. Qed.

Lemma only_getUint8 dv off : throws_only_RangeError (getUint8 dv off).
Proof.
  unfold getUint8. intros e. destruct (in_range dv off 1); [discriminate|].
  intros [= <-]. reflexivity.
Qed.

Lemma only_getUint16 dv off : throws_only_RangeError (getUint16 dv off).
Proof.
  unfold getUint16. intros e. destruct (in_range dv off 2); [discriminate|].
  intros [= <-]. reflexivity.
Qed.

Lemma only_getUint32 dv off : throws_only_RangeError (getUint32 dv off).
Proof.
  unfold getUint32. intros e. destruct (in_range dv off 4); [discriminate|].
  intros [= <-]. reflexivity.
Qed.

Lemma only_getInt32 dv off : throws_only_RangeError (getInt32 dv off).
Proof.
  unfold getInt32. intros e. pose proof (only_getUint32 dv off e) as H.
  destruct (getUint32 dv off); try discriminate. intros [= <-]. apply H. reflexivity.
Qed.

Lemma only_new_Uint8Array buf off n : throws_only_RangeError (new_Uint8Array buf off n).
Proof.
  unfold new_Uint8Array. intros e. destruct (_ && _); [discriminate|].
  intros [= <-]. reflexivity.
Qed.

Lemma only_setUint8 dv off v : throws_only_RangeError (setUint8 dv off v).
Proof.
  unfold setUint8. intros e. destruct (in_range dv off 1); [discriminate|].
  intros [= <-]. reflexivity.
Qed.

Lemma only_at_offset {X A} (get : list byte -> Z -> outcome A) (s : pstate X) :
  (forall dv off, throws_only_RangeError (get dv off)) ->
  throws_only_RangeError (at_offset get s).
Proof.
  intros H e. unfold at_offset. specialize (H (dataView s) (offset s) e).
  destruct (get (dataView s) (offset s)); try discriminate.
  intros [= <-]. apply H. reflexivity.
Qed.

Lemma only_at_fixed {A} (get : list byte -> Z -> outcome A) k
    (s : pstate RawPCBParser.fields) :
  (forall dv off, throws_only_RangeError (get dv off)) ->
  throws_only_RangeError (RawPCBParser.at_fixed get k s).
Proof.
  intros H e. unfold RawPCBParser.at_fixed. specialize (H (dataView s) k e).
  destruct (get (dataView s) k); try discriminate.
  intros [= <-]. apply H. reflexivity.
Qed.

Lemma only_u32 {X} (s : pstate X) : throws_only_RangeError (u32 s).
Proof.
  unfold u32. apply only_bind; [apply only_at_offset, only_getUint32|].
  intros. apply only_bind; [apply only_advance|]. intros. apply only_ret.
Qed.

Lemma only_i32 {X} (s : pstate X) : throws_only_RangeError (i32 s).
Proof.
  unfold i32. apply only_bind; [apply only_at_offset, only_getInt32|].
  intros. apply only_bind; [apply only_advance|]. intros. apply only_ret.
Qed.

Lemma only_u16 {X} (s : pstate X) : throws_only_RangeError (u16 s).
Proof.
  unfold u16. apply only_bind; [apply only_at_offset, only_getUint16|].
  intros. apply only_bind; [apply only_advance|]. intros. apply only_ret.
Qed.

Lemma only_u8 {X} (s : pstate X) : throws_only_RangeError (u8 s).
Proof.
  unfold u8. apply only_bind; [apply only_at_offset, only_getUint8|].
  intros. apply only_bind; [apply only_advance|]. intros. apply only_ret.
Qed.

Lemma only_view_bytes {X} n (s : pstate X) : throws_only_RangeError (view_bytes n s).
Proof. unfold view_bytes. apply only_at_offset. intros. apply only_new_Uint8Array. Qed.

Ltac straight_only :=
  cbv beta;
  lazymatch goal with
  | |- throws_only_RangeError (ret _ _) => apply only_ret
  | |- throws_only_RangeError (bind _ _ _) =>
      apply only_bind; [straight_only | intros ? ? _; straight_only]
  | |- throws_only_RangeError ((if ?c then _ else _) _) => destruct c; straight_only
  | |- _ =>
      first [ apply only_u32 | apply only_i32 | apply only_u16 | apply only_u8
            | apply only_view_bytes | apply only_advance | apply only_ret ]
  end.

Lemma only_parseType07 s : throws_only_RangeError (parseType07 s).
Proof.
  unfold RawPCBParser.parseType07.
  apply only_bind; [apply only_u32|]. intros bs s1 _.
  apply only_bind; [apply only_view_bytes|]. intros enc s2 _.
  apply only_bind; [apply only_advance|]. intros u s3 _.
  cbv zeta.
  match goal with
  | |- context [call_parse ?b] => destruct (call_parse_Return b) as [parsed ->]
  end.
  intros e; discriminate.
Qed.

Lemma only_parseBlock s : throws_only_RangeError (parseBlock s).
Proof.
  unfold RawPCBParser.parseBlock.
  apply only_bind; [apply only_at_offset, only_getUint32|]. intros pad s1 _.
  destruct (pad =? 0); [straight_only|].
  apply only_bind; [apply only_u8|]. intros tag s2 _.
  rewrite switch_block.
  repeat match goal with
         | |- throws_only_RangeError ((if ?c then _ else _) _) => destruct c
         end;
    try (apply only_bind; [|intros; first [apply only_ret | apply only_advance]]);
    try apply only_ret; try apply only_advance.
  - unfold RawPCBParser.parseType01. straight_only.
  - unfold RawPCBParser.parseType02, RawPCBParser.readString. straight_only.
  - unfold RawPCBParser.parseType03. straight_only.
  - unfold RawPCBParser.parseType05. straight_only.
  - unfold RawPCBParser.parseType06, RawPCBParser.readString. straight_only.
  - apply only_parseType07.
  - unfold RawPCBParser.parseType09. straight_only.
Qed.

Lemma only_mainLoop fuel endOffset : forall blocks s,
  throws_only_RangeError (mainLoop fuel endOffset blocks s).
Proof.
  induction fuel as [|fuel IH]; intros blocks s e; [discriminate|].
  cbn [RawPCBParser.mainLoop]. destruct (_ && _); [|discriminate].
  destruct (endOffset <=? offset s); [discriminate|].
  pose proof (only_parseBlock s e) as Hb.
  destruct (parseBlock s) as [[b s']| |]; [apply IH | | discriminate].
  intros [= <-]. apply Hb. reflexivity.
Qed.

End WithGlobals.
End RawFacts.

(** ** The XOR loop *)

Module XorFacts.

Lemma ToInt32_small z : 0 <= z < 2 ^ 31 -> ToInt32 z = z.
Proof.
  intros H. unfold ToInt32.
  change (2 ^ 31) with 2147483648 in *. change (2 ^ 32) with 4294967296.
  rewrite Z.mod_small by lia. lia.
Qed.

Lemma lxor_byte_range a k : 0 <= a < 256 -> 0 <= k < 256 -> 0 <= Z.lxor a k < 256.
Proof.
  intros Ha Hk. split.
  - apply Z.lxor_nonneg. lia.
  - destruct (Z.eq_dec (Z.lxor a k) 0) as [->|Hn]; [lia|].
    assert (0 < Z.lxor a k) by (pose proof (proj2 (Z.lxor_nonneg a k)); lia).
    change 256 with (2 ^ 8). apply Z.log2_lt_pow2; [assumption|].
    pose proof (Z.log2_lxor a k ltac:(lia) ltac:(lia)) as Hl.
    assert (Z.log2 a < 8).
    { destruct (Z.eq_dec a 0) as [->|]; [cbn; lia|].
      apply Z.log2_lt_pow2; [lia|]. change (2 ^ 8) with 256. lia. }
    assert (Z.log2 k < 8).
    { destruct (Z.eq_dec k 0) as [->|]; [cbn; lia|].
      apply Z.log2_lt_pow2; [lia|]. change (2 ^ 8) with 256. lia. }
    lia.
Qed.

Lemma js_xor_bytes a k : 0 <= a < 256 -> 0 <= k < 256 -> js_xor a k = Z.lxor a k.
Proof.
  intros Ha Hk. unfold js_xor.
  rewrite (ToInt32_small a), (ToInt32_small k)
    by (change (2 ^ 31) with 2147483648; lia).
  apply ToInt32_small. pose proof (lxor_byte_range a k Ha Hk).
  change (2 ^ 31) with 2147483648. lia.
Qed.

Lemma byte_to_of_Z z : 0 <= z < 256 -> byte_to_Z (byte_of_Z z) = z.
Proof.
  intros H. unfold byte_to_Z, byte_of_Z. rewrite Z.mod_small by lia.
  destruct (Byte.of_N (Z.to_N z)) as [b|] eqn:E.
  - apply Byte.to_of_N in E. rewrite E. lia.
  - apply Byte.of_N_None_iff in E. lia.
Qed.

Lemma byte_of_to_Z b : byte_of_Z (byte_to_Z b) = b.
Proof.
  unfold byte_of_Z, byte_to_Z. pose proof (Byte.to_N_bounded b).
  rewrite Z.mod_small by lia. rewrite N2Z.id, Byte.of_to_N. reflexivity.
Qed.

Lemma xor_byte_involutive k b : 0 <= k < 256 ->
  RawPCBParser.xor_byte k (RawPCBParser.xor_byte k b) = b.
Proof.
  intros Hk. unfold RawPCBParser.xor_byte.
  pose proof (byte_to_Z_range b) as Hb.
  rewrite (js_xor_bytes (byte_to_Z b) k Hb Hk).
  pose proof (lxor_byte_range _ _ Hb Hk) as Hx.
  rewrite (byte_to_of_Z _ Hx). rewrite (js_xor_bytes _ k Hx Hk).
  rewrite Z.lxor_assoc, Z.lxor_nilpotent, Z.lxor_0_r. apply byte_of_to_Z.
Qed.


Lemma list_set_app pre b rest v :
  list_set (pre ++ b :: rest) (List.length pre) v = pre ++ v :: rest.
Proof. induction pre as [|a pre IH]; simpl; [reflexivity | rewrite IH; reflexivity]. Qed.

Lemma byte_at_app pre b rest :
  byte_at (pre ++ b :: rest) (Z.of_nat (List.length pre)) = byte_to_Z b.
Proof.
  unfold byte_at. rewrite Nat2Z.id, nth_error_app2 by lia.
  rewrite Nat.sub_diag. reflexivity.
Qed.

(** The XOR loop from index [|pre|] on: [count] bytes are replaced by
    their XOR with the key, the others are left as they are. *)
Lemma xorLoop_run key count : forall pre rest o x,
  (count <= List.length rest)%nat ->
  RawPCBParser.xorLoop key (Z.of_nat (List.length pre)) count (mkState (pre ++ rest) o x)
  = Return (tt, mkState (pre ++ map (RawPCBParser.xor_byte key) (firstn count rest)
                             ++ skipn count rest) o x).
Proof.
  induction count as [|count IH]; intros pre rest o x Hc.
  - reflexivity.
  - destruct rest as [|b rest]; [simpl in Hc; lia|]. simpl in Hc.
    cbn [RawPCBParser.xorLoop].
    eapply bind_run.
    { unfold RawPCBParser.at_fixed. flat. rewrite getUint8_run.
      - reflexivity.
      - lia.
      - unfold byteLength. rewrite length_app. simpl. lia. }
    eapply bind_run.
    { unfold RawPCBParser.set_u8, setUint8. flat. rewrite in_range_intro.
      - rewrite Nat2Z.id, list_set_app. reflexivity.
      - lia.
      - unfold byteLength. rewrite length_app. simpl. lia. }
    flat. rewrite byte_at_app.
    specialize (IH (pre ++ [RawPCBParser.xor_byte key b]) rest o x ltac:(lia)).
    rewrite length_app in IH. simpl in IH.
    replace (Z.of_nat (List.length pre + 1)) with (Z.of_nat (List.length pre) + 1) in IH by lia.
    rewrite <- !app_assoc in IH. simpl in IH. exact IH.
Qed.

Lemma xorLoop_prefix key n dv o x :
  0 <= n <= byteLength dv ->
  RawPCBParser.xorLoop key 0 (Z.to_nat n) (mkState dv o x)
  = Return (tt, mkState (map (RawPCBParser.xor_byte key) (firstn (Z.to_nat n) dv)
                         ++ skipn (Z.to_nat n) dv) o x).
Proof.
  intros Hn. apply (xorLoop_run key (Z.to_nat n) [] dv o x).
  unfold byteLength in Hn. lia.
Qed.

Lemma xor_prefix_twice key n (dv : list byte) :
  0 <= key < 256 -> (n <= List.length dv)%nat ->
  let dv' := map (RawPCBParser.xor_byte key) (firstn n dv) ++ skipn n dv in
  map (RawPCBParser.xor_byte key) (firstn n dv') ++ skipn n dv' = dv.
Proof.
  intros Hk Hn dv'. unfold dv'.
  assert (Hl : List.length (map (RawPCBParser.xor_byte key) (firstn n dv)) = n)
    by (rewrite length_map, length_firstn; lia).
  rewrite firstn_app, skipn_app, Hl, Nat.sub_diag. simpl.
  rewrite firstn_all2 by lia. rewrite skipn_all2 by lia. simpl.
  rewrite app_nil_r, map_map.
  rewrite (map_ext _ (fun b => b)) by (intros; apply xor_byte_involutive; exact Hk).
  rewrite map_id. apply firstn_skipn.
Qed.

Lemma xor_prefix_length key n (dv : list byte) :
  List.length (map (RawPCBParser.xor_byte key) (firstn n dv) ++ skipn n dv)
  = List.length dv.
Proof.
  rewrite length_app, length_map, <- length_app, firstn_skipn. reflexivity.
Qed.

(** A DataView has no [length]: the loop bound is NaN and nothing is
    searched. *)
Lemma findSequence_DataView dv sequence :
  RawPCBParser.findSequence (RawPCBParser.DataViewObject dv) sequence = -1.
Proof. reflexivity. Qed.

Lemma xoredDataLength_whole dv : RawPCBParser.xoredDataLength dv = byteLength dv.
Proof. reflexivity. Qed.

End XorFacts.

Import XorFacts.

(** ** RawPCBParser.parse: header, de-obfuscation and totality *)

Module ParseFacts.
Section WithGlobals.

Variable decode : list byte -> string.
Variable CryptoJS : option RawPCBParser.CryptoJS_library.
Variable PartDataParser : RawPCBParser.PartDataParser_global.

Local Abbreviation parse := (RawPCBParser.parse decode CryptoJS PartDataParser).
Local Abbreviation parseMainDataBlocks :=
  (RawPCBParser.parseMainDataBlocks decode CryptoJS PartDataParser).

(** [xorDecrypt] throws exactly when byte 0x10 does not exist; otherwise
    it keeps the length of the view, the cursor and the fields. *)
Lemma xorDecrypt_short (s : pstate RawPCBParser.fields) :
  byteLength (dataView s) <= 0x10 -> RawPCBParser.xorDecrypt s = Throw RangeError.
Proof.
  intros H. unfold RawPCBParser.xorDecrypt, bind, RawPCBParser.at_fixed, getUint8.
  rewrite in_range_false by lia. reflexivity.
Qed.

Lemma xorDecrypt_run (s : pstate RawPCBParser.fields) :
  0x10 < byteLength (dataView s) ->
  exists dv, RawPCBParser.xorDecrypt s = Return (tt, mkState dv (offset s) (extra s)) /\
             byteLength dv = byteLength (dataView s).
Proof.
  intros H. destruct s as [dv o x]. flat. unfold RawPCBParser.xorDecrypt.
  assert (Hk : RawPCBParser.at_fixed getUint8 0x10 (mkState dv o x)
               = Return (byte_at dv 0x10, mkState dv o x)).
  { unfold RawPCBParser.at_fixed. flat. rewrite getUint8_run by lia. reflexivity. }
  unfold bind at 1. rewrite Hk.
  destruct (negb (byte_at dv 0x10 =? 0x00)).
  - unfold bind at 1. flat. rewrite Hk. rewrite xoredDataLength_whole.
    rewrite xorLoop_prefix by lia. eexists. split; [reflexivity|].
    unfold byteLength. rewrite xor_prefix_length. reflexivity.
  - exists dv. split; reflexivity.
Qed.

Lemma at_fixed_getUint32 (s : pstate RawPCBParser.fields) k :
  RawPCBParser.at_fixed getUint32 k s
  = if in_range (dataView s) k 4 then Return (uint32_at (dataView s) k, s)
    else Throw RangeError.
Proof.
  unfold RawPCBParser.at_fixed, getUint32. destruct (in_range _ _ _); reflexivity.
Qed.

Ltac header_read :=
  unfold bind at 1; rewrite at_fixed_getUint32;
  match goal with
  | |- context [in_range ?d ?k 4] => destruct (in_range d k 4) eqn:?
  end.

Lemma parseFileHeader_short (s : pstate RawPCBParser.fields) :
  byteLength (dataView s) < 0x44 -> RawPCBParser.parseFileHeader s = Throw RangeError.
Proof.
  intros H. unfold RawPCBParser.parseFileHeader.
  do 3 (header_read; [|reflexivity]).
  unfold bind. rewrite at_fixed_getUint32, in_range_false by lia. reflexivity.
Qed.

Lemma parseFileHeader_Return (s s' : pstate RawPCBParser.fields) u :
  RawPCBParser.parseFileHeader s = Return (u, s') ->
  s' = mkState (dataView s) 0x44
               (RawPCBParser.mkFields (uint32_at (dataView s) 0x40)).
Proof.
  unfold RawPCBParser.parseFileHeader.
  do 4 (header_read; [|discriminate]).
  intros [= _ <-]. reflexivity.
Qed.

Lemma parseFileHeader_total (s : pstate RawPCBParser.fields) :
  RawPCBParser.parseFileHeader s <> OutOfFuel.
Proof.
  unfold RawPCBParser.parseFileHeader.
  do 4 (header_read; [|discriminate]).
  discriminate.
Qed.

Lemma parseMainDataBlocks_total (s : pstate RawPCBParser.fields) :
  0 <= offset s -> parseMainDataBlocks s <> OutOfFuel.
Proof.
  intros H. unfold RawPCBParser.parseMainDataBlocks. cbv zeta.
  apply RawFacts.mainLoop_total; [unfold byteLength|]; lia.
Qed.

Lemma raw_parse_total arrayBuffer : parse arrayBuffer <> OutOfFuel.
Proof.
  unfold RawPCBParser.parse. cbv zeta.
  match goal with
  | |- match ?m ?s with _ => _ end <> _ =>
      assert (Hm : m s <> OutOfFuel); [| destruct (m s) as [[? ?]| |]; congruence || discriminate ]
  end.
  apply bind_total.
  - destruct (Z.le_gt_cases (byteLength arrayBuffer) 0x10) as [Hs|Hl].
    + rewrite xorDecrypt_short by exact Hs. discriminate.
    + destruct (xorDecrypt_run (mkState arrayBuffer 0 (RawPCBParser.mkFields 0)) Hl)
        as (dv & -> & _). discriminate.
  - intros u s1 _. apply bind_total; [apply parseFileHeader_total|].
    intros u' s2 Hh. apply parseFileHeader_Return in Hh. subst s2.
    apply parseMainDataBlocks_total. flat. lia.
Qed.

(** A buffer shorter than the 0x44-byte header makes [parse] throw. *)
Lemma raw_parse_short arrayBuffer :
  byteLength arrayBuffer < 0x44 -> parse arrayBuffer = Throw RangeError.
Proof.
  intros H. unfold RawPCBParser.parse. cbv zeta. unfold bind at 1.
  destruct (Z.le_gt_cases (byteLength arrayBuffer) 0x10) as [Hs|Hl].
  - rewrite xorDecrypt_short by exact Hs. reflexivity.
  - destruct (xorDecrypt_run (mkState arrayBuffer 0 (RawPCBParser.mkFields 0)) Hl)
      as (dv & -> & Hlen).
    unfold bind at 1. rewrite parseFileHeader_short; [reflexivity|].
    flat. rewrite Hlen. exact H.
Qed.

Lemma only_xorLoop xorKey count : forall i (s : pstate RawPCBParser.fields),
  throws_only_RangeError (RawPCBParser.xorLoop xorKey i count s).
Proof.
  induction count as [|count IH]; intros i s.
  - apply RawFacts.only_ret.
  - cbn [RawPCBParser.xorLoop].
    apply RawFacts.only_bind; [apply RawFacts.only_at_fixed, RawFacts.only_getUint8|].
    intros v s1 _. apply RawFacts.only_bind; [|intros; apply IH].
    unfold RawPCBParser.set_u8. intros e.
    pose proof (RawFacts.only_setUint8 (dataView s1) i (js_xor v xorKey) e) as H.
    destruct (setUint8 _ _ _); try discriminate. intros [= <-]. apply H. reflexivity.
Qed.

Lemma only_xorDecrypt (s : pstate RawPCBParser.fields) :
  throws_only_RangeError (RawPCBParser.xorDecrypt s).
Proof.
  unfold RawPCBParser.xorDecrypt.
  apply RawFacts.only_bind; [apply RawFacts.only_at_fixed, RawFacts.only_getUint8|].
  intros key s1 _. destruct (negb (key =? 0x00)); [|apply RawFacts.only_ret].
  cbv zeta.
  apply RawFacts.only_bind; [apply RawFacts.only_at_fixed, RawFacts.only_getUint8|].
  intros. apply only_xorLoop.
Qed.

Lemma only_parseFileHeader (s : pstate RawPCBParser.fields) :
  throws_only_RangeError (RawPCBParser.parseFileHeader s).
Proof.
  unfold RawPCBParser.parseFileHeader.
  do 4 (apply RawFacts.only_bind;
        [apply RawFacts.only_at_fixed, RawFacts.only_getUint32 | intros ? ? _]).
  intros e; discriminate.
Qed.

(** [parse] throws nothing but RangeErrors: the exceptions of the cipher
    and of the payload parser are caught in [parseType07]. *)
Lemma raw_parse_only arrayBuffer : throws_only_RangeError (parse arrayBuffer).
Proof.
  unfold RawPCBParser.parse. cbv zeta.
  match goal with
  | |- throws_only_RangeError (match ?m ?s with _ => _ end) =>
      assert (Hm : throws_only_RangeError (m s));
      [| intros e; specialize (Hm e); destruct (m s) as [[? ?]| |];
         [discriminate | intros [= <-]; apply Hm; reflexivity | discriminate] ]
  end.
  apply RawFacts.only_bind; [apply only_xorDecrypt|]. intros u s1 _.
  apply RawFacts.only_bind; [apply only_parseFileHeader|]. intros u' s2 _.
  unfold RawPCBParser.parseMainDataBlocks. cbv zeta. apply RawFacts.only_mainLoop.
Qed.

End WithGlobals.
End ParseFacts.

(** ** Claims about RawPCBParser *)

Module RawClaims.
Section WithGlobals.

Variable decode : list byte -> string.
Variable CryptoJS : option RawPCBParser.CryptoJS_library.
Variable PartDataParser : RawPCBParser.PartDataParser_global.

Local Abbreviation parse := (RawPCBParser.parse decode CryptoJS PartDataParser).
Local Abbreviation parseBlock := (RawPCBParser.parseBlock decode CryptoJS PartDataParser).
Local Abbreviation mainLoop := (RawPCBParser.mainLoop decode CryptoJS PartDataParser).
Local Abbreviation parseType07 :=
  (RawPCBParser.parseType07 decode CryptoJS PartDataParser).

Lemma parseBlock_read_past_end (s : pstate RawPCBParser.fields) :
  byteLength (dataView s) < offset s + 4 -> parseBlock s = Throw RangeError.
Proof.
  intros H. unfold RawPCBParser.parseBlock, bind, at_offset, getUint32.
  rewrite in_range_false by lia. reflexivity.
Qed.

Lemma mainLoop_step fuel endOffset blocks (s : pstate RawPCBParser.fields) :
  offset s < endOffset -> offset s < byteLength (dataView s) ->
  mainLoop (S fuel) endOffset blocks s
  = match parseBlock s with
    | Return (block, s') =>
        mainLoop fuel endOffset (RawPCBParser.push_if_truthy blocks block) s'
    | Throw e => Throw e
    | OutOfFuel => OutOfFuel
    end.
Proof.
  intros H1 H2. cbn [RawPCBParser.mainLoop].
  destruct (Z.ltb_spec (offset s) endOffset); [|lia].
  destruct (Z.ltb_spec (offset s) (byteLength (dataView s))); [|lia].
  destruct (Z.leb_spec endOffset (offset s)); [lia|]. reflexivity.
Qed.

Lemma answers_tag_unknown tag :
  tag <> 1 -> tag <> 2 -> tag <> 3 -> tag <> 5 -> tag <> 6 -> tag <> 7 -> tag <> 9 ->
  RawPCBParser.answers_tag tag None = true.
Proof.
  intros. destruct tag as [|p|p]; try reflexivity.
  do 4 (try (destruct p as [p|p|]; try reflexivity)); congruence.
Qed.

Ltac tag_cases H :=
  repeat match type of H with
         | (if ?v =? ?k then _ else _) _ = _ =>
             destruct (Z.eqb_spec v k) as [->|?]
         end.

(** What one turn of the scan hands to [if (block)]. *)
Lemma parseBlock_answer (s s' : pstate RawPCBParser.fields) block :
  parseBlock s = Return (block, s') ->
  (uint32_at (dataView s) (offset s) = 0 -> block = None) /\
  (uint32_at (dataView s) (offset s) <> 0 ->
   RawPCBParser.answers_tag (byte_at (dataView s) (offset s)) block = true).
Proof.
  unfold RawPCBParser.parseBlock. intros H.
  apply bind_Return in H. destruct H as (pad & s1 & Hp & H).
  apply at_offset_Return in Hp. destruct Hp as [-> Hp].
  apply getUint32_Return in Hp. destruct Hp as (-> & H0 & H4).
  destruct (Z.eqb_spec (uint32_at (dataView s) (offset s)) 0) as [Hz|Hz].
  - invM H. split; [reflexivity | congruence].
  - split; [congruence|]. intros _.
    apply bind_Return in H. destruct H as (tag & s2 & Ht & H). invM Ht.
    rewrite switch_block in H.
    remember (byte_at (dataView s) (offset s)) as tag eqn:Etag. tag_cases H.
    + unfold RawPCBParser.parseType01 in H. invM H. reflexivity.
    + unfold RawPCBParser.parseType02, RawPCBParser.readString in H. invM H. reflexivity.
    + unfold RawPCBParser.parseType03 in H. invM H. reflexivity.
    + invM H. reflexivity.
    + unfold RawPCBParser.parseType05 in H. invM H. reflexivity.
    + unfold RawPCBParser.parseType06, RawPCBParser.readString in H. invM H. reflexivity.
    + apply bind_Return in H. destruct H as (blk & s3 & Hb & H). invM H.
      unfold RawPCBParser.parseType07 in Hb.
      repeat (apply bind_Return in Hb; destruct Hb as (? & ? & _ & Hb)).
      cbv zeta in Hb.
      destruct (RawPCBParser.call_PartDataParser_parse _ _ _); try discriminate.
      injection Hb as <- _. reflexivity.
    + invM H. reflexivity.
    + unfold RawPCBParser.parseType09 in H. invM H. reflexivity.
    + invM H. apply answers_tag_unknown; assumption.
Qed.

(** C9. The crafted buffer (a zero header with mainDataBlocksSize = 13
    at 0x40, then the VIA block) parses to exactly one VIA block with
    the literal field values and the empty string as via_text. *)
Theorem via_scenario :
  decode [] = String.EmptyString ->
  parse Samples.via_file
  = Return (RawPCBParser.mkParseResult
              [RawPCBParser.VIA 100 200 50 20 1 3 7 String.EmptyString]).
Proof.
  intros Hd. rewrite <- Hd. vm_compute. reflexivity.
Qed.

End WithGlobals.

Import Samples.

(** C1, as stated, fails: the buffer is longer than the header, the
    first turn of the scan decodes the VIA block, the next turn finds two
    bytes where it reads four, and [parse] throws instead of returning
    the VIA block. *)
Lemma scan_read_past_end_is_not_contained :
  0x44 <= byteLength via_then_two_bytes /\
  RawPCBParser.parseBlock ascii_decode None RawPCBParser.PartDataParser_two_args
    (mkState via_then_two_bytes 0x44 (RawPCBParser.mkFields 39))
  = Return (Some (RawPCBParser.VIA 100 200 50 20 1 3 7 String.EmptyString),
            mkState via_then_two_bytes 105 (RawPCBParser.mkFields 39)) /\
  RawPCBParser.parse ascii_decode None RawPCBParser.PartDataParser_two_args
    via_then_two_bytes = Throw RangeError.
Proof.
  split; [vm_compute; discriminate|].
  split; vm_compute; reflexivity.
Qed.

(** C4, as stated, fails: the placeholders of the 0x03 and 0x09 blocks
    are in the output, before the VIA block. *)
Lemma placeholders_are_appended :
  RawPCBParser.parse ascii_decode None RawPCBParser.PartDataParser_two_args skips_then_via
  = Return (RawPCBParser.mkParseResult
              [RawPCBParser.EmptyObject; RawPCBParser.EmptyObject;
               RawPCBParser.VIA 100 200 50 20 1 3 7 String.EmptyString]).
Proof. vm_compute. reflexivity. Qed.

Lemma via_scenario_witness :
  RawPCBParser.parse ascii_decode None RawPCBParser.PartDataParser_two_args via_file
  = Return (RawPCBParser.mkParseResult
              [RawPCBParser.VIA 100 200 50 20 1 3 7 String.EmptyString]).
Proof.
  apply (via_scenario ascii_decode None RawPCBParser.PartDataParser_two_args).
  reflexivity.
Defined.

End RawClaims.

(** ** findSequence over an array of bytes *)

Module SearchFacts.

Lemma skipn_nth_error_Some {A} (l : list A) k a :
  nth_error l k = Some a -> skipn k l = a :: skipn (S k) l.
Proof.
  revert l. induction k as [|k IH]; intros [|x l] H; try discriminate.
  - injection H as ->. reflexivity.
  - simpl in H. apply IH in H. exact H.
Qed.

Lemma skipn_nth_error_None {A} (l : list A) k :
  nth_error l k = None -> skipn k l = [].
Proof. intros H. apply skipn_all2. apply nth_error_None. exact H. Qed.

(** The inner loop compares [sequence] with the bytes at [i + j]. *)
Lemma found_at_bytes bytes i : forall rest j,
  0 <= i + j ->
  RawPCBParser.found_at (RawPCBParser.Uint8ArrayObject bytes) i j rest = true <->
  firstn (List.length rest) (skipn (Z.to_nat (i + j)) (map byte_to_Z bytes)) = rest.
Proof.
  induction rest as [|x rest IH]; intros j Hj.
  - simpl. split; reflexivity.
  - cbn [RawPCBParser.found_at RawPCBParser.get_index List.length].
    destruct (Z.ltb_spec (i + j) 0) as [|_]; [lia|].
    destruct (nth_error bytes (Z.to_nat (i + j))) as [b|] eqn:E.
    + assert (Em : nth_error (map byte_to_Z bytes) (Z.to_nat (i + j)) = Some (byte_to_Z b))
        by (rewrite nth_error_map, E; reflexivity).
      rewrite (skipn_nth_error_Some _ _ _ Em). cbn [firstn js_strict_neq].
      specialize (IH (j + 1) ltac:(lia)).
      replace (Z.to_nat (i + (j + 1))) with (S (Z.to_nat (i + j))) in IH by lia.
      destruct (Z.eqb_spec (byte_to_Z b) x) as [->|Hne]; cbn [negb].
      * rewrite IH. split; [intros ->; reflexivity | intros [= H]; exact H].
      * split; [discriminate | intros [= H _]; contradiction].
    + assert (Em : nth_error (map byte_to_Z bytes) (Z.to_nat (i + j)) = None)
        by (rewrite nth_error_map, E; reflexivity).
      rewrite (skipn_nth_error_None _ _ Em). cbn [firstn js_strict_neq].
      split; discriminate.
Qed.

Lemma found_at_occurs bytes sequence i :
  0 <= i ->
  RawPCBParser.found_at (RawPCBParser.Uint8ArrayObject bytes) i 0 sequence = true <->
  RawPCBParser.occurs_at bytes sequence i.
Proof.
  intros Hi. unfold RawPCBParser.occurs_at.
  rewrite (found_at_bytes bytes i sequence 0) by lia. rewrite Z.add_0_r. tauto.
Qed.

(** The outer loop returns the first index of its range where the
    sequence occurs, and -1 when there is none. *)
Lemma findSequence_from_bytes bytes sequence : forall count i,
  0 <= i ->
  let r := RawPCBParser.findSequence_from (RawPCBParser.Uint8ArrayObject bytes)
             sequence i count in
  (r = -1 /\ forall k, i <= k < i + Z.of_nat count ->
                       ~ RawPCBParser.occurs_at bytes sequence k) \/
  (i <= r < i + Z.of_nat count /\ RawPCBParser.occurs_at bytes sequence r /\
   forall k, i <= k < r -> ~ RawPCBParser.occurs_at bytes sequence k).
Proof.
  induction count as [|count IH]; intros i Hi; cbn [RawPCBParser.findSequence_from].
  - left. split; [reflexivity | intros k Hk; lia].
  - destruct (RawPCBParser.found_at _ i 0 sequence) eqn:E.
    + right. apply found_at_occurs in E; [|exact Hi].
      split; [lia|]. split; [exact E | intros k Hk; lia].
    + assert (Hno : ~ RawPCBParser.occurs_at bytes sequence i).
      { intros Ho. apply found_at_occurs in Ho; [|exact Hi]. congruence. }
      specialize (IH (i + 1) ltac:(lia)). cbv zeta in IH.
      destruct IH as [[-> Hn]|(Hr & Ho & Hn)].
      * left. split; [reflexivity|]. intros k Hk.
        destruct (Z.eq_dec k i) as [->|]; [exact Hno | apply Hn; lia].
      * right. split; [lia|]. split; [exact Ho|]. intros k Hk.
        destruct (Z.eq_dec k i) as [->|]; [exact Hno | apply Hn; lia].
Qed.

Lemma occurs_at_bound bytes sequence k :
  RawPCBParser.occurs_at bytes sequence k ->
  sequence = [] \/ k + Z.of_nat (List.length sequence) <= byteLength bytes.
Proof.
  intros [Hk Ho]. destruct sequence as [|x rest]; [left; reflexivity | right].
  assert (Hl : List.length (firstn (List.length (x :: rest))
                              (skipn (Z.to_nat k) (map byte_to_Z bytes)))
               = List.length (x :: rest)) by (rewrite Ho; reflexivity).
  rewrite length_firstn, length_skipn, length_map in Hl. unfold byteLength.
  cbn [List.length] in *. lia.
Qed.

(** Over an array of bytes, [findSequence] returns the offset of the first
    occurrence of the sequence, and -1 when it does not occur. *)
Lemma findSequence_bytes bytes sequence :
  let r := RawPCBParser.findSequence (RawPCBParser.Uint8ArrayObject bytes) sequence in
  (r = -1 /\ forall k, ~ RawPCBParser.occurs_at bytes sequence k) \/
  (RawPCBParser.occurs_at bytes sequence r /\
   forall k, k < r -> ~ RawPCBParser.occurs_at bytes sequence k).
Proof.
  cbv zeta. unfold RawPCBParser.findSequence.
  cbn [RawPCBParser.get_length ToNumber js_sub].
  pose proof (findSequence_from_bytes bytes sequence
                (Z.to_nat (byteLength bytes - Z.of_nat (List.length sequence) + 1)) 0
                ltac:(lia)) as H.
  cbv zeta in H. destruct H as [[-> Hn]|(Hr & Ho & Hn)].
  - left. split; [reflexivity|]. intros k Hk.
    pose proof Hk as [Hk0 _].
    destruct (occurs_at_bound _ _ _ Hk) as [->|Hb].
    + apply (Hn 0); [unfold byteLength; simpl; lia|]. split; [lia | reflexivity].
    + apply (Hn k); [lia | exact Hk].
  - right. split; [exact Ho|]. intros k Hk Hok. pose proof Hok as [Hk0 _].
    apply (Hn k); [lia | exact Hok].
Qed.

End SearchFacts.

(** ** Claims about de-obfuscation and about DATA blocks *)

Module DataClaims.

Import Samples.

(** C2. The search for the 11-byte marker is made on the DataView
    object, which has no [length] and no indexed elements: the loop
    bound is NaN, [findSequence] returns -1 whatever the buffer holds,
    and the XOR length is the whole buffer, past every occurrence of the
    marker.  Over the bytes themselves [findSequence] does return the
    offset of the first occurrence.  On a buffer with key 0x55 at 0x10
    and the marker at offset 68, the search over the bytes finds 68, the
    parser computes 82, and the marker itself is XORed. *)
Theorem marker_search_on_DataView_finds_nothing :
  (forall dv sequence,
      RawPCBParser.findSequence (RawPCBParser.DataViewObject dv) sequence = -1) /\
  (forall dv, RawPCBParser.xoredDataLength dv = byteLength dv) /\
  (forall dv i,
      RawPCBParser.occurs_at dv RawPCBParser.sequence i ->
      i + 11 <= RawPCBParser.xoredDataLength dv) /\
  (forall bytes sequence,
      let r := RawPCBParser.findSequence (RawPCBParser.Uint8ArrayObject bytes) sequence in
      (r = -1 /\ forall k, ~ RawPCBParser.occurs_at bytes sequence k) \/
      (RawPCBParser.occurs_at bytes sequence r /\
       forall k, k < r -> ~ RawPCBParser.occurs_at bytes sequence k)) /\
  byte_at obfuscated_with_marker 0x10 = 0x55 /\
  RawPCBParser.findSequence (RawPCBParser.Uint8ArrayObject obfuscated_with_marker)
    RawPCBParser.sequence = 68 /\
  RawPCBParser.xoredDataLength obfuscated_with_marker = 82 /\
  exists dv,
    RawPCBParser.xorDecrypt (mkState obfuscated_with_marker 0 (RawPCBParser.mkFields 0))
    = Return (tt, mkState dv 0 (RawPCBParser.mkFields 0)) /\
    firstn 11 (skipn 68 obfuscated_with_marker) = bytes_of RawPCBParser.sequence /\
    firstn 11 (skipn 68 dv)
    = bytes_of (map (fun z => Z.lxor z 0x55) RawPCBParser.sequence).
Proof.
  split; [exact findSequence_DataView|].
  split; [exact xoredDataLength_whole|].
  split.
  { intros dv i Ho. rewrite xoredDataLength_whole.
    destruct (SearchFacts.occurs_at_bound _ _ _ Ho) as [He|Hb]; [discriminate He|].
    exact Hb. }
  split; [exact SearchFacts.findSequence_bytes|].
  split; [vm_compute; reflexivity|].
  split; [vm_compute; reflexivity|].
  split; [vm_compute; reflexivity|].
  eexists. split; [vm_compute; reflexivity|].
  split; vm_compute; reflexivity.
Qed.

Lemma marker_search_on_DataView_finds_nothing_witness :
  68 + 11 <= RawPCBParser.xoredDataLength obfuscated_with_marker.
Proof.
  refine (proj1 (proj2 (proj2 marker_search_on_DataView_finds_nothing))
            obfuscated_with_marker 68 _).
  split; [lia | vm_compute; reflexivity].
Defined.

(** C8. For a key [k] with [0 < k < 256], running the XOR loop twice
    with [k] over the same length [n] of a buffer restores the buffer;
    in particular over the length that [parse] computes. *)
Theorem xor_twice_restores
    (k : Z) (b : list byte) (o : Z) (x : RawPCBParser.fields) :
  0 < k < 256 ->
  (forall n, 0 <= n <= byteLength b ->
     exists b',
       RawPCBParser.xorLoop k 0 (Z.to_nat n) (mkState b o x) = Return (tt, mkState b' o x) /\
       RawPCBParser.xorLoop k 0 (Z.to_nat n) (mkState b' o x) = Return (tt, mkState b o x)) /\
  (exists b',
     RawPCBParser.xorLoop k 0 (Z.to_nat (RawPCBParser.xoredDataLength b)) (mkState b o x)
     = Return (tt, mkState b' o x) /\
     RawPCBParser.xorLoop k 0 (Z.to_nat (RawPCBParser.xoredDataLength b)) (mkState b' o x)
     = Return (tt, mkState b o x)).
Proof.
  intros Hk.
  assert (Hn : forall n, 0 <= n <= byteLength b ->
     exists b',
       RawPCBParser.xorLoop k 0 (Z.to_nat n) (mkState b o x) = Return (tt, mkState b' o x) /\
       RawPCBParser.xorLoop k 0 (Z.to_nat n) (mkState b' o x) = Return (tt, mkState b o x)).
  { intros n Hn. eexists. split; [apply xorLoop_prefix; exact Hn|].
    rewrite xorLoop_prefix.
    - rewrite xor_prefix_twice; [reflexivity | lia | unfold byteLength in Hn; lia].
    - unfold byteLength in *. rewrite xor_prefix_length. exact Hn. }
  split; [exact Hn|].
  apply Hn. rewrite xoredDataLength_whole. unfold byteLength. lia.
Qed.

Lemma xor_twice_restores_witness :
  exists b',
    RawPCBParser.xorLoop 0x55 0 (Z.to_nat 82)
      (mkState obfuscated_with_marker 0 (RawPCBParser.mkFields 0))
    = Return (tt, mkState b' 0 (RawPCBParser.mkFields 0)) /\
    RawPCBParser.xorLoop 0x55 0 (Z.to_nat 82) (mkState b' 0 (RawPCBParser.mkFields 0))
    = Return (tt, mkState obfuscated_with_marker 0 (RawPCBParser.mkFields 0)).
Proof.
  refine (proj1 (xor_twice_restores 0x55 obfuscated_with_marker 0
                   (RawPCBParser.mkFields 0) _) 82 _).
  - lia.
  - vm_compute. split; discriminate.
Defined.

Section WithDecoder.

Variable decode : list byte -> string.

(** With [cur_block_size] undefined, [offset + blockSize <= undefined]
    is false and the pin loop does not run. *)
Lemma pinLoop_undefined fuel blockSize pins (s : pstate PartDataParser.fields) :
  PartDataParser.cur_block_size (extra s) = JUndefined ->
  PartDataParser.pinLoop decode (S fuel) blockSize pins s = Return (pins, s).
Proof. intros H. cbn [PartDataParser.pinLoop]. rewrite H. reflexivity. Qed.

Lemma parseSubBlock_undefined (s s' : pstate PartDataParser.fields) sb :
  PartDataParser.cur_block_size (extra s) = JUndefined ->
  PartDataParser.parseSubBlock decode s = Return (Some sb, s') ->
  forall bs pins, sb = sub_type_09 bs pins -> pins = [].
Proof.
  intros Hu H bs pins ->. unfold PartDataParser.parseSubBlock in H.
  destruct (byteLength (dataView s) <=? offset s); [discriminate|].
  apply bind_Return in H. destruct H as (tag & s1 & Ht & H). invM Ht.
  rewrite switch_sub_block in H.
  repeat match type of H with
         | (if ?c then _ else _) _ = _ => destruct c
         end.
  - unfold PartDataParser.parseSubType01 in H. invM H. discriminate.
  - unfold PartDataParser.parseSubType05 in H. invM H. discriminate.
  - unfold PartDataParser.parseSubType06 in H. invM H; discriminate.
  - apply bind_Return in H. destruct H as (b & s2 & Hb & H). invM H.
    unfold PartDataParser.parseSubType09 in Hb.
    apply bind_Return in Hb. destruct Hb as (bsz & s3 & Hz & Hb). invM Hz.
    cbv beta in Hb. apply bind_Return in Hb. destruct Hb as (pins' & s4 & Hl & Hb).
    rewrite pinLoop_undefined in Hl by exact Hu. injection Hl as <- <-.
    invM Hb. congruence.
  - invM H. discriminate.
Qed.

Lemma subBlockLoop_undefined fuel : forall acc (s s' : pstate PartDataParser.fields) out,
  PartDataParser.cur_block_size (extra s) = JUndefined ->
  pins_all_empty acc ->
  PartDataParser.subBlockLoop decode fuel acc s = Return (out, s') ->
  pins_all_empty out.
Proof.
  induction fuel as [|fuel IH]; intros acc s s' out Hu Ha H; [discriminate|].
  cbn [PartDataParser.subBlockLoop] in H. destruct (_ <? _).
  - destruct (PartDataParser.parseSubBlock decode s) as [[[sb|] s1]| |] eqn:E;
      try discriminate.
    + pose proof (PartDataParserFacts.parseSubBlock_moved _ _ _ _ E) as (_ & He & _).
      eapply IH; [rewrite He; exact Hu | | exact H].
      intros bs pins Hin. apply in_app_or in Hin. destruct Hin as [Hin|[Hin|[]]].
      * eapply Ha. exact Hin.
      * eapply parseSubBlock_undefined; eauto.
    + injection H as <- _. exact Ha.
  - injection H as <- _. exact Ha.
Qed.

Lemma parse_undefined arrayBuffer r :
  PartDataParser.parse decode arrayBuffer JUndefined = Return r ->
  pins_all_empty (sub_blocks r).
Proof.
  unfold PartDataParser.parse. intros H.
  destruct (PartDataParser.parseHeader decode _) as [[h s1]| |] eqn:Eh; try discriminate.
  cbv zeta in H.
  destruct (PartDataParser.subBlockLoop decode _ _ _) as [[sbs s2]| |] eqn:El;
    try discriminate.
  injection H as <-. cbn [sub_blocks].
  pose proof (PartDataParserFacts.parseHeader_moved _ _ _ _ Eh) as ((_ & He & _) & _).
  eapply subBlockLoop_undefined; [ | | exact El].
  - unfold PartDataParser.rescope. flat. rewrite He. reflexivity.
  - intros bs pins [].
Qed.

Variable CryptoJS : option RawPCBParser.CryptoJS_library.

(** What [parseType07] does up to the decryption. *)
Lemma parseType07_Return PartDataParser (s s' : pstate RawPCBParser.fields) blk :
  RawPCBParser.parseType07 decode CryptoJS PartDataParser s = Return (blk, s') ->
  let blockSize := uint32_at (dataView s) (offset s) in
  let encryptedData := mkUint8Array (dataView s) (offset s + 4) blockSize in
  let decryptedData :=
    match RawPCBParser.decryptWithDES CryptoJS encryptedData with
    | Return d => d
    | _ => encryptedData
    end in
  0 <= offset s /\ offset s + 4 + blockSize <= byteLength (dataView s) /\
  s' = mkState (dataView s) (offset s + 4 + blockSize) (extra s) /\
  exists parsed,
    RawPCBParser.call_PartDataParser_parse decode PartDataParser (buffer decryptedData)
    = Return parsed /\
    blk = RawPCBParser.DATA blockSize (Array_from encryptedData)
            (Array_from decryptedData) parsed.
Proof.
  unfold RawPCBParser.parseType07. intros H.
  apply bind_Return in H. destruct H as (bs & s1 & Hbs & H). invM Hbs.
  apply bind_Return in H. destruct H as (enc & s2 & Henc & H). invM Henc.
  apply bind_Return in H. destruct H as (u & s3 & Hadv & H). invM Hadv.
  cbv zeta in *.
  destruct (RawPCBParser.call_PartDataParser_parse _ _ _) as [parsed| |] eqn:E;
    try discriminate.
  injection H as <- <-. repeat split; try lia.
  exists parsed. split; reflexivity.
Qed.

(** C3. As [parseType07] calls it, [PartDataParser.parse] gets one
    argument: [t07blockSize] is undefined, the pin loop's test
    [offset + blockSize <= cur_block_size] is false, and every pin
    array in the parsed_data of a DATA block is empty.  Given the
    ciphertext length (112) the same payload yields its Pin record. *)
Theorem parseType07_leaves_block_size_undefined :
  (forall (s s' : pstate RawPCBParser.fields) block_size enc dec r,
      RawPCBParser.parseType07 decode CryptoJS RawPCBParser.PartDataParser_two_args s
      = Return (RawPCBParser.DATA block_size enc dec (Some r), s') ->
      forall bs pins, In (sub_type_09 bs pins) (sub_blocks r) -> pins = []) /\
  (forall arrayBuffer,
      RawPCBParser.call_PartDataParser_parse decode RawPCBParser.PartDataParser_two_args
        arrayBuffer
      = match PartDataParser.parse decode arrayBuffer JUndefined with
        | Return r => Return (Some r)
        | Throw _ => Return None
        | OutOfFuel => OutOfFuel
        end) /\
  PartDataParser.parse decode pin_payload (JNumber 112)
  = Return (mkPartResult (mkHeader 100 0 0 (Some 0) 0 0 String.EmptyString)
              [sub_type_09 60 [mkPin 0 10 20 0 90 0 String.EmptyString 6 5 1 42]]) /\
  PartDataParser.parse decode pin_payload JUndefined
  = Return (mkPartResult (mkHeader 100 0 0 (Some 0) 0 0 String.EmptyString)
              [sub_type_09 60 []]).
Proof.
  split; [|split; [|split]].
  - intros s s' block_size enc dec r H.
    apply parseType07_Return in H. cbv zeta in H.
    destruct H as (_ & _ & _ & parsed & Hc & Hb).
    injection Hb as _ _ _ <-.
    unfold RawPCBParser.call_PartDataParser_parse in Hc.
    destruct (PartDataParser.parse decode _ JUndefined) as [r'| |] eqn:E; try discriminate.
    injection Hc as ->. exact (parse_undefined _ _ E).
  - reflexivity.
  - vm_compute. reflexivity.
  - vm_compute. reflexivity.
Qed.

End WithDecoder.

Lemma parseType07_leaves_block_size_undefined_witness :
  RawPCBParser.parseType07 ascii_decode (Some pin_payload_library)
    RawPCBParser.PartDataParser_two_args
    (mkState data_file 0x45 (RawPCBParser.mkFields 117))
  = Return (RawPCBParser.DATA 112
              (Array_from (mkUint8Array data_file 0x49 112))
              (map byte_to_Z pin_payload)
              (Some (mkPartResult (mkHeader 100 0 0 (Some 0) 0 0 String.EmptyString)
                                  [sub_type_09 60 []])),
            mkState data_file (0x49 + 112) (RawPCBParser.mkFields 117)) /\
  (@nil Pin) = [].
Proof.
  assert (H : RawPCBParser.parseType07 ascii_decode (Some pin_payload_library)
                RawPCBParser.PartDataParser_two_args
                (mkState data_file 0x45 (RawPCBParser.mkFields 117))
              = Return (RawPCBParser.DATA 112
                          (Array_from (mkUint8Array data_file 0x49 112))
                          (map byte_to_Z pin_payload)
                          (Some (mkPartResult
                                   (mkHeader 100 0 0 (Some 0) 0 0 String.EmptyString)
                                   [sub_type_09 60 []])),
                        mkState data_file (0x49 + 112) (RawPCBParser.mkFields 117)))
    by (vm_compute; reflexivity).
  split; [exact H|].
  refine (proj1 (parseType07_leaves_block_size_undefined ascii_decode
                   (Some pin_payload_library)) _ _ _ _ _ _ H 60 [] _).
  vm_compute. left. reflexivity.
Defined.


(** C6, as stated, fails: a 26-byte payload whose header announces
    part_size = 1000 leaves a working buffer of 26 bytes, not of
    4 + 1000. *)
Lemma working_buffer_shorter_than_part_size :
  PartDataParser.parseHeader ascii_decode
    (PartDataParser.start payload_short_of_part_size JUndefined)
  = Return (mkHeader 1000 0 0 (Some 0) 0 0 String.EmptyString,
            mkState payload_short_of_part_size 26 (PartDataParser.mkFields JUndefined 0)) /\
  byteLength (dataView
    (PartDataParser.rescope payload_short_of_part_size 1000
       (mkState payload_short_of_part_size 26 (PartDataParser.mkFields JUndefined 0))))
  = 26 /\
  26 <> 4 + 1000.
Proof.
  split; [vm_compute; reflexivity|].
  split; [vm_compute; reflexivity | lia].
Qed.

End DataClaims.

(** ** Claims about the scan of RawPCBParser.parse *)

Module ScanClaims.
Section WithGlobals.

Variable decode : list byte -> string.
Variable CryptoJS : option RawPCBParser.CryptoJS_library.
Variable PartDataParser : RawPCBParser.PartDataParser_global.

Local Abbreviation parse := (RawPCBParser.parse decode CryptoJS PartDataParser).
Local Abbreviation parseBlock := (RawPCBParser.parseBlock decode CryptoJS PartDataParser).
Local Abbreviation mainLoop := (RawPCBParser.mainLoop decode CryptoJS PartDataParser).
Local Abbreviation parseMainDataBlocks :=
  (RawPCBParser.parseMainDataBlocks decode CryptoJS PartDataParser).
Local Abbreviation scan_turns := (RawPCBParser.scan_turns decode CryptoJS PartDataParser).
Local Abbreviation handed_over := RawPCBParser.handed_over.
Local Abbreviation new_parser arrayBuffer := (mkState arrayBuffer 0 (RawPCBParser.mkFields 0)).

Lemma push_if_truthy_app blocks block :
  RawPCBParser.push_if_truthy blocks block
  = blocks ++ RawPCBParser.push_if_truthy [] block.
Proof. destruct block; cbn; [reflexivity | rewrite app_nil_r; reflexivity]. Qed.

Lemma handed_over_cons (s : pstate RawPCBParser.fields) block turns :
  handed_over ((s, block) :: turns)
  = RawPCBParser.push_if_truthy [] block ++ handed_over turns.
Proof. reflexivity. Qed.



(** The loop test fails: the loop ends and hands back [blocks]. *)
Lemma mainLoop_exit fuel endOffset blocks (s : pstate RawPCBParser.fields) :
  endOffset <= offset s \/ byteLength (dataView s) <= offset s ->
  mainLoop (S fuel) endOffset blocks s = Return (blocks, s).
Proof.
  intros H. cbn [RawPCBParser.mainLoop].
  destruct (Z.ltb_spec (offset s) endOffset);
    destruct (Z.ltb_spec (offset s) (byteLength (dataView s))); cbn [andb];
    try reflexivity.
  lia.
Qed.

(** After the turns of a run, the loop goes on from the state they lead
    to, with what they handed over appended. *)
Lemma mainLoop_after_turns endOffset s turns s' :
  scan_turns endOffset s turns s' ->
  forall fuel blocks,
    mainLoop fuel endOffset blocks s <> OutOfFuel ->
    exists fuel',
      mainLoop fuel endOffset blocks s
      = mainLoop (S fuel') endOffset (blocks ++ handed_over turns) s'.
Proof.
  induction 1 as [s | s block s1 turns s' H1 H2 Hb Ht IH]; intros fuel blocks Hf.
  - destruct fuel as [|fuel]; [exfalso; apply Hf; reflexivity|].
    exists fuel. cbn. rewrite app_nil_r. reflexivity.
  - destruct fuel as [|fuel]; [exfalso; apply Hf; reflexivity|].
    rewrite RawClaims.mainLoop_step in Hf |- * by assumption.
    rewrite Hb in Hf |- *.
    destruct (IH fuel _ Hf) as [fuel' E]. exists fuel'. rewrite E.
    rewrite handed_over_cons, push_if_truthy_app, app_assoc. reflexivity.
Qed.

(** Every outcome of the loop is the end of a run: it returns from a
    failed loop test, and throws from a turn that throws. *)
Lemma mainLoop_turns endOffset fuel : forall blocks (s : pstate RawPCBParser.fields),
  match mainLoop fuel endOffset blocks s with
  | Return (out, s') =>
      exists turns,
        scan_turns endOffset s turns s' /\
        (endOffset <= offset s' \/ byteLength (dataView s') <= offset s') /\
        out = blocks ++ handed_over turns
  | Throw e =>
      exists turns s',
        scan_turns endOffset s turns s' /\
        offset s' < endOffset /\ offset s' < byteLength (dataView s') /\
        parseBlock s' = Throw e
  | OutOfFuel => True
  end.
Proof.
  induction fuel as [|fuel IH]; intros blocks s; [exact I|].
  destruct (Z.lt_ge_cases (offset s) endOffset) as [H1|H1];
    [destruct (Z.lt_ge_cases (offset s) (byteLength (dataView s))) as [H2|H2]|].
  - rewrite RawClaims.mainLoop_step by assumption.
    destruct (parseBlock s) as [[block s1]|e|] eqn:Hb.
    + specialize (IH (RawPCBParser.push_if_truthy blocks block) s1).
      destruct (mainLoop fuel endOffset _ s1) as [[out s']|e|]; [| |exact I].
      * destruct IH as (turns & Ht & He & ->).
        exists ((s, block) :: turns). split; [|split; [exact He|]].
        -- eapply RawPCBParser.scan_turn; eassumption.
        -- rewrite handed_over_cons, push_if_truthy_app, app_assoc. reflexivity.
      * destruct IH as (turns & s' & Ht & Ha & Hb' & He).
        exists ((s, block) :: turns), s'. split; [|auto].
        eapply RawPCBParser.scan_turn; eassumption.
    + exists [], s. split; [apply RawPCBParser.scan_none | auto].
    + exact I.
  - rewrite mainLoop_exit by lia. exists []. split; [apply RawPCBParser.scan_none|].
    split; [lia|]. cbn. rewrite app_nil_r. reflexivity.
  - rewrite mainLoop_exit by lia. exists []. split; [apply RawPCBParser.scan_none|].
    split; [lia|]. cbn. rewrite app_nil_r. reflexivity.
Qed.

(** The states of a run: the view and the fields stay, the cursor moves
    forward at every turn, and a turn starts with four bytes left. *)
Lemma scan_turns_states endOffset s turns s' :
  scan_turns endOffset s turns s' ->
  dataView s' = dataView s /\ extra s' = extra s /\ offset s <= offset s' /\
  Forall (fun turn =>
            dataView (fst turn) = dataView s /\ extra (fst turn) = extra s /\
            offset s <= offset (fst turn) < offset s' /\
            offset (fst turn) < endOffset /\
            offset (fst turn) + 4 <= byteLength (dataView s)) turns /\
  StronglySorted (fun turn later => offset (fst turn) < offset (fst later)) turns.
Proof.
  induction 1 as [s | s block s1 turns s' H1 H2 Hb Ht IH].
  - repeat split; try lia; constructor.
  - destruct IH as (Hd & He & Ho & Hf & Hs).
    apply RawFacts.parseBlock_moved in Hb. destruct Hb as ((Hd1 & He1 & Ho1) & H0 & H4).
    rewrite Hd1 in Hd. rewrite He1 in He.
    split; [exact Hd|]. split; [exact He|]. split; [lia|]. split.
    + constructor; [cbn [fst]; repeat split; lia|].
      eapply Forall_impl; [|exact Hf]. cbn beta. intros t (Ha & Hb & Hc & Hd' & He').
      rewrite Ha, Hb, Hd1, He1. rewrite Hd1 in He'. repeat split; lia.
    + constructor; [exact Hs|].
      eapply Forall_impl; [|exact Hf]. cbn beta. cbn [fst]. intros t (_ & _ & Hc & _). lia.
Qed.

(** Each turn of a run answers the tag it started at. *)
Lemma scan_turns_answers endOffset s turns s' :
  scan_turns endOffset s turns s' ->
  Forall (fun turn =>
            let dv := dataView (fst turn) in
            let o := offset (fst turn) in
            (uint32_at dv o = 0 -> snd turn = None) /\
            (uint32_at dv o <> 0 ->
             RawPCBParser.answers_tag (byte_at dv o) (snd turn) = true)) turns.
Proof.
  induction 1 as [s | s block s1 turns s' H1 H2 Hb Ht IH]; constructor.
  - cbn [fst snd]. cbv zeta. eapply RawClaims.parseBlock_answer. exact Hb.
  - exact IH.
Qed.

(** [parse] up to the scan. *)
Lemma parseFileHeader_long (s : pstate RawPCBParser.fields) :
  0x44 <= byteLength (dataView s) ->
  RawPCBParser.parseFileHeader s
  = Return (tt, mkState (dataView s) 0x44
                  (RawPCBParser.mkFields (uint32_at (dataView s) 0x40))).
Proof.
  intros Hl. unfold RawPCBParser.parseFileHeader.
  do 4 (unfold bind at 1; rewrite ParseFacts.at_fixed_getUint32, in_range_intro by lia).
  reflexivity.
Qed.

Lemma parse_reaches_scan arrayBuffer :
  0x44 <= byteLength arrayBuffer ->
  exists s1 s2,
    RawPCBParser.xorDecrypt (new_parser arrayBuffer) = Return (tt, s1) /\
    RawPCBParser.parseFileHeader s1 = Return (tt, s2).
Proof.
  intros Hl.
  destruct (ParseFacts.xorDecrypt_run (new_parser arrayBuffer) ltac:(flat; lia))
    as (dv & Hx & Hlen). flat.
  eexists. eexists. split; [exact Hx|]. apply parseFileHeader_long. flat. lia.
Qed.

Lemma parse_is_scan arrayBuffer s1 s2 :
  RawPCBParser.xorDecrypt (new_parser arrayBuffer) = Return (tt, s1) ->
  RawPCBParser.parseFileHeader s1 = Return (tt, s2) ->
  offset s2 = 0x44 /\
  parse arrayBuffer
  = match parseMainDataBlocks s2 with
    | Return (blocks, _) => Return (RawPCBParser.mkParseResult blocks)
    | Throw e => Throw e
    | OutOfFuel => OutOfFuel
    end.
Proof.
  intros Hx Hh. split.
  - apply ParseFacts.parseFileHeader_Return in Hh. subst s2. reflexivity.
  - unfold RawPCBParser.parse. cbv zeta.
    rewrite (bind_run _ _ _ _ _ _ Hx eq_refl).
    rewrite (bind_run _ _ _ _ _ _ Hh eq_refl). reflexivity.
Qed.

(** The scan of [parse] after the turns of a run. *)
Lemma scan_after_turns (s2 : pstate RawPCBParser.fields) turns s :
  0 <= offset s2 ->
  scan_turns (offset s2 + RawPCBParser.mainDataBlocksSize (extra s2)) s2 turns s ->
  exists fuel,
    parseMainDataBlocks s2
    = mainLoop (S fuel) (offset s2 + RawPCBParser.mainDataBlocksSize (extra s2))
        (handed_over turns) s.
Proof.
  intros H0 Ht.
  pose proof (ParseFacts.parseMainDataBlocks_total decode CryptoJS PartDataParser s2 H0) as Hf.
  unfold RawPCBParser.parseMainDataBlocks in Hf |- *. cbv zeta in Hf |- *.
  destruct (mainLoop_after_turns _ _ _ _ Ht _ [] Hf) as [fuel E].
  exists fuel. exact E.
Qed.

Lemma scan_throws arrayBuffer s1 s2 turns s e :
  RawPCBParser.xorDecrypt (new_parser arrayBuffer) = Return (tt, s1) ->
  RawPCBParser.parseFileHeader s1 = Return (tt, s2) ->
  let endOffset := offset s2 + RawPCBParser.mainDataBlocksSize (extra s2) in
  scan_turns endOffset s2 turns s ->
  offset s < endOffset -> offset s < byteLength (dataView s) ->
  parseBlock s = Throw e ->
  parseMainDataBlocks s2 = Throw e /\ parse arrayBuffer = Throw e.
Proof.
  intros Hx Hh endOffset Ht H1 H2 He.
  destruct (parse_is_scan _ _ _ Hx Hh) as [H0 Hp].
  destruct (scan_after_turns s2 turns s ltac:(lia) Ht) as [fuel E].
  fold endOffset in E.
  rewrite RawClaims.mainLoop_step, He in E by assumption.
  rewrite Hp, E. split; reflexivity.
Qed.

Lemma scan_returns arrayBuffer s1 s2 turns s :
  RawPCBParser.xorDecrypt (new_parser arrayBuffer) = Return (tt, s1) ->
  RawPCBParser.parseFileHeader s1 = Return (tt, s2) ->
  let endOffset := offset s2 + RawPCBParser.mainDataBlocksSize (extra s2) in
  scan_turns endOffset s2 turns s ->
  endOffset <= offset s \/ byteLength (dataView s) <= offset s ->
  parseMainDataBlocks s2 = Return (handed_over turns, s) /\
  parse arrayBuffer = Return (RawPCBParser.mkParseResult (handed_over turns)).
Proof.
  intros Hx Hh endOffset Ht H1.
  destruct (parse_is_scan _ _ _ Hx Hh) as [H0 Hp].
  destruct (scan_after_turns s2 turns s ltac:(lia) Ht) as [fuel E].
  fold endOffset in E.
  rewrite mainLoop_exit in E by assumption.
  rewrite Hp, E. split; reflexivity.
Qed.

(** Every call of [parse] on a buffer that holds the header is a run of
    the scan. *)
Lemma parse_is_run arrayBuffer :
  0x44 <= byteLength arrayBuffer ->
  exists s1 s2 turns s,
    RawPCBParser.xorDecrypt (new_parser arrayBuffer) = Return (tt, s1) /\
    RawPCBParser.parseFileHeader s1 = Return (tt, s2) /\
    let endOffset := offset s2 + RawPCBParser.mainDataBlocksSize (extra s2) in
    scan_turns endOffset s2 turns s /\
    match parse arrayBuffer with
    | Return r =>
        (endOffset <= offset s \/ byteLength (dataView s) <= offset s) /\
        RawPCBParser.main_data_block r = handed_over turns
    | Throw e =>
        offset s < endOffset /\ offset s < byteLength (dataView s) /\
        parseBlock s = Throw e
    | OutOfFuel => False
    end.
Proof.
  intros Hl. destruct (parse_reaches_scan arrayBuffer Hl) as (s1 & s2 & Hx & Hh).
  destruct (parse_is_scan _ _ _ Hx Hh) as [H0 Hp].
  pose proof (ParseFacts.parseMainDataBlocks_total decode CryptoJS PartDataParser s2
                ltac:(lia)) as Hf.
  unfold RawPCBParser.parseMainDataBlocks in Hp, Hf. cbv zeta in Hp, Hf.
  pose proof (mainLoop_turns (offset s2 + RawPCBParser.mainDataBlocksSize (extra s2))
                (S (List.length (dataView s2))) [] s2) as Hr.
  exists s1, s2.
  destruct (mainLoop _ _ _ s2) as [[out s]|e|]; [| |congruence].
  - destruct Hr as (turns & Ht & He & ->). exists turns, s.
    split; [exact Hx|]. split; [exact Hh|]. cbv zeta. split; [exact Ht|].
    rewrite Hp. split; [exact He | reflexivity].
  - destruct Hr as (turns & s & Ht & Ha & Hb & He). exists turns, s.
    split; [exact Hx|]. split; [exact Hh|]. cbv zeta. split; [exact Ht|].
    rewrite Hp. auto.
Qed.

(** C1 (amended). [parse] always completes, and throws nothing but
    RangeErrors.  It throws one on a buffer shorter than the 0x44-byte
    header.  On a longer buffer the scan is not contained: when, after
    any number of turns, a turn throws (as every turn does that starts
    with fewer than four bytes left), the exception leaves
    [parseMainDataBlocks] and [parse], and the blocks handed over by the
    turns before are not returned.  They are returned when, and only
    when, the loop test fails after those turns: every call of [parse]
    is a run of turns that ends either in a failed loop test, and then
    returns the blocks of the run, or in a turn that throws, and then
    throws what that turn throws. *)
Theorem scan_read_past_end_propagates :
  (forall arrayBuffer,
      completes (parse arrayBuffer) /\ throws_only_RangeError (parse arrayBuffer)) /\
  (forall arrayBuffer,
      byteLength arrayBuffer < 0x44 -> parse arrayBuffer = Throw RangeError) /\
  (forall arrayBuffer s1 s2 turns s,
      RawPCBParser.xorDecrypt (new_parser arrayBuffer) = Return (tt, s1) ->
      RawPCBParser.parseFileHeader s1 = Return (tt, s2) ->
      let endOffset := offset s2 + RawPCBParser.mainDataBlocksSize (extra s2) in
      scan_turns endOffset s2 turns s ->
      (offset s < endOffset -> offset s < byteLength (dataView s) ->
       (byteLength (dataView s) < offset s + 4 ->
        parseMainDataBlocks s2 = Throw RangeError /\
        parse arrayBuffer = Throw RangeError) /\
       (forall e, parseBlock s = Throw e ->
                  parseMainDataBlocks s2 = Throw e /\ parse arrayBuffer = Throw e)) /\
      (endOffset <= offset s \/ byteLength (dataView s) <= offset s ->
       parseMainDataBlocks s2 = Return (handed_over turns, s) /\
       parse arrayBuffer = Return (RawPCBParser.mkParseResult (handed_over turns)))) /\
  (forall arrayBuffer,
      0x44 <= byteLength arrayBuffer ->
      exists s1 s2 turns s,
        RawPCBParser.xorDecrypt (new_parser arrayBuffer) = Return (tt, s1) /\
        RawPCBParser.parseFileHeader s1 = Return (tt, s2) /\
        let endOffset := offset s2 + RawPCBParser.mainDataBlocksSize (extra s2) in
        scan_turns endOffset s2 turns s /\
        match parse arrayBuffer with
        | Return r =>
            (endOffset <= offset s \/ byteLength (dataView s) <= offset s) /\
            RawPCBParser.main_data_block r = handed_over turns
        | Throw e =>
            offset s < endOffset /\ offset s < byteLength (dataView s) /\
            parseBlock s = Throw e
        | OutOfFuel => False
        end).
Proof.
  split; [|split; [|split]].
  - intros ab. split.
    + apply PartClaims.not_OutOfFuel_completes, ParseFacts.raw_parse_total.
    + apply ParseFacts.raw_parse_only.
  - intros ab. apply ParseFacts.raw_parse_short.
  - intros ab s1 s2 turns s Hx Hh endOffset Ht. split.
    + intros H1 H2. split.
      * intros H4. eapply scan_throws; try eassumption.
        apply RawClaims.parseBlock_read_past_end. exact H4.
      * intros e He. eapply scan_throws; eassumption.
    + intros He. eapply scan_returns; eassumption.
  - apply parse_is_run.
Qed.

Lemma answers_tag_Some tag b :
  RawPCBParser.answers_tag tag (Some b) = true ->
  tag = 1 \/ tag = 2 \/ tag = 3 \/ tag = 5 \/ tag = 6 \/ tag = 7 \/ tag = 9.
Proof.
  intros H. destruct tag as [|p|p]; try discriminate H.
  do 4 (try destruct p as [p|p|]); try discriminate H; lia.
Qed.

Lemma answers_tag_skip tag block :
  tag = 3 \/ tag = 9 ->
  RawPCBParser.answers_tag tag block = true -> block = Some RawPCBParser.EmptyObject.
Proof.
  intros [-> | ->] H; destruct block as [[]|]; try discriminate H; reflexivity.
Qed.

(** C4 (amended). When [parse] returns, [main_data_block] is what the
    turns of the scan handed over, in their order, which is the order of
    the positions they started at in the de-obfuscated file: an ARC,
    VIA, SEGMENT, TEXT or DATA object for a turn at a tag 0x01, 0x02,
    0x05, 0x06 or 0x07, and the empty object [{}] for a turn at a tag
    0x03 or 0x09, which is truthy and is appended too; a turn at four
    zero bytes of padding, at a tag 0x04 or 0x08 or at an unknown tag
    hands over nothing. *)
Theorem main_data_block_contents arrayBuffer r :
  parse arrayBuffer = Return r ->
  exists s1 s2 turns s,
    RawPCBParser.xorDecrypt (new_parser arrayBuffer) = Return (tt, s1) /\
    RawPCBParser.parseFileHeader s1 = Return (tt, s2) /\
    let endOffset := offset s2 + RawPCBParser.mainDataBlocksSize (extra s2) in
    scan_turns endOffset s2 turns s /\
    (endOffset <= offset s \/ byteLength (dataView s) <= offset s) /\
    RawPCBParser.main_data_block r
    = flat_map (fun turn => match snd turn with Some b => [b] | None => [] end) turns /\
    StronglySorted (fun turn later => offset (fst turn) < offset (fst later)) turns /\
    Forall (fun turn =>
              let dv := dataView (fst turn) in
              let o := offset (fst turn) in
              let tag := byte_at dv o in
              dv = dataView s1 /\ 0x44 <= o /\ o + 4 <= byteLength dv /\
              (uint32_at dv o = 0 -> snd turn = None) /\
              (uint32_at dv o <> 0 ->
               RawPCBParser.answers_tag tag (snd turn) = true /\
               (tag = 3 \/ tag = 9 -> snd turn = Some RawPCBParser.EmptyObject) /\
               (tag = 0 \/ tag = 4 \/ tag = 8 \/ 9 < tag -> snd turn = None))) turns.
Proof.
  intros Hr.
  destruct (Z.lt_ge_cases (byteLength arrayBuffer) 0x44) as [Hs|Hl].
  { rewrite ParseFacts.raw_parse_short in Hr by exact Hs. discriminate. }
  destruct (parse_is_run arrayBuffer Hl) as (s1 & s2 & turns & s & Hx & Hh & Ht & Hp).
  cbv zeta in Ht, Hp. rewrite Hr in Hp. destruct Hp as [He Hm].
  exists s1, s2, turns, s. split; [exact Hx|]. split; [exact Hh|]. cbv zeta.
  split; [exact Ht|]. split; [exact He|]. split; [exact Hm|].
  pose proof (scan_turns_states _ _ _ _ Ht) as (_ & _ & _ & Hf & Hs).
  split; [exact Hs|].
  pose proof (scan_turns_answers _ _ _ _ Ht) as Ha.
  apply ParseFacts.parseFileHeader_Return in Hh.
  assert (Hd : dataView s2 = dataView s1) by (subst s2; reflexivity).
  assert (Ho : offset s2 = 0x44) by (subst s2; reflexivity).
  clear Ht Hm Hs Hh. induction turns as [|turn turns IH]; constructor.
  - apply Forall_inv in Hf, Ha. cbv zeta in Ha |- *.
    destruct Hf as (Hv & _ & Hc & _ & H4). destruct Ha as [Ha0 Ha1].
    rewrite Hv. split; [exact Hd|]. split; [lia|]. split; [lia|].
    rewrite <- Hv. split; [exact Ha0|]. intros Hn. specialize (Ha1 Hn).
    split; [exact Ha1|]. split.
    + intros H39. eapply answers_tag_skip; eassumption.
    + intros Hu. destruct (snd turn) as [b|]; [|reflexivity].
      apply answers_tag_Some in Ha1. lia.
  - apply IH; [eapply Forall_inv_tail; exact Hf | eapply Forall_inv_tail; exact Ha].
Qed.



End WithGlobals.

Import Samples.

Local Abbreviation two_args := RawPCBParser.PartDataParser_two_args.
Local Abbreviation via := (RawPCBParser.VIA 100 200 50 20 1 3 7 String.EmptyString).

Lemma scan_read_past_end_propagates_witness :
  RawPCBParser.parseMainDataBlocks ascii_decode None two_args
    (mkState via_then_two_bytes 0x44 (RawPCBParser.mkFields 39)) = Throw RangeError /\
  RawPCBParser.parse ascii_decode None two_args via_then_two_bytes = Throw RangeError.
Proof.
  refine (proj1 (proj1 (proj1 (proj2 (proj2
    (scan_read_past_end_propagates ascii_decode None two_args)))
    via_then_two_bytes
    (mkState via_then_two_bytes 0 (RawPCBParser.mkFields 0))
    (mkState via_then_two_bytes 0x44 (RawPCBParser.mkFields 39))
    [(mkState via_then_two_bytes 0x44 (RawPCBParser.mkFields 39), Some via)]
    (mkState via_then_two_bytes 105 (RawPCBParser.mkFields 39))
    _ _ _) _ _) _).
  - vm_compute. reflexivity.
  - vm_compute. reflexivity.
  - eapply RawPCBParser.scan_turn;
      [vm_compute; reflexivity | vm_compute; reflexivity | vm_compute; reflexivity|].
    apply RawPCBParser.scan_none.
  - vm_compute. reflexivity.
  - vm_compute. reflexivity.
  - vm_compute. reflexivity.
Defined.

Lemma main_data_block_contents_witness :
  exists turns : list (pstate RawPCBParser.fields * option RawPCBParser.TopLevelBlock),
    [RawPCBParser.EmptyObject; RawPCBParser.EmptyObject; via]
    = flat_map (fun turn => match snd turn with Some b => [b] | None => [] end) turns /\
    StronglySorted (fun turn later => offset (fst turn) < offset (fst later)) turns.
Proof.
  destruct (main_data_block_contents ascii_decode None two_args skips_then_via
              (RawPCBParser.mkParseResult
                 [RawPCBParser.EmptyObject; RawPCBParser.EmptyObject; via]))
    as (s1 & s2 & turns & s & Hx & Hh & Ht & He & Hm & Hs & Hf).
  - vm_compute. reflexivity.
  - exists turns. split; [exact Hm | exact Hs].
Defined.


End ScanClaims.

(** ** Further properties of the parsers *)

(** ** Tools: closed forms of straight-line readers *)

Module Closed.

(** A call that neither returns nor runs out of fuel and throws nothing
    but RangeErrors throws a RangeError. *)
Lemma not_Return_Throw {A} (o : outcome A) :
  o <> OutOfFuel -> throws_only_RangeError o -> (forall a, o <> Return a) ->
  o = Throw RangeError.
Proof.
  intros Ht Ho Hr. destruct o as [a|e|].
  - exfalso. eapply Hr. reflexivity.
  - rewrite (Ho e eq_refl). reflexivity.
  - congruence.
Qed.

Ltac only_RangeError :=
  cbv beta;
  lazymatch goal with
  | |- throws_only_RangeError (ret _ _) => apply RawFacts.only_ret
  | |- throws_only_RangeError (bind _ _ _) =>
      apply RawFacts.only_bind; [only_RangeError | intros ? ? _; only_RangeError]
  | |- throws_only_RangeError ((if ?c then _ else _) _) => destruct c; only_RangeError
  | |- _ =>
      first [ apply RawFacts.only_u32 | apply RawFacts.only_i32 | apply RawFacts.only_u16
            | apply RawFacts.only_u8 | apply RawFacts.only_view_bytes
            | apply RawFacts.only_advance | apply RawFacts.only_ret
            | apply RawFacts.only_at_offset, RawFacts.only_getUint32 ]
  end.

Lemma in_range_false_inv dv off w :
  in_range dv off w = false -> ~ (0 <= off /\ off + w <= byteLength dv).
Proof. intros H [H0 H1]. rewrite in_range_intro in H by assumption. discriminate. Qed.

Lemma andb_in_range dv o1 w1 o2 w2 :
  in_range dv o1 w1 && in_range dv o2 w2 = false ->
  ~ (0 <= o1 /\ o1 + w1 <= byteLength dv /\ 0 <= o2 /\ o2 + w2 <= byteLength dv).
Proof.
  intros H (H1 & H2 & H3 & H4).
  rewrite !in_range_intro in H by assumption. discriminate.
Qed.

(** Normalise [o + a + b] with literal [a], [b]. *)
Ltac fold_offsets := repeat (rewrite <- Z.add_assoc; simpl (_ + _)%Z).

End Closed.
Import Closed.

(** ** RawPCBParser: record layouts, the scan and the de-obfuscation *)

Module RawLayout.
Section WithGlobals.

Variable decode : list byte -> string.
Variable CryptoJS : option RawPCBParser.CryptoJS_library.
Variable PartDataParser : RawPCBParser.PartDataParser_global.

Local Abbreviation parse := (RawPCBParser.parse decode CryptoJS PartDataParser).
Local Abbreviation parseBlock := (RawPCBParser.parseBlock decode CryptoJS PartDataParser).
Local Abbreviation mainLoop := (RawPCBParser.mainLoop decode CryptoJS PartDataParser).
Local Abbreviation parseMainDataBlocks :=
  (RawPCBParser.parseMainDataBlocks decode CryptoJS PartDataParser).
Local Abbreviation parseType07 :=
  (RawPCBParser.parseType07 decode CryptoJS PartDataParser).
Local Abbreviation call_parse :=
  (RawPCBParser.call_PartDataParser_parse decode PartDataParser).

Lemma parseFileHeader_run (s : pstate RawPCBParser.fields) :
  0x44 <= byteLength (dataView s) ->
  RawPCBParser.parseFileHeader s
  = Return (tt, mkState (dataView s) 0x44
                  (RawPCBParser.mkFields (uint32_at (dataView s) 0x40))).
Proof.
  intros Hl. unfold RawPCBParser.parseFileHeader.
  do 4 (unfold bind at 1; rewrite ParseFacts.at_fixed_getUint32, in_range_intro by lia).
  reflexivity.
Qed.

(** X1. [parseFileHeader] needs the 0x44 header bytes and nothing else:
    on a view of at least 0x44 bytes it returns with the cursor at 0x44
    and [mainDataBlocksSize] set to the little-endian u32 at 0x40,
    wherever the cursor was before and whatever the words at 0x20, 0x24
    and 0x28 hold; on a shorter view it throws a RangeError.  The view is
    not changed. *)
Theorem file_header_layout (s : pstate RawPCBParser.fields) :
  RawPCBParser.parseFileHeader s =
  if 0x44 <=? byteLength (dataView s)
  then Return (tt, mkState (dataView s) 0x44
                     (RawPCBParser.mkFields (uint32_at (dataView s) 0x40)))
  else Throw RangeError.
Proof.
  destruct (Z.leb_spec 0x44 (byteLength (dataView s))) as [Hl|Hs].
  - apply parseFileHeader_run. exact Hl.
  - apply ParseFacts.parseFileHeader_short. exact Hs.
Qed.

(** X2. An ARC record is the 36 bytes after its tag: [parseType01]
    returns exactly when they lie inside the view, with the fields read
    at fixed positions ([layer], [x1], [y1] unsigned, the others signed)
    and the cursor 36 bytes further, whatever the block-size field says;
    otherwise it throws a RangeError. *)
Theorem arc_record_layout (s : pstate RawPCBParser.fields) :
  let dv := dataView s in
  let o := offset s in
  RawPCBParser.parseType01 s =
  if in_range dv o 36
  then Return (RawPCBParser.ARC (uint32_at dv (o + 4)) (uint32_at dv (o + 8))
                 (uint32_at dv (o + 12)) (ToInt32 (uint32_at dv (o + 16)))
                 (ToInt32 (uint32_at dv (o + 20))) (ToInt32 (uint32_at dv (o + 24)))
                 (ToInt32 (uint32_at dv (o + 28))) (ToInt32 (uint32_at dv (o + 32))),
               mkState dv (o + 36) (extra s))
  else Throw RangeError.
Proof.
  destruct s as [dv o x]. cbv zeta. flat.
  destruct (in_range dv o 36) eqn:E.
  - apply in_range_true in E. unfold RawPCBParser.parseType01. runM.
    fold_offsets. reflexivity.
  - apply in_range_false_inv in E. apply not_Return_Throw.
    + unfold RawPCBParser.parseType01. straight_total.
    + unfold RawPCBParser.parseType01. only_RangeError.
    + intros [b s'] H. unfold RawPCBParser.parseType01 in H. invM H. flat. apply E. lia.
Qed.

(** X3. A VIA record is 36 fixed bytes and then [via_text_length] bytes
    of text, the length being the u32 at +32: [parseType02] returns
    exactly when both lie inside the view, with the cursor right after
    the text; otherwise it throws a RangeError. *)
Theorem via_record_layout (s : pstate RawPCBParser.fields) :
  let dv := dataView s in
  let o := offset s in
  let viaTextLength := uint32_at dv (o + 32) in
  RawPCBParser.parseType02 decode s =
  if in_range dv o 36 && in_range dv (o + 36) viaTextLength
  then Return (RawPCBParser.VIA (ToInt32 (uint32_at dv (o + 4)))
                 (ToInt32 (uint32_at dv (o + 8))) (ToInt32 (uint32_at dv (o + 12)))
                 (ToInt32 (uint32_at dv (o + 16))) (uint32_at dv (o + 20))
                 (uint32_at dv (o + 24)) (uint32_at dv (o + 28))
                 (decode (elements (mkUint8Array dv (o + 36) viaTextLength))),
               mkState dv (o + 36 + viaTextLength) (extra s))
  else Throw RangeError.
Proof.
  destruct s as [dv o x]. cbv zeta. flat.
  pose proof (uint32_at_range dv (o + 32)) as Hr.
  destruct (in_range dv o 36 && in_range dv (o + 36) (uint32_at dv (o + 32))) eqn:E.
  - apply andb_prop in E. destruct E as [E1 E2].
    apply in_range_true in E1, E2.
    replace (o + 32) with (o + 4 + 4 + 4 + 4 + 4 + 4 + 4 + 4) in * by lia.
    unfold RawPCBParser.parseType02, RawPCBParser.readString. runM.
    fold_offsets. reflexivity.
  - apply andb_in_range in E.
    replace (o + 32) with (o + 4 + 4 + 4 + 4 + 4 + 4 + 4 + 4) in * by lia.
    apply not_Return_Throw.
    + unfold RawPCBParser.parseType02, RawPCBParser.readString. straight_total.
    + unfold RawPCBParser.parseType02, RawPCBParser.readString. only_RangeError.
    + intros [b s'] H. unfold RawPCBParser.parseType02, RawPCBParser.readString in H.
      invM H. flat. apply E. lia.
Qed.

(** X4. A SEGMENT record is the 32 bytes after its tag: [parseType05]
    returns exactly when they lie inside the view, with [layer] and
    [trace_net_index] unsigned, the coordinates and [scale] signed, and
    the cursor 32 bytes further; otherwise it throws a RangeError. *)
Theorem segment_record_layout (s : pstate RawPCBParser.fields) :
  let dv := dataView s in
  let o := offset s in
  RawPCBParser.parseType05 s =
  if in_range dv o 32
  then Return (RawPCBParser.SEGMENT (uint32_at dv (o + 4))
                 (ToInt32 (uint32_at dv (o + 8))) (ToInt32 (uint32_at dv (o + 12)))
                 (ToInt32 (uint32_at dv (o + 16))) (ToInt32 (uint32_at dv (o + 20)))
                 (ToInt32 (uint32_at dv (o + 24))) (uint32_at dv (o + 28)),
               mkState dv (o + 32) (extra s))
  else Throw RangeError.
Proof.
  destruct s as [dv o x]. cbv zeta. flat.
  destruct (in_range dv o 32) eqn:E.
  - apply in_range_true in E. unfold RawPCBParser.parseType05. runM.
    fold_offsets. reflexivity.
  - apply in_range_false_inv in E. apply not_Return_Throw.
    + unfold RawPCBParser.parseType05. straight_total.
    + unfold RawPCBParser.parseType05. only_RangeError.
    + intros [b s'] H. unfold RawPCBParser.parseType05 in H. invM H. flat. apply E. lia.
Qed.

(** X5. A TEXT record is 34 fixed bytes (six u32 after the block size,
    a u16 at +28, the text length at +30) and then the text:
    [parseType06] returns exactly when both lie inside the view, with the
    cursor right after the text; otherwise it throws a RangeError. *)
Theorem text_record_layout (s : pstate RawPCBParser.fields) :
  let dv := dataView s in
  let o := offset s in
  let textLength := uint32_at dv (o + 30) in
  RawPCBParser.parseType06 decode s =
  if in_range dv o 34 && in_range dv (o + 34) textLength
  then Return (RawPCBParser.TEXT (uint32_at dv (o + 4)) (uint32_at dv (o + 8))
                 (uint32_at dv (o + 12)) (uint32_at dv (o + 16))
                 (uint32_at dv (o + 20)) (uint32_at dv (o + 24))
                 (uint16_at dv (o + 28)) textLength
                 (decode (elements (mkUint8Array dv (o + 34) textLength))),
               mkState dv (o + 34 + textLength) (extra s))
  else Throw RangeError.
Proof.
  destruct s as [dv o x]. cbv zeta. flat.
  pose proof (uint32_at_range dv (o + 30)) as Hr.
  destruct (in_range dv o 34 && in_range dv (o + 34) (uint32_at dv (o + 30))) eqn:E.
  - apply andb_prop in E. destruct E as [E1 E2].
    apply in_range_true in E1, E2.
    replace (o + 30) with (o + 4 + 4 + 4 + 4 + 4 + 4 + 4 + 2) in * by lia.
    unfold RawPCBParser.parseType06, RawPCBParser.readString. runM.
    fold_offsets. reflexivity.
  - apply andb_in_range in E.
    replace (o + 30) with (o + 4 + 4 + 4 + 4 + 4 + 4 + 4 + 2) in * by lia.
    apply not_Return_Throw.
    + unfold RawPCBParser.parseType06, RawPCBParser.readString. straight_total.
    + unfold RawPCBParser.parseType06, RawPCBParser.readString. only_RangeError.
    + intros [b s'] H. unfold RawPCBParser.parseType06, RawPCBParser.readString in H.
      invM H. flat. apply E. lia.
Qed.

(** X6. A DATA block is returned exactly when its size field and the
    [block_size] bytes after it lie inside the view, whatever the cipher
    library and the payload parser do; otherwise [parseType07] throws a
    RangeError.  The cursor then stands right after the ciphertext, and
    [encrypted_data] has exactly [block_size] entries, each a byte
    value. *)
Theorem data_block_layout (s : pstate RawPCBParser.fields) :
  let dv := dataView s in
  let o := offset s in
  let blockSize := uint32_at dv o in
  let encryptedData := mkUint8Array dv (o + 4) blockSize in
  let decryptedData :=
    match RawPCBParser.decryptWithDES CryptoJS encryptedData with
    | Return d => d
    | _ => encryptedData
    end in
  if in_range dv o 4 && in_range dv (o + 4) blockSize
  then exists parsed,
      call_parse (buffer decryptedData) = Return parsed /\
      parseType07 s
      = Return (RawPCBParser.DATA blockSize (Array_from encryptedData)
                  (Array_from decryptedData) parsed,
                mkState dv (o + 4 + blockSize) (extra s)) /\
      Z.of_nat (List.length (Array_from encryptedData)) = blockSize /\
      Forall (fun v => 0 <= v < 256) (Array_from encryptedData)
  else parseType07 s = Throw RangeError.
Proof.
  destruct s as [dv o x]. cbv zeta. flat.
  pose proof (uint32_at_range dv o) as Hr.
  destruct (in_range dv o 4 && in_range dv (o + 4) (uint32_at dv o)) eqn:E.
  - apply andb_prop in E. destruct E as [E1 E2]. apply in_range_true in E1, E2.
    destruct (RawFacts.call_parse_Return decode PartDataParser
                (buffer match RawPCBParser.decryptWithDES CryptoJS
                                (mkUint8Array dv (o + 4) (uint32_at dv o)) with
                        | Return d => d
                        | _ => mkUint8Array dv (o + 4) (uint32_at dv o)
                        end)) as [parsed Hc].
    exists parsed. split; [exact Hc|]. split; [|split].
    + unfold RawPCBParser.parseType07. runM. cbv zeta. flat. rewrite Hc. reflexivity.
    + unfold Array_from, elements. cbn [buffer byteOffset u8length].
      rewrite length_map, length_firstn, length_skipn. unfold byteLength in *. lia.
    + unfold Array_from. apply Forall_map, Forall_forall. intros b _.
      apply byte_to_Z_range.
  - apply andb_in_range in E. apply not_Return_Throw.
    + apply RawFacts.parseType07_total.
    + apply RawFacts.only_parseType07.
    + intros [b s'] H. apply DataClaims.parseType07_Return in H. cbv zeta in H. flat.
      apply E. lia.
Qed.

(** The array that [wordArrayToU8] returns owns its buffer: offset 0,
    one buffer byte per element. *)
Lemma wordArrayToU8_Return wa d :
  RawPCBParser.wordArrayToU8 wa = Return d ->
  byteOffset d = 0 /\ u8length d = RawPCBParser.sigBytes wa /\
  byteLength (buffer d) = u8length d /\ elements d = buffer d.
Proof.
  unfold RawPCBParser.wordArrayToU8. cbv zeta.
  destruct (Z.ltb_spec (RawPCBParser.sigBytes wa) 0) as [|Hn]; [discriminate|].
  intros H. apply Return_inj in H. subst d. unfold elements, byteLength.
  cbn [buffer byteOffset u8length].
  rewrite length_map, length_seq. split; [reflexivity|]. split; [reflexivity|].
  split; [lia|].
  change (Z.to_nat 0) with 0%nat. rewrite skipn_O. apply firstn_all2.
  rewrite length_map, length_seq. lia.
Qed.

Lemma decryptWithDES_Return enc d :
  RawPCBParser.decryptWithDES CryptoJS enc = Return d ->
  byteOffset d = 0 /\ byteLength (buffer d) = u8length d /\ elements d = buffer d.
Proof.
  unfold RawPCBParser.decryptWithDES. destruct CryptoJS as [lib|]; [|discriminate].
  destruct (RawPCBParser.DES_decrypt lib _ _) as [wa|]; [|discriminate].
  intros H. apply wordArrayToU8_Return in H. tauto.
Qed.

(** X7. What the payload parser is given.  After a successful
    decryption it is the plaintext array's own buffer, which holds
    exactly the bytes reported as [decrypted_data].  After a failed
    decryption it is [encryptedData.buffer], the buffer of the whole
    file, so [parsed_data] is then the parse of the file from its first
    byte, not of the ciphertext. *)
Theorem payload_parser_input (s s' : pstate RawPCBParser.fields) blk :
  parseType07 s = Return (blk, s') ->
  let blockSize := uint32_at (dataView s) (offset s) in
  let encryptedData := mkUint8Array (dataView s) (offset s + 4) blockSize in
  match RawPCBParser.decryptWithDES CryptoJS encryptedData with
  | Return d =>
      byteOffset d = 0 /\ byteLength (buffer d) = u8length d /\
      exists parsed,
        call_parse (buffer d) = Return parsed /\
        blk = RawPCBParser.DATA blockSize (Array_from encryptedData)
                (map byte_to_Z (buffer d)) parsed
  | _ =>
      exists parsed,
        call_parse (dataView s) = Return parsed /\
        blk = RawPCBParser.DATA blockSize (Array_from encryptedData)
                (Array_from encryptedData) parsed
  end.
Proof.
  intros H. apply DataClaims.parseType07_Return in H. cbv zeta in *.
  destruct H as (_ & _ & _ & parsed & Hc & Hb).
  destruct (RawPCBParser.decryptWithDES CryptoJS _) as [d| |] eqn:E.
  - apply decryptWithDES_Return in E. destruct E as (E0 & El & Ee).
    split; [exact E0|]. split; [exact El|].
    exists parsed. split; [exact Hc|]. rewrite Hb. unfold Array_from at 2.
    rewrite Ee. reflexivity.
  - exists parsed. split; [exact Hc | exact Hb].
  - exists parsed. split; [exact Hc | exact Hb].
Qed.

(** A turn whose first four bytes are not all zero dispatches on the tag
    byte, from the position after it. *)
Lemma parseBlock_tagged (s : pstate RawPCBParser.fields) :
  0 <= offset s -> offset s + 4 <= byteLength (dataView s) ->
  uint32_at (dataView s) (offset s) <> 0 ->
  parseBlock s =
  (let blockType := byte_at (dataView s) (offset s) in
   if blockType =? 1 then b <- RawPCBParser.parseType01 ;; ret (Some b)
   else if blockType =? 2 then b <- RawPCBParser.parseType02 decode ;; ret (Some b)
   else if blockType =? 3 then b <- RawPCBParser.parseType03 ;; ret (Some b)
   else if blockType =? 4 then advance 1 ;;; ret None
   else if blockType =? 5 then b <- RawPCBParser.parseType05 ;; ret (Some b)
   else if blockType =? 6 then b <- RawPCBParser.parseType06 decode ;; ret (Some b)
   else if blockType =? 7 then b <- parseType07 ;; ret (Some b)
   else if blockType =? 8 then advance 1 ;;; ret None
   else if blockType =? 9 then b <- RawPCBParser.parseType09 ;; ret (Some b)
   else ret None)
    (mkState (dataView s) (offset s + 1) (extra s)).
Proof.
  intros H0 H4 Hp. unfold RawPCBParser.parseBlock.
  eapply bind_run; [apply at_offset_run, getUint32_run; lia|].
  destruct (Z.eqb_spec (uint32_at (dataView s) (offset s)) 0) as [|_]; [contradiction|].
  eapply bind_run; [apply u8_run; lia|].
  rewrite switch_block. reflexivity.
Qed.

(** X8. The turns of the scan that hand over no block, and how far each
    moves the cursor: four zero bytes are padding and are skipped
    together; a tag 0x04 or 0x08 takes its byte and one more; any other
    tag outside 0x01..0x09 (a zero byte followed by a non-zero one
    included) takes its byte only.  None of them throws when four bytes
    are left. *)
Theorem turns_without_block (s : pstate RawPCBParser.fields) :
  let dv := dataView s in
  let o := offset s in
  let tag := byte_at dv o in
  0 <= o -> o + 4 <= byteLength dv ->
  (uint32_at dv o = 0 ->
   parseBlock s = Return (None, mkState dv (o + 4) (extra s))) /\
  (uint32_at dv o <> 0 -> tag = 4 \/ tag = 8 ->
   parseBlock s = Return (None, mkState dv (o + 2) (extra s))) /\
  (uint32_at dv o <> 0 -> tag = 0 \/ 9 < tag ->
   parseBlock s = Return (None, mkState dv (o + 1) (extra s))).
Proof.
  cbv zeta. intros H0 H4. split; [|split].
  - intros Hz. unfold RawPCBParser.parseBlock.
    eapply bind_run; [apply at_offset_run, getUint32_run; lia|].
    rewrite Hz. reflexivity.
  - intros Hp Ht. rewrite parseBlock_tagged by assumption. cbv zeta.
    destruct Ht as [-> | ->]; cbn [Z.eqb Pos.eqb]; unfold bind, advance, ret; flat;
      fold_offsets; reflexivity.
  - intros Hp Ht. rewrite parseBlock_tagged by assumption. cbv zeta.
    repeat match goal with
           | |- context [?v =? ?k] => destruct (Z.eqb_spec v k); [lia|]
           end.
    reflexivity.
Qed.

Lemma uint32_at_tag dv o : byte_at dv o <> 0 -> uint32_at dv o <> 0.
Proof.
  intros H. unfold uint32_at.
  pose proof (byte_at_range dv o). pose proof (byte_at_range dv (o + 1)).
  pose proof (byte_at_range dv (o + 2)). pose proof (byte_at_range dv (o + 3)).
  change (2 ^ 8) with 256. change (2 ^ 16) with 65536.
  change (2 ^ 24) with 16777216. lia.
Qed.

(** A turn at a tag 0x03 or 0x09 adds the block size to the cursor
    without looking at the buffer. *)
Lemma skip_block_turn (s : pstate RawPCBParser.fields) :
  let dv := dataView s in
  let o := offset s in
  0 <= o -> o + 5 <= byteLength dv ->
  byte_at dv o = 3 \/ byte_at dv o = 9 ->
  parseBlock s
  = Return (Some RawPCBParser.EmptyObject,
            mkState dv (o + 5 + uint32_at dv (o + 1)) (extra s)).
Proof.
  cbv zeta. intros H0 H5 Ht.
  rewrite parseBlock_tagged; [|lia|lia|apply uint32_at_tag; lia]. cbv zeta.
  destruct Ht as [-> | ->]; cbn [Z.eqb Pos.eqb].
  - unfold RawPCBParser.parseType03. runM. flat.
    replace (offset s + 1 + 4 + uint32_at (dataView s) (offset s + 1))
      with (offset s + 5 + uint32_at (dataView s) (offset s + 1)) by lia.
    reflexivity.
  - unfold RawPCBParser.parseType09. runM. flat.
    replace (offset s + 1 + 4 + uint32_at (dataView s) (offset s + 1))
      with (offset s + 5 + uint32_at (dataView s) (offset s + 1)) by lia.
    reflexivity.
Qed.

(** X9. A skipped block (tag 0x03 or 0x09) whose size field points past
    the end of the buffer raises nothing: the cursor is moved past the
    end, the scan stops there and returns the placeholder object. *)
Theorem skip_block_past_end_ends_scan (s : pstate RawPCBParser.fields) :
  let dv := dataView s in
  let o := offset s in
  let blockSize := uint32_at dv (o + 1) in
  0 <= o -> o + 5 <= byteLength dv ->
  0 < RawPCBParser.mainDataBlocksSize (extra s) ->
  byte_at dv o = 3 \/ byte_at dv o = 9 ->
  byteLength dv <= o + 5 + blockSize ->
  parseMainDataBlocks s
  = Return ([RawPCBParser.EmptyObject], mkState dv (o + 5 + blockSize) (extra s)).
Proof.
  cbv zeta. intros H0 H5 Hb Ht Hpast.
  unfold RawPCBParser.parseMainDataBlocks. cbv zeta.
  destruct (List.length (dataView s)) as [|n] eqn:El;
    [unfold byteLength in H5; rewrite El in H5; simpl in H5; lia|].
  rewrite RawClaims.mainLoop_step by lia.
  rewrite skip_block_turn by assumption. cbv zeta.
  cbn [RawPCBParser.mainLoop RawPCBParser.push_if_truthy app]. flat.
  destruct (Z.ltb_spec (offset s + 5 + uint32_at (dataView s) (offset s + 1))
                       (byteLength (dataView s))) as [|_]; [lia|].
  rewrite andb_false_r. reflexivity.
Qed.

Lemma starts_with_u32 {X A} (f : Z -> M X A) (s : pstate X) r :
  bind u32 f s = Return r -> 0 <= offset s /\ offset s + 4 <= byteLength (dataView s).
Proof.
  intros H. apply bind_Return in H. destruct H as (v & s1 & Hv & _).
  apply u32_Return in Hv. lia.
Qed.

(** A turn that hands over a block has read its tag and its size field
    inside the buffer and has moved the cursor past them. *)
Lemma parseBlock_Some (s s' : pstate RawPCBParser.fields) b :
  parseBlock s = Return (Some b, s') ->
  dataView s' = dataView s /\ extra s' = extra s /\
  0 <= offset s /\ offset s + 5 <= byteLength (dataView s) /\
  offset s + 5 <= offset s'.
Proof.
  intros H.
  pose proof (RawFacts.parseBlock_moved _ _ _ _ _ _ H) as ((Hd & He & _) & H0 & H4).
  split; [exact Hd|]. split; [exact He|]. split; [exact H0|].
  destruct (Z.eq_dec (uint32_at (dataView s) (offset s)) 0) as [Hz|Hz].
  { unfold RawPCBParser.parseBlock in H.
    apply bind_Return in H. destruct H as (pad & s1 & Hp & H).
    apply at_offset_Return in Hp. destruct Hp as [-> Hp].
    apply getUint32_Return in Hp. destruct Hp as (-> & _ & _).
    rewrite Hz in H. cbn [Z.eqb] in H. invM H. discriminate. }
  rewrite parseBlock_tagged in H by assumption. cbv zeta in H.
  repeat match type of H with
         | (if ?c then _ else _) _ = _ => destruct c
         end;
    try (apply bind_Return in H; destruct H as (blk & s2 & Hb & H); invM H;
         first [ pose proof (starts_with_u32 _ _ _ Hb) as Hu;
                 first [ apply RawFacts.parseType01_moved in Hb
                       | apply RawFacts.parseType02_moved in Hb
                       | apply RawFacts.parseType03_moved in Hb; destruct Hb as [Hb _]
                       | apply RawFacts.parseType05_moved in Hb
                       | apply RawFacts.parseType06_moved in Hb
                       | apply RawFacts.parseType07_moved in Hb
                       | apply RawFacts.parseType09_moved in Hb; destruct Hb as [Hb _] ];
                 destruct Hb as (_ & _ & Ho); flat; lia
               | discriminate ]);
    invM H; discriminate.
Qed.

(** The scan leaves the view and the fields alone, never moves the
    cursor backwards, and pays at least five bytes of the buffer for
    each block it appends. *)
Lemma mainLoop_invariants fuel endOffset : forall blocks s out s',
  mainLoop fuel endOffset blocks s = Return (out, s') ->
  dataView s' = dataView s /\ extra s' = extra s /\ offset s <= offset s' /\
  5 * (Z.of_nat (List.length out) - Z.of_nat (List.length blocks))
  <= Z.max 0 (byteLength (dataView s) - offset s).
Proof.
  induction fuel as [|fuel IH]; intros blocks s out s' H; [discriminate|].
  cbn [RawPCBParser.mainLoop] in H.
  destruct (_ && _).
  - destruct (endOffset <=? offset s).
    + injection H as <- <-. repeat split; lia.
    + destruct (parseBlock s) as [[[b|] s1]| |] eqn:E; try discriminate.
      * apply parseBlock_Some in E. destruct E as (Hd & He & H0 & H5 & Ho).
        apply IH in H. destruct H as (Hd' & He' & Ho' & Hn).
        cbn [RawPCBParser.push_if_truthy] in Hn. rewrite length_app in Hn.
        cbn [List.length] in Hn. rewrite Hd', He', Hd, He. rewrite Hd in Hn.
        repeat split; lia.
      * apply RawFacts.parseBlock_moved in E. destruct E as ((Hd & He & Ho) & H0 & H4).
        apply IH in H. destruct H as (Hd' & He' & Ho' & Hn).
        cbn [RawPCBParser.push_if_truthy] in Hn. rewrite Hd', He', Hd, He.
        rewrite Hd in Hn. repeat split; lia.
  - injection H as <- <-. repeat split; lia.
Qed.

(** X10. [parseMainDataBlocks] writes nothing: when it returns, the view
    and [mainDataBlocksSize] are what they were, the cursor has not moved
    backwards, and it stands at or past the end of the budget or of the
    buffer. *)
Theorem scan_writes_nothing (s s' : pstate RawPCBParser.fields) blocks :
  parseMainDataBlocks s = Return (blocks, s') ->
  dataView s' = dataView s /\ extra s' = extra s /\ offset s <= offset s' /\
  (offset s + RawPCBParser.mainDataBlocksSize (extra s) <= offset s' \/
   byteLength (dataView s) <= offset s').
Proof.
  unfold RawPCBParser.parseMainDataBlocks. cbv zeta. intros H.
  pose proof (mainLoop_invariants _ _ _ _ _ _ H) as (Hd & He & Ho & _).
  apply RawFacts.mainLoop_stops_at_end in H. rewrite Hd in H.
  repeat split; assumption.
Qed.

(** X11. Every entry of [main_data_block] costs at least five bytes of
    the file after the 0x44-byte header (a tag and a size field): a
    result never has more than [(byteLength - 0x44) / 5] entries. *)
Theorem block_count_bounded_by_bytes (arrayBuffer : list byte) r :
  parse arrayBuffer = Return r ->
  0x44 <= byteLength arrayBuffer /\
  5 * Z.of_nat (List.length (RawPCBParser.main_data_block r))
  <= byteLength arrayBuffer - 0x44.
Proof.
  intros H.
  destruct (Z.lt_ge_cases (byteLength arrayBuffer) 0x44) as [Hs|Hl].
  { rewrite ParseFacts.raw_parse_short in H by exact Hs. discriminate. }
  split; [exact Hl|].
  destruct (ParseFacts.xorDecrypt_run
              (mkState arrayBuffer 0 (RawPCBParser.mkFields 0)) ltac:(flat; lia))
    as (dv & Ht & Hlen). flat.
  unfold RawPCBParser.parse in H. cbv zeta in H.
  rewrite (bind_run _ _ _ _ _ _ Ht eq_refl) in H.
  unfold bind in H. rewrite parseFileHeader_run in H by (flat; lia).
  unfold RawPCBParser.parseMainDataBlocks in H. cbv zeta in H.
  destruct (mainLoop _ _ _ _) as [[blocks s']| |] eqn:E; try discriminate.
  injection H as <-. cbn [RawPCBParser.main_data_block].
  apply mainLoop_invariants in E. flat. cbn [List.length] in E. lia.
Qed.

(** X12. A file with an empty budget has no blocks: when
    [mainDataBlocksSize], read at 0x40 after the de-obfuscation, is zero,
    or when the file ends with its 0x44-byte header, [parse] returns an
    empty [main_data_block], whatever follows the header. *)
Theorem no_budget_no_blocks (arrayBuffer : list byte) (s1 : pstate RawPCBParser.fields) :
  0x44 <= byteLength arrayBuffer ->
  RawPCBParser.xorDecrypt (mkState arrayBuffer 0 (RawPCBParser.mkFields 0))
  = Return (tt, s1) ->
  uint32_at (dataView s1) 0x40 = 0 \/ byteLength arrayBuffer = 0x44 ->
  parse arrayBuffer = Return (RawPCBParser.mkParseResult []).
Proof.
  intros Hl Hx Hz.
  destruct (ParseFacts.xorDecrypt_run
              (mkState arrayBuffer 0 (RawPCBParser.mkFields 0)) ltac:(flat; lia))
    as (dv & Ht & Hlen). flat.
  rewrite Ht in Hx. apply Return_inj in Hx. injection Hx as <-. flat.
  unfold RawPCBParser.parse. cbv zeta.
  rewrite (bind_run _ _ _ _ _ _ Ht eq_refl).
  unfold bind. rewrite parseFileHeader_run by (flat; lia).
  unfold RawPCBParser.parseMainDataBlocks. cbv zeta. flat.
  cbn [RawPCBParser.mainLoop RawPCBParser.mainDataBlocksSize]. flat.
  destruct Hz as [Hz|Hz].
  - rewrite Hz. destruct (Z.ltb_spec 68 (68 + 0)) as [|_]; [lia|]. reflexivity.
  - destruct (Z.ltb_spec 68 (byteLength dv)) as [|_]; [lia|].
    rewrite andb_false_r. reflexivity.
Qed.

(** What the de-obfuscation step leaves in the buffer. *)
Lemma xorDecrypt_result dv o (x : RawPCBParser.fields) :
  0x10 < byteLength dv ->
  RawPCBParser.xorDecrypt (mkState dv o x)
  = Return (tt, mkState (if byte_at dv 0x10 =? 0 then dv
                         else map (RawPCBParser.xor_byte (byte_at dv 0x10)) dv) o x).
Proof.
  intros H. unfold RawPCBParser.xorDecrypt.
  assert (Hk : RawPCBParser.at_fixed getUint8 0x10 (mkState dv o x)
               = Return (byte_at dv 0x10, mkState dv o x)).
  { unfold RawPCBParser.at_fixed. flat. rewrite getUint8_run by lia. reflexivity. }
  unfold bind at 1. rewrite Hk.
  destruct (byte_at dv 0x10 =? 0); cbn [negb]; [reflexivity|].
  unfold bind at 1. flat. rewrite Hk. rewrite xoredDataLength_whole.
  rewrite xorLoop_prefix by lia. unfold byteLength. rewrite Nat2Z.id.
  rewrite firstn_all, skipn_all, app_nil_r. reflexivity.
Qed.

Lemma byte_at_map_xor k dv i :
  0 <= k < 256 -> 0 <= i < byteLength dv ->
  byte_at (map (RawPCBParser.xor_byte k) dv) i = Z.lxor (byte_at dv i) k.
Proof.
  intros Hk Hi. unfold byte_at. rewrite nth_error_map.
  destruct (nth_error dv (Z.to_nat i)) as [b|] eqn:E.
  - cbn [option_map]. unfold RawPCBParser.xor_byte.
    pose proof (byte_to_Z_range b) as Hb.
    rewrite js_xor_bytes by assumption.
    apply byte_to_of_Z. apply lxor_byte_range; assumption.
  - apply nth_error_None in E. unfold byteLength in Hi. lia.
Qed.

(** The buffer that the de-obfuscation leaves has a zero key byte. *)
Lemma xorDecrypt_key_byte dv :
  0x10 < byteLength dv ->
  let dv' := if byte_at dv 0x10 =? 0 then dv
             else map (RawPCBParser.xor_byte (byte_at dv 0x10)) dv in
  byteLength dv' = byteLength dv /\ byte_at dv' 0x10 = 0.
Proof.
  intros H dv'. subst dv'. pose proof (byte_at_range dv 0x10) as Hk.
  destruct (Z.eqb_spec (byte_at dv 0x10) 0) as [Hz|Hz].
  - split; [reflexivity | exact Hz].
  - split.
    + unfold byteLength. rewrite length_map. reflexivity.
    + rewrite byte_at_map_xor by lia. apply Z.lxor_nilpotent.
Qed.

(** X13. The de-obfuscation step of [parse].  On a buffer that has a
    byte 0x10 it leaves the cursor, the fields and the length alone; a
    zero key byte means the buffer is not touched at all; in every case
    the byte at 0x10 is zero afterwards (the key is XORed with itself),
    so running the step again changes nothing. *)
Theorem deobfuscation_clears_key_byte (s : pstate RawPCBParser.fields) :
  0x10 < byteLength (dataView s) ->
  exists s',
    RawPCBParser.xorDecrypt s = Return (tt, s') /\
    offset s' = offset s /\ extra s' = extra s /\
    byteLength (dataView s') = byteLength (dataView s) /\
    byte_at (dataView s') 0x10 = 0 /\
    (byte_at (dataView s) 0x10 = 0 -> s' = s) /\
    RawPCBParser.xorDecrypt s' = Return (tt, s').
Proof.
  destruct s as [dv o x]. flat. intros H.
  pose proof (xorDecrypt_key_byte dv H) as [Hl Hb]. cbv zeta in Hl, Hb.
  eexists. split; [apply xorDecrypt_result; exact H|]. flat.
  split; [reflexivity|]. split; [reflexivity|]. split; [exact Hl|].
  split; [exact Hb|]. split.
  - intros Hz. rewrite Hz. reflexivity.
  - rewrite xorDecrypt_result by lia. rewrite Hb. reflexivity.
Qed.

(** X14. [parse] de-obfuscates the caller's ArrayBuffer in place, and
    parsing the buffer it leaves behind gives the same outcome again:
    the second call finds a zero key byte and reads the same bytes. *)
Theorem parse_again_same_result
    (arrayBuffer : list byte) (s' : pstate RawPCBParser.fields) :
  RawPCBParser.xorDecrypt (mkState arrayBuffer 0 (RawPCBParser.mkFields 0))
  = Return (tt, s') ->
  parse (dataView s') = parse arrayBuffer.
Proof.
  intros H.
  destruct (Z.le_gt_cases (byteLength arrayBuffer) 0x10) as [Hs|Hl].
  { rewrite ParseFacts.xorDecrypt_short in H by exact Hs. discriminate. }
  pose proof (xorDecrypt_key_byte arrayBuffer Hl) as [Hlen Hb]. cbv zeta in Hlen, Hb.
  pose proof H as Hfirst.
  rewrite xorDecrypt_result in H by exact Hl.
  apply Return_inj in H. injection H as <-. flat.
  unfold RawPCBParser.parse. cbv zeta.
  rewrite (bind_run _ _ _ _ _ _ Hfirst eq_refl).
  match goal with
  | |- match bind _ _ (mkState ?d _ _) with _ => _ end = _ =>
      pose proof (xorDecrypt_result d 0 (RawPCBParser.mkFields 0) ltac:(lia)) as Hagain
  end.
  rewrite Hb in Hagain. cbn [Z.eqb] in Hagain.
  rewrite (bind_run _ _ _ _ _ _ Hagain eq_refl). reflexivity.
Qed.

End WithGlobals.

Import Samples.

Local Abbreviation two_args := RawPCBParser.PartDataParser_two_args.

Lemma payload_parser_input_witness :
  exists parsed,
    RawPCBParser.call_PartDataParser_parse ascii_decode two_args unaligned_data_file
    = Return parsed /\
    parsed = Some (mkPartResult (mkHeader 0 0 0 (Some 0) 0 0 String.EmptyString) []).
Proof.
  pose proof (payload_parser_input ascii_decode None two_args
                (mkState unaligned_data_file 0x45 (RawPCBParser.mkFields 31))
                (mkState unaligned_data_file 99 (RawPCBParser.mkFields 31))
                (RawPCBParser.DATA 26 (part_header 22) (part_header 22)
                   (Some (mkPartResult (mkHeader 0 0 0 (Some 0) 0 0 String.EmptyString) []))))
    as H.
  assert (H1 : RawPCBParser.parseType07 ascii_decode None two_args
                 (mkState unaligned_data_file 0x45 (RawPCBParser.mkFields 31))
               = Return (RawPCBParser.DATA 26 (part_header 22) (part_header 22)
                           (Some (mkPartResult
                                    (mkHeader 0 0 0 (Some 0) 0 0 String.EmptyString) [])),
                         mkState unaligned_data_file 99 (RawPCBParser.mkFields 31)))
    by (vm_compute; reflexivity).
  specialize (H H1). cbv zeta in H. cbn [RawPCBParser.decryptWithDES] in H.
  destruct H as (parsed & Hc & Hb). exists parsed. split; [exact Hc|].
  congruence.
Defined.

Lemma turns_without_block_witness :
  RawPCBParser.parseBlock ascii_decode None two_args
    (mkState skips_then_via 78 (RawPCBParser.mkFields 51))
  = Return (None, mkState skips_then_via 80 (RawPCBParser.mkFields 51)).
Proof.
  refine (proj1 (proj2 (turns_without_block ascii_decode None two_args
                          (mkState skips_then_via 78 (RawPCBParser.mkFields 51)) _ _))
            _ _).
  - vm_compute. discriminate.
  - vm_compute. discriminate.
  - vm_compute. discriminate.
  - left. vm_compute. reflexivity.
Defined.

Lemma skip_block_past_end_ends_scan_witness :
  RawPCBParser.parseMainDataBlocks ascii_decode None two_args
    (mkState skip_past_end_file 0x44 (RawPCBParser.mkFields 5))
  = Return ([RawPCBParser.EmptyObject],
            mkState skip_past_end_file 173 (RawPCBParser.mkFields 5)).
Proof.
  refine (skip_block_past_end_ends_scan ascii_decode None two_args
            (mkState skip_past_end_file 0x44 (RawPCBParser.mkFields 5)) _ _ _ _ _).
  - vm_compute. discriminate.
  - vm_compute. discriminate.
  - vm_compute. reflexivity.
  - left. vm_compute. reflexivity.
  - vm_compute. discriminate.
Defined.

Lemma scan_writes_nothing_witness :
  dataView (mkState via_file 105 (RawPCBParser.mkFields 13)) = via_file /\
  0x44 <= 105.
Proof.
  pose proof (scan_writes_nothing ascii_decode None two_args
                (mkState via_file 0x44 (RawPCBParser.mkFields 13))
                (mkState via_file 105 (RawPCBParser.mkFields 13))
                [RawPCBParser.VIA 100 200 50 20 1 3 7 String.EmptyString]) as H.
  assert (H1 : RawPCBParser.parseMainDataBlocks ascii_decode None two_args
                 (mkState via_file 0x44 (RawPCBParser.mkFields 13))
               = Return ([RawPCBParser.VIA 100 200 50 20 1 3 7 String.EmptyString],
                         mkState via_file 105 (RawPCBParser.mkFields 13)))
    by (vm_compute; reflexivity).
  destruct (H H1) as (Hd & _ & Ho & _). split; [exact Hd | exact Ho].
Defined.

Lemma block_count_bounded_by_bytes_witness :
  0x44 <= byteLength via_file /\
  5 * Z.of_nat (List.length [RawPCBParser.VIA 100 200 50 20 1 3 7 String.EmptyString])
  <= byteLength via_file - 0x44.
Proof.
  refine (block_count_bounded_by_bytes ascii_decode None two_args via_file
            (RawPCBParser.mkParseResult
               [RawPCBParser.VIA 100 200 50 20 1 3 7 String.EmptyString]) _).
  vm_compute. reflexivity.
Defined.

Lemma no_budget_no_blocks_witness :
  RawPCBParser.parse ascii_decode None two_args header_only_file
  = Return (RawPCBParser.mkParseResult []).
Proof.
  refine (no_budget_no_blocks ascii_decode None two_args header_only_file
            (mkState (map (RawPCBParser.xor_byte 0x55) header_only_file) 0
                     (RawPCBParser.mkFields 0)) _ _ _).
  - vm_compute. discriminate.
  - vm_compute. reflexivity.
  - right. vm_compute. reflexivity.
Defined.

Lemma deobfuscation_clears_key_byte_witness :
  exists s',
    RawPCBParser.xorDecrypt (mkState obfuscated_with_marker 0 (RawPCBParser.mkFields 0))
    = Return (tt, s') /\
    byte_at (dataView s') 0x10 = 0 /\
    RawPCBParser.xorDecrypt s' = Return (tt, s').
Proof.
  destruct (deobfuscation_clears_key_byte
              (mkState obfuscated_with_marker 0 (RawPCBParser.mkFields 0)))
    as (s' & H1 & _ & _ & _ & H2 & _ & H3).
  - vm_compute. reflexivity.
  - exists s'. split; [exact H1|]. split; [exact H2 | exact H3].
Defined.

Lemma parse_again_same_result_witness :
  RawPCBParser.parse ascii_decode None two_args
    (map (RawPCBParser.xor_byte 0x55) obfuscated_with_marker)
  = RawPCBParser.parse ascii_decode None two_args obfuscated_with_marker.
Proof.
  refine (parse_again_same_result ascii_decode None two_args obfuscated_with_marker
            (mkState (map (RawPCBParser.xor_byte 0x55) obfuscated_with_marker) 0
                     (RawPCBParser.mkFields 0)) _).
  vm_compute. reflexivity.
Defined.

End RawLayout.

(** ** The word-array helpers of decryptWithDES and the key *)

Module WordArrays.

Lemma ToInt32_mod z : ToInt32 z mod 2 ^ 32 = z mod 2 ^ 32.
Proof.
  unfold ToInt32. rewrite Zminus_mod_idemp_l. f_equal. lia.
Qed.

Lemma lor_mod a b : Z.lor a b mod 2 ^ 32 = Z.lor (a mod 2 ^ 32) (b mod 2 ^ 32).
Proof. rewrite <- !Z.land_ones by lia. apply Z.land_lor_distr_l. Qed.

Lemma js_or_mod a b : js_or a b mod 2 ^ 32 = Z.lor (a mod 2 ^ 32) (b mod 2 ^ 32).
Proof. unfold js_or. rewrite ToInt32_mod, lor_mod, !ToInt32_mod. reflexivity. Qed.

(** The shift amounts of the two helpers: 24, 16, 8, 0. *)
Lemma shift_amount i :
  let sh := 24 - (i mod 4) * 8 in
  0 <= sh <= 24 /\ ToUint32 sh mod 32 = sh.
Proof.
  cbv zeta. pose proof (Z.mod_pos_bound i 4 ltac:(lia)) as H.
  split; [lia|]. unfold ToUint32.
  change (2 ^ 32) with 4294967296.
  rewrite (Z.mod_small (24 - i mod 4 * 8) 4294967296) by lia. apply Z.mod_small. lia.
Qed.

Lemma js_shl_byte b sh :
  0 <= b < 256 -> 0 <= sh <= 24 -> ToUint32 sh mod 32 = sh ->
  js_shl b sh mod 2 ^ 32 = b * 2 ^ sh.
Proof.
  intros Hb Hs He. unfold js_shl. rewrite He, ToInt32_mod.
  rewrite ToInt32_small by (change (2 ^ 31) with 2147483648; lia).
  rewrite Z.shiftl_mul_pow2 by lia.
  apply Z.mod_small.
  assert (2 ^ sh <= 2 ^ 24) by (apply Z.pow_le_mono_r; lia).
  assert (0 < 2 ^ sh) by (apply Z.pow_pos_nonneg; lia).
  change (2 ^ 24) with 16777216 in *. change (2 ^ 32) with 4294967296. nia.
Qed.

Lemma ToInt32_mod_256 y : ToInt32 y mod 256 = y mod 256.
Proof.
  rewrite <- (Z.mod_mod_divide (ToInt32 y) (2 ^ 32) 256) by (exists (2 ^ 24); reflexivity).
  rewrite ToInt32_mod.
  apply Z.mod_mod_divide. exists (2 ^ 24). reflexivity.
Qed.

(** [(w >>> sh) & 0xff] is the byte of the unsigned word at bit [sh]. *)
Lemma js_and_shr_byte w sh :
  0 <= sh <= 24 -> ToUint32 sh mod 32 = sh ->
  js_and (js_shr_u w sh) 0xff = Z.shiftr (w mod 2 ^ 32) sh mod 256.
Proof.
  intros Hs He. unfold js_and, js_shr_u. rewrite He. unfold ToUint32.
  rewrite (ToInt32_small 255) by (change (2 ^ 31) with 2147483648; lia).
  change 255 with (Z.ones 8). rewrite Z.land_ones by lia.
  change (2 ^ 8) with 256. rewrite ToInt32_mod_256.
  apply ToInt32_small.
  pose proof (Z.mod_pos_bound (Z.shiftr (w mod 2 ^ 32) sh) 256 ltac:(lia)).
  change (2 ^ 31) with 2147483648. lia.
Qed.

Lemma testbit_byte_high b v : 0 <= b < 256 -> 8 <= v -> Z.testbit b v = false.
Proof.
  intros Hb Hv. destruct (Z.eq_dec b 0) as [->|Hn]; [apply Z.testbit_0_l|].
  apply Z.bits_above_log2; [lia|].
  assert (Z.log2 b < 8) by (apply Z.log2_lt_pow2; [lia | change (2 ^ 8) with 256; lia]).
  lia.
Qed.

(** OR-ing a byte into one lane of a word sets that lane and leaves the
    others as they were. *)
Lemma lor_lane a b sh sh' :
  0 <= b < 256 -> 0 <= sh -> 0 <= sh' ->
  sh = sh' \/ sh + 8 <= sh' \/ sh' + 8 <= sh ->
  Z.shiftr (Z.lor a (b * 2 ^ sh)) sh' mod 256
  = Z.lor (Z.shiftr a sh' mod 256) (if sh =? sh' then b else 0).
Proof.
  intros Hb Hs Hs' Hd. apply Z.bits_inj'. intros t Ht.
  change 256 with (2 ^ 8).
  rewrite Z.lor_spec, !Z.testbit_mod_pow2 by lia.
  rewrite !Z.shiftr_spec by lia. rewrite Z.lor_spec, Z.mul_pow2_bits by lia.
  destruct (Z.ltb_spec t 8) as [Hlt|Hge]; cbn [andb].
  - f_equal. destruct (Z.eqb_spec sh sh') as [->|Hne].
    + f_equal. lia.
    + rewrite Z.testbit_0_l.
      destruct (Z.lt_ge_cases (t + sh' - sh) 0) as [Hneg|Hpos].
      * apply Z.testbit_neg_r. exact Hneg.
      * apply testbit_byte_high; [exact Hb | lia].
  - destruct (sh =? sh').
    + symmetry. apply testbit_byte_high; assumption.
    + symmetry. apply Z.testbit_0_l.
Qed.

Lemma length_word_set ws k v :
  (k <= List.length ws)%nat ->
  List.length (RawPCBParser.word_set ws k v)
  = if (k <? List.length ws)%nat then List.length ws else S (List.length ws).
Proof.
  revert k. induction ws as [|h t IH]; intros k Hk.
  - reflexivity.
  - destruct k as [|k]; [reflexivity|]. cbn [RawPCBParser.word_set List.length] in *.
    rewrite IH by lia. change (S k <? S (List.length t))%nat with (k <? List.length t)%nat.
    destruct (k <? List.length t)%nat; reflexivity.
Qed.

Lemma nth_word_set ws k v k' :
  (k <= List.length ws)%nat ->
  nth k' (RawPCBParser.word_set ws k v) 0 = if (k' =? k)%nat then v else nth k' ws 0.
Proof.
  revert k k'. induction ws as [|h t IH]; intros k k' Hk.
  - simpl in Hk. assert (k = 0%nat) by lia. subst k.
    destruct k' as [|[|k']]; reflexivity.
  - destruct k as [|k]; destruct k' as [|k']; try reflexivity.
    cbn [RawPCBParser.word_set nth List.length] in *. rewrite IH by lia. reflexivity.
Qed.

(** Byte [j] as read back from the words: lane [j mod 4] of word
    [j / 4], the first byte in the high lane. *)
Local Abbreviation cellZ ws j :=
  (Z.shiftr (RawPCBParser.word_or_0 ws (j / 4) mod 2 ^ 32) (24 - (j mod 4) * 8) mod 256).

Lemma js_shr_u_2 i : 0 <= i < 2 ^ 32 -> js_shr_u i 2 = i / 4.
Proof.
  intros H. unfold js_shr_u, ToUint32. rewrite (Z.mod_small i) by exact H.
  change (2 mod 2 ^ 32 mod 32) with 2. rewrite Z.shiftr_div_pow2 by lia. reflexivity.
Qed.

(** The words built from the bytes hold byte [j] in lane [j mod 4] of
    word [j / 4], and zero in the lanes not yet written. *)
Lemma u8ToWords_cells (f : Z -> Z) : forall rest i ws,
  0 <= i -> i + Z.of_nat (List.length rest) <= 2 ^ 32 ->
  List.length ws = Z.to_nat ((i + 3) / 4) ->
  (forall j, 0 <= j -> cellZ ws j = if j <? i then f j else 0) ->
  (forall t, (t < List.length rest)%nat ->
             byte_to_Z (nth t rest Byte.x00) = f (i + Z.of_nat t)) ->
  forall j, 0 <= j ->
    cellZ (RawPCBParser.u8ToWords rest i ws) j
    = if j <? i + Z.of_nat (List.length rest) then f j else 0.
Proof.
  induction rest as [|b rest IH]; intros i ws Hi Hn Hlen Hcells Hf j Hj.
  - cbn [RawPCBParser.u8ToWords List.length]. rewrite Z.add_0_r. apply Hcells. exact Hj.
  - cbn [RawPCBParser.u8ToWords]. cbv zeta. cbn [List.length] in Hn.
    assert (Hi32 : 0 <= i < 2 ^ 32) by lia.
    rewrite js_shr_u_2 by exact Hi32.
    pose proof (shift_amount i) as [Hsh Hshe]. cbv zeta in Hsh, Hshe.
    pose proof (Z.mod_pos_bound i 4 ltac:(lia)) as Hmi.
    pose proof (Z.div_mod i 4 ltac:(lia)) as Hdi.
    assert (Hk : (Z.to_nat (i / 4) <= List.length ws)%nat).
    { rewrite Hlen. apply Z2Nat.inj_le; [apply Z.div_pos; lia | apply Z.div_pos; lia|].
      apply Z.div_le_mono; lia. }
    replace (i + Z.of_nat (List.length (b :: rest)))
      with (i + 1 + Z.of_nat (List.length rest)) by (cbn [List.length]; lia).
    apply IH; try lia.
    + rewrite length_word_set by exact Hk. rewrite Hlen.
      destruct (Nat.ltb_spec (Z.to_nat (i / 4)) (Z.to_nat ((i + 3) / 4))) as [Hlt|Hge].
      * assert ((i + 3) / 4 = (i + 1 + 3) / 4); [|congruence].
        assert (i / 4 < (i + 3) / 4) by lia.
        pose proof (Z.div_mod (i + 3) 4 ltac:(lia)).
        pose proof (Z.mod_pos_bound (i + 3) 4 ltac:(lia)).
        pose proof (Z.div_mod (i + 1 + 3) 4 ltac:(lia)).
        pose proof (Z.mod_pos_bound (i + 1 + 3) 4 ltac:(lia)). lia.
      * assert (0 <= i / 4) by (apply Z.div_pos; lia).
        assert (0 <= (i + 3) / 4) by (apply Z.div_pos; lia).
        assert ((i + 3) / 4 <= i / 4) by lia.
        pose proof (Z.div_mod (i + 3) 4 ltac:(lia)).
        pose proof (Z.mod_pos_bound (i + 3) 4 ltac:(lia)).
        pose proof (Z.div_mod (i + 1 + 3) 4 ltac:(lia)).
        pose proof (Z.mod_pos_bound (i + 1 + 3) 4 ltac:(lia)).
        assert ((i + 1 + 3) / 4 = (i + 3) / 4 + 1) by lia. lia.
    + intros j' Hj'.
      pose proof (Z.mod_pos_bound j' 4 ltac:(lia)) as Hmj.
      pose proof (Z.div_mod j' 4 ltac:(lia)) as Hdj.
      assert (0 <= j' / 4) by (apply Z.div_pos; lia).
      assert (0 <= i / 4) by (apply Z.div_pos; lia).
      unfold RawPCBParser.word_or_0 at 1. rewrite nth_word_set by exact Hk.
      destruct (Nat.eqb_spec (Z.to_nat (j' / 4)) (Z.to_nat (i / 4))) as [He|Hne].
      * assert (Hje : j' / 4 = i / 4) by lia.
        rewrite js_or_mod, js_shl_byte by (try apply byte_to_Z_range; assumption).
        rewrite lor_lane by (try apply byte_to_Z_range; lia).
        specialize (Hcells j' Hj'). rewrite Hje in Hcells. rewrite Hcells.
        destruct (Z.eqb_spec (24 - i mod 4 * 8) (24 - j' mod 4 * 8)) as [Hs|Hs].
        -- assert (j' = i) by lia. subst j'.
           destruct (Z.ltb_spec i i); [lia|]. destruct (Z.ltb_spec i (i + 1)); [|lia].
           specialize (Hf 0%nat ltac:(cbn [List.length]; lia)). cbn [nth] in Hf.
           rewrite Z.add_0_r in Hf. rewrite Hf. apply Z.lor_0_l.
        -- rewrite Z.lor_0_r.
           destruct (Z.ltb_spec j' i), (Z.ltb_spec j' (i + 1)); try lia; try reflexivity.
      * fold (RawPCBParser.word_or_0 ws (j' / 4)). rewrite Hcells by exact Hj'.
        destruct (Z.ltb_spec j' i), (Z.ltb_spec j' (i + 1)); try lia; try reflexivity.
    + intros t Ht. specialize (Hf (S t) ltac:(cbn [List.length]; lia)).
      cbn [nth] in Hf. rewrite Hf. f_equal. lia.
Qed.

Lemma map_seq_nth {A} (f : nat -> A) (d : A) : forall (l : list A) (a : nat),
  (forall n, (n < List.length l)%nat -> f (a + n)%nat = nth n l d) ->
  map f (seq a (List.length l)) = l.
Proof.
  induction l as [|x l IH]; intros a H; [reflexivity|].
  cbn [List.length seq map]. f_equal.
  - specialize (H 0%nat ltac:(cbn [List.length]; lia)). rewrite Nat.add_0_r in H. exact H.
  - apply IH. intros n Hn. specialize (H (S n) ltac:(cbn [List.length]; lia)).
    cbn [nth] in H. rewrite <- H. f_equal. lia.
Qed.

(** X15. The two helpers of [decryptWithDES] are inverse to each other:
    packing a byte array of at most 2^32 bytes into big-endian words
    ([u8ToWordArray]) and unpacking it ([wordArrayToU8]) gives the array
    back, in a fresh buffer; and when the word array's [sigBytes] has
    been lowered (as the cipher library does to drop padding), the
    unpacked array is the first [sigBytes] bytes. *)
Theorem word_array_round_trip (u8 : list byte) :
  byteLength u8 <= 2 ^ 32 ->
  RawPCBParser.wordArrayToU8 (RawPCBParser.u8ToWordArray u8)
  = Return (mkUint8Array u8 0 (byteLength u8)) /\
  (forall sigBytes, 0 <= sigBytes <= byteLength u8 ->
     RawPCBParser.wordArrayToU8
       (RawPCBParser.mkWordArray (RawPCBParser.words (RawPCBParser.u8ToWordArray u8))
                                 sigBytes)
     = Return (mkUint8Array (firstn (Z.to_nat sigBytes) u8) 0 sigBytes)).
Proof.
  intros Hlen.
  assert (Hcut : forall sigBytes, 0 <= sigBytes <= byteLength u8 ->
     RawPCBParser.wordArrayToU8
       (RawPCBParser.mkWordArray (RawPCBParser.words (RawPCBParser.u8ToWordArray u8))
                                 sigBytes)
     = Return (mkUint8Array (firstn (Z.to_nat sigBytes) u8) 0 sigBytes)).
  { intros n Hn. unfold RawPCBParser.wordArrayToU8, RawPCBParser.u8ToWordArray.
    cbn [RawPCBParser.sigBytes RawPCBParser.words]. cbv zeta.
    destruct (Z.ltb_spec n 0) as [Hneg|_]; [lia|].
    do 2 f_equal. unfold byteLength, byte in *.
    assert (Hl : List.length (firstn (Z.to_nat n) u8) = Z.to_nat n)
      by (rewrite length_firstn; lia).
    rewrite <- Hl at 1.
    apply map_seq_nth with (d := Byte.x00). rewrite Hl. intros k Hk. cbn [Nat.add].
    assert (Hk32 : 0 <= Z.of_nat k < 2 ^ 32) by lia.
    rewrite (js_shr_u_2 (Z.of_nat k)) by exact Hk32.
    pose proof (shift_amount (Z.of_nat k)) as [Hsh Hshe]. cbv zeta in Hsh, Hshe.
    rewrite js_and_shr_byte by assumption.
    pose proof (u8ToWords_cells (fun j => byte_to_Z (nth (Z.to_nat j) u8 Byte.x00))
                  u8 0 [] ltac:(lia) ltac:(lia) eq_refl) as Hc.
    rewrite Hc; try lia.
    - destruct (Z.ltb_spec (Z.of_nat k) (0 + Z.of_nat (List.length u8))); [|lia].
      rewrite Nat2Z.id, nth_firstn.
      destruct (Nat.ltb_spec k (Z.to_nat n)); [|lia]. apply byte_of_to_Z.
    - intros j Hj. destruct (Z.ltb_spec j 0); [lia|].
      unfold RawPCBParser.word_or_0.
      replace (nth (Z.to_nat (j / 4)) [] 0) with 0
        by (destruct (Z.to_nat (j / 4)); reflexivity).
      rewrite Zmod_0_l, Z.shiftr_0_l. reflexivity.
    - intros t Ht. rewrite Z.add_0_l, Nat2Z.id. reflexivity. }
  split; [|exact Hcut].
  specialize (Hcut (byteLength u8) ltac:(unfold byteLength; lia)).
  unfold byteLength in Hcut at 2. rewrite Nat2Z.id, firstn_all in Hcut. exact Hcut.
Qed.

Lemma word_array_round_trip_witness :
  RawPCBParser.wordArrayToU8 (RawPCBParser.u8ToWordArray (bytes_of [1; 2; 3; 4; 5]))
  = Return (mkUint8Array (bytes_of [1; 2; 3; 4; 5]) 0 5).
Proof.
  refine (proj1 (word_array_round_trip (bytes_of [1; 2; 3; 4; 5]) _)).
  vm_compute. discriminate.
Defined.

Lemma hexToBytes_length_pair : forall hexString c,
  List.length (RawPCBParser.hexToBytes hexString)
  = Nat.div2 (String.length hexString) /\
  List.length (RawPCBParser.hexToBytes (String.String c hexString))
  = Nat.div2 (String.length (String.String c hexString)).
Proof.
  induction hexString as [|c1 rest IH]; intros c.
  - split; reflexivity.
  - destruct (IH c1) as [IH1 IH2]. split; [exact IH2|].
    cbn [RawPCBParser.hexToBytes List.length String.length Nat.div2].
    f_equal. exact (proj1 (IH c)).
Qed.

(** X16. [hexToBytes] yields one byte per pair of characters, a
    trailing odd character being ignored; for the master key these are
    the eight bytes DC FC 12 AC 00 00 00 00, the size of a DES key. *)
Theorem hexToBytes_yields_one_byte_per_pair (hexString : String.string) :
  List.length (RawPCBParser.hexToBytes hexString) = Nat.div2 (String.length hexString) /\
  RawPCBParser.hexToBytes RawPCBParser.MASTER_KEY
  = bytes_of [0xDC; 0xFC; 0x12; 0xAC; 0; 0; 0; 0].
Proof.
  split; [|vm_compute; reflexivity].
  exact (proj1 (hexToBytes_length_pair hexString Ascii.zero)).
Qed.

End WordArrays.

(** ** The payload parsers: layouts and edge cases *)

Module PartLayout.
Section WithDecoder.

Variable decode : list byte -> string.

(** X17. The part header is 26 fixed bytes and then the group name,
    whose size is the u32 at +22: [parseHeader] returns exactly when both
    lie inside the view, with the cursor right after the name; otherwise
    it throws a RangeError.  Both revisions read [part_size] at +0,
    [part_x] at +8, [part_y] at +12 and [visibility] at +20; only the
    two-argument revision records the u32 at +16 as [part_rotation]. *)
Theorem part_header_layout (s : pstate PartDataParser.fields) :
  let dv := dataView s in
  let o := offset s in
  let name_size := uint32_at dv (o + 22) in
  let name :=
    if 0 <? name_size then decode (elements (mkUint8Array dv (o + 26) name_size))
    else String.EmptyString in
  PartDataParser.parseHeader decode s =
  (if in_range dv o 26 && in_range dv (o + 26) name_size
   then Return (mkHeader (uint32_at dv o) (uint32_at dv (o + 8)) (uint32_at dv (o + 12))
                  (Some (uint32_at dv (o + 16))) (byte_at dv (o + 20)) name_size name,
                mkState dv (o + 26 + name_size) (extra s))
   else Throw RangeError) /\
  PartDataParser0.parseHeader decode (put_extra s tt) =
  (if in_range dv o 26 && in_range dv (o + 26) name_size
   then Return (mkHeader (uint32_at dv o) (uint32_at dv (o + 8)) (uint32_at dv (o + 12))
                  None (byte_at dv (o + 20)) name_size name,
                mkState dv (o + 26 + name_size) tt)
   else Throw RangeError).
Proof.
  destruct s as [dv o x]. cbv zeta. unfold put_extra. flat.
  pose proof (uint32_at_range dv (o + 22)) as Hr.
  destruct (in_range dv o 26 && in_range dv (o + 26) (uint32_at dv (o + 22))) eqn:E.
  - apply andb_prop in E. destruct E as [E1 E2]. apply in_range_true in E1, E2.
    replace (o + 22) with (o + 4 + 4 + 4 + 4 + 4 + 1 + 1) in * by lia.
    split.
    + unfold PartDataParser.parseHeader.
      destruct (0 <? uint32_at dv (o + 4 + 4 + 4 + 4 + 4 + 1 + 1)) eqn:En.
      * runM. flat. fold_offsets. reflexivity.
      * runM. flat. apply Z.ltb_ge in En.
        replace (uint32_at dv (o + 4 + 4 + 4 + 4 + 4 + 1 + 1)) with 0 by lia.
        fold_offsets. reflexivity.
    + unfold PartDataParser0.parseHeader.
      destruct (0 <? uint32_at dv (o + 4 + 4 + 4 + 4 + 4 + 1 + 1)) eqn:En.
      * runM. flat. fold_offsets. reflexivity.
      * runM. flat. apply Z.ltb_ge in En.
        replace (uint32_at dv (o + 4 + 4 + 4 + 4 + 4 + 1 + 1)) with 0 by lia.
        fold_offsets. reflexivity.
  - apply andb_in_range in E.
    replace (o + 22) with (o + 4 + 4 + 4 + 4 + 4 + 1 + 1) in * by lia.
    split.
    + apply not_Return_Throw.
      * apply PartDataParserFacts.parseHeader_total.
      * unfold PartDataParser.parseHeader. only_RangeError.
      * intros [h s'] H. unfold PartDataParser.parseHeader in H.
        invM H; apply at_offset_Return in Hm; destruct Hm as [-> Hm];
          apply getUint32_Return in Hm; flat; apply E; lia.
    + apply not_Return_Throw.
      * apply PartDataParser0Facts.parseHeader_total0.
      * unfold PartDataParser0.parseHeader. only_RangeError.
      * intros [h s'] H. unfold PartDataParser0.parseHeader in H.
        invM H; apply at_offset_Return in Hm; destruct Hm as [-> Hm];
          apply getUint32_Return in Hm; flat; apply E; lia.
Qed.

(** X18. A line sub-block (0x05) needs the 28 bytes of its seven u32
    fields inside the view and nothing more: [parseSubType05] then
    returns them and moves the cursor 32 bytes, over a 4-byte padding
    that it does not read, so it succeeds even when that padding lies
    past the end; with fewer than 28 bytes it throws a RangeError.  The
    same in both revisions. *)
Theorem line_sub_block_layout (s : pstate PartDataParser.fields) :
  let dv := dataView s in
  let o := offset s in
  let fields :=
    sub_type_05 (uint32_at dv o) (uint32_at dv (o + 4)) (uint32_at dv (o + 8))
      (uint32_at dv (o + 12)) (uint32_at dv (o + 16)) (uint32_at dv (o + 20))
      (uint32_at dv (o + 24)) in
  PartDataParser.parseSubType05 s =
  (if in_range dv o 28 then Return (fields, mkState dv (o + 32) (extra s))
   else Throw RangeError) /\
  PartDataParser0.parseSubType05 (put_extra s tt) =
  (if in_range dv o 28 then Return (fields, mkState dv (o + 32) tt)
   else Throw RangeError).
Proof.
  destruct s as [dv o x]. cbv zeta. unfold put_extra. flat.
  destruct (in_range dv o 28) eqn:E.
  - apply in_range_true in E. split.
    + unfold PartDataParser.parseSubType05. runM. fold_offsets. reflexivity.
    + unfold PartDataParser0.parseSubType05. runM. fold_offsets. reflexivity.
  - apply in_range_false_inv in E. split.
    + apply not_Return_Throw.
      * unfold PartDataParser.parseSubType05. straight_total.
      * unfold PartDataParser.parseSubType05. only_RangeError.
      * intros [b s'] H. unfold PartDataParser.parseSubType05 in H. invM H. flat.
        apply E. lia.
    + apply not_Return_Throw.
      * unfold PartDataParser0.parseSubType05. straight_total.
      * unfold PartDataParser0.parseSubType05. only_RangeError.
      * intros [b s'] H. unfold PartDataParser0.parseSubType05 in H. invM H. flat.
        apply E. lia.
Qed.

(** X19. A label sub-block (0x06) is 34 fixed bytes (six u32, a 4-byte
    padding, [visibility] at +28, a padding byte, the label size at +30)
    and then the label: [parseSubType06] returns exactly when both lie
    inside the view, with the cursor right after the label; otherwise it
    throws a RangeError.  The same in both revisions. *)
Theorem label_sub_block_layout (s : pstate PartDataParser.fields) :
  let dv := dataView s in
  let o := offset s in
  let label_size := uint32_at dv (o + 30) in
  let label :=
    if 0 <? label_size then decode (elements (mkUint8Array dv (o + 34) label_size))
    else String.EmptyString in
  let fields :=
    sub_type_06 (uint32_at dv o) (uint32_at dv (o + 4)) (uint32_at dv (o + 8))
      (uint32_at dv (o + 12)) (uint32_at dv (o + 16)) (uint32_at dv (o + 20))
      (byte_at dv (o + 28)) label_size label in
  PartDataParser.parseSubType06 decode s =
  (if in_range dv o 34 && in_range dv (o + 34) label_size
   then Return (fields, mkState dv (o + 34 + label_size) (extra s))
   else Throw RangeError) /\
  PartDataParser0.parseSubType06 decode (put_extra s tt) =
  (if in_range dv o 34 && in_range dv (o + 34) label_size
   then Return (fields, mkState dv (o + 34 + label_size) tt)
   else Throw RangeError).
Proof.
  destruct s as [dv o x]. cbv zeta. unfold put_extra. flat.
  pose proof (uint32_at_range dv (o + 30)) as Hr.
  destruct (in_range dv o 34 && in_range dv (o + 34) (uint32_at dv (o + 30))) eqn:E.
  - apply andb_prop in E. destruct E as [E1 E2]. apply in_range_true in E1, E2.
    replace (o + 30) with (o + 4 + 4 + 4 + 4 + 4 + 4 + 4 + 1 + 1) in * by lia.
    split.
    + unfold PartDataParser.parseSubType06.
      destruct (0 <? uint32_at dv (o + 4 + 4 + 4 + 4 + 4 + 4 + 4 + 1 + 1)) eqn:En.
      * runM. flat. fold_offsets. reflexivity.
      * runM. flat. apply Z.ltb_ge in En.
        replace (uint32_at dv (o + 4 + 4 + 4 + 4 + 4 + 4 + 4 + 1 + 1)) with 0 by lia.
        fold_offsets. reflexivity.
    + unfold PartDataParser0.parseSubType06.
      destruct (0 <? uint32_at dv (o + 4 + 4 + 4 + 4 + 4 + 4 + 4 + 1 + 1)) eqn:En.
      * runM. flat. fold_offsets. reflexivity.
      * runM. flat. apply Z.ltb_ge in En.
        replace (uint32_at dv (o + 4 + 4 + 4 + 4 + 4 + 4 + 4 + 1 + 1)) with 0 by lia.
        fold_offsets. reflexivity.
  - apply andb_in_range in E.
    replace (o + 30) with (o + 4 + 4 + 4 + 4 + 4 + 4 + 4 + 1 + 1) in * by lia.
    split.
    + apply not_Return_Throw.
      * unfold PartDataParser.parseSubType06. straight_total.
      * unfold PartDataParser.parseSubType06. only_RangeError.
      * intros [b s'] H. unfold PartDataParser.parseSubType06 in H.
        invM H; flat; apply E; lia.
    + apply not_Return_Throw.
      * unfold PartDataParser0.parseSubType06. straight_total.
      * unfold PartDataParser0.parseSubType06. only_RangeError.
      * intros [b s'] H. unfold PartDataParser0.parseSubType06 in H.
        invM H; flat; apply E; lia.
Qed.

End WithDecoder.
End PartLayout.

Module PartEdges.
Section WithDecoder.

Variable decode : list byte -> string.

(** A header that is returned was read from 26 bytes inside the view. *)
Lemma parseHeader_needs_26 (s s' : pstate PartDataParser.fields) h :
  PartDataParser.parseHeader decode s = Return (h, s') ->
  0 <= offset s /\ offset s + 26 <= byteLength (dataView s).
Proof.
  intros H. unfold PartDataParser.parseHeader in H.
  invM H; apply at_offset_Return in Hm; destruct Hm as [-> Hm];
    apply getUint32_Return in Hm; flat; lia.
Qed.

Lemma parseHeader0_needs_26 (s s' : pstate unit) h :
  PartDataParser0.parseHeader decode s = Return (h, s') ->
  0 <= offset s /\ offset s + 26 <= byteLength (dataView s).
Proof.
  intros H. unfold PartDataParser0.parseHeader in H.
  invM H; apply at_offset_Return in Hm; destruct Hm as [-> Hm];
    apply getUint32_Return in Hm; flat; lia.
Qed.

(** X20. A payload shorter than the 26-byte part header is rejected:
    [parse] throws a RangeError in both revisions, and [parseType07],
    which catches it, reports [parsed_data] as null. *)
Theorem short_payload_is_rejected
    (PartDataParser : RawPCBParser.PartDataParser_global)
    (arrayBuffer : list byte) (t07blockSize : jsval) :
  byteLength arrayBuffer < 26 ->
  PartDataParser.parse decode arrayBuffer t07blockSize = Throw RangeError /\
  PartDataParser0.parse decode arrayBuffer = Throw RangeError /\
  RawPCBParser.call_PartDataParser_parse decode PartDataParser arrayBuffer = Return None.
Proof.
  intros Hs.
  assert (H1 : forall t, PartDataParser.parse decode arrayBuffer t = Throw RangeError).
  { intros t. unfold PartDataParser.parse.
    assert (Hh : PartDataParser.parseHeader decode (PartDataParser.start arrayBuffer t)
                 = Throw RangeError).
    { apply not_Return_Throw.
      - apply PartDataParserFacts.parseHeader_total.
      - unfold PartDataParser.parseHeader. only_RangeError.
      - intros [h s'] H. apply parseHeader_needs_26 in H.
        unfold PartDataParser.start, PartDataParser.init in H. flat. lia. }
    rewrite Hh. reflexivity. }
  assert (H2 : PartDataParser0.parse decode arrayBuffer = Throw RangeError).
  { unfold PartDataParser0.parse. cbv zeta.
    assert (Hh : PartDataParser0.parseHeader decode (PartDataParser0.init arrayBuffer)
                 = Throw RangeError).
    { apply not_Return_Throw.
      - apply PartDataParser0Facts.parseHeader_total0.
      - unfold PartDataParser0.parseHeader. only_RangeError.
      - intros [h s'] H. apply parseHeader0_needs_26 in H.
        unfold PartDataParser0.init in H. flat. lia. }
    rewrite Hh. reflexivity. }
  split; [apply H1|]. split; [exact H2|].
  unfold RawPCBParser.call_PartDataParser_parse. destruct PartDataParser.
  - reflexivity.
  - rewrite H1. reflexivity.
  - rewrite H2. reflexivity.
Qed.

(** X21. When [4 + part_size] does not reach past the header (26 bytes
    and the group name), the working buffer ends where the cursor
    stands and no sub-block is parsed, whatever bytes follow: the result
    has the header and an empty [sub_blocks], in both revisions. *)
Theorem part_size_inside_header_gives_no_sub_blocks
    (arrayBuffer : list byte) (t07blockSize : jsval) :
  (forall r,
      PartDataParser.parse decode arrayBuffer t07blockSize = Return r ->
      4 + part_size (header r) <= 26 + part_group_name_size (header r) ->
      sub_blocks r = []) /\
  (forall r,
      PartDataParser0.parse decode arrayBuffer = Return r ->
      4 + part_size (header r) <= 26 + part_group_name_size (header r) ->
      sub_blocks r = []).
Proof.
  split; intros r H Hps.
  - unfold PartDataParser.parse in H.
    destruct (PartDataParser.parseHeader decode _) as [[h s1]| |] eqn:Eh; try discriminate.
    cbv zeta in H.
    pose proof (PartClaims.parseHeader_end _ _ _ _ Eh) as (Hd & He & Hp & Ho).
    unfold PartDataParser.start, PartDataParser.init in Hd, He, Ho. flat.
    assert (Hoff : 26 + part_group_name_size h <= offset s1)
      by (rewrite Ho; destruct (Z.ltb_spec 0 (part_group_name_size h)); lia).
    cbn [PartDataParser.subBlockLoop] in H.
    unfold PartDataParser.rescope in H. cbv zeta in H. flat.
    rewrite He in H. cbn [PartDataParser.pin_block_size] in H.
    rewrite PartClaims.byteLength_slice0 in H by lia.
    destruct (Z.ltb_spec (offset s1 + 0) (Z.min (byteLength arrayBuffer) (4 + part_size h)))
      as [Hlt|_].
    + destruct (PartDataParser.parseSubBlock decode _) as [[[sb|] s2]| |];
        try discriminate;
        [ destruct (PartDataParser.subBlockLoop decode _ _ _) as [[sbs s3]| |];
            try discriminate |];
        injection H as <-; cbn [header part_size part_group_name_size] in Hps; lia.
    + injection H as <-. reflexivity.
  - unfold PartDataParser0.parse in H. cbv zeta in H.
    destruct (PartDataParser0.parseHeader decode _) as [[h s1]| |] eqn:Eh; try discriminate.
    pose proof (PartClaims.parseHeader0_end _ _ _ _ Eh) as (Hd & He & Hp & Ho).
    unfold PartDataParser0.init in Hd, He, Ho. flat.
    assert (Hoff : 26 + part_group_name_size h <= offset s1)
      by (rewrite Ho; destruct (Z.ltb_spec 0 (part_group_name_size h)); lia).
    cbn [PartDataParser0.subBlockLoop] in H.
    unfold PartDataParser0.rescope in H. cbv zeta in H. flat.
    rewrite PartClaims.byteLength_slice0 in H by lia.
    destruct (Z.ltb_spec (offset s1) (Z.min (byteLength arrayBuffer) (4 + part_size h)))
      as [Hlt|_].
    + destruct (PartDataParser0.parseSubBlock decode _) as [[[sb|] s2]| |];
        try discriminate;
        [ destruct (PartDataParser0.subBlockLoop decode _ _ _) as [[sbs s3]| |];
            try discriminate |];
        injection H as <-; cbn [header part_size part_group_name_size] in Hps; lia.
    + injection H as <-. reflexivity.
Qed.

(** X22. A sub-block tag other than 0x01, 0x05, 0x06 and 0x09 ends the
    sub-block loop without an exception: the sub-blocks read so far are
    the result, and the cursor has taken the tag byte.  In both
    revisions. *)
Theorem unknown_sub_type_ends_sub_blocks
    (fuel : nat) (acc : list SubBlock) (s : pstate PartDataParser.fields) :
  let dv := dataView s in
  let o := offset s in
  let tag := byte_at dv o in
  0 <= o < byteLength dv ->
  tag <> 1 -> tag <> 5 -> tag <> 6 -> tag <> 9 ->
  (o + PartDataParser.pin_block_size (extra s) < byteLength dv ->
   PartDataParser.subBlockLoop decode (S fuel) acc s
   = Return (acc, mkState dv (o + 1) (extra s))) /\
  PartDataParser0.subBlockLoop decode (S fuel) acc (put_extra s tt)
  = Return (acc, mkState dv (o + 1) tt).
Proof.
  destruct s as [dv o x]. cbv zeta. unfold put_extra. flat.
  intros Ho H1 H5 H6 H9. split.
  - intros Hp. cbn [PartDataParser.subBlockLoop]. flat.
    destruct (Z.ltb_spec (o + PartDataParser.pin_block_size x) (byteLength dv)); [|lia].
    assert (E : PartDataParser.parseSubBlock decode (mkState dv o x)
                = Return (None, mkState dv (o + 1) x)).
    { unfold PartDataParser.parseSubBlock. flat.
      destruct (Z.leb_spec (byteLength dv) o); [lia|].
      eapply bind_run; [apply u8_run; flat; lia|].
      rewrite switch_sub_block. flat.
      repeat match goal with
             | |- context [?v =? ?k] => destruct (Z.eqb_spec v k); [contradiction|]
             end.
      reflexivity. }
    rewrite E. reflexivity.
  - cbn [PartDataParser0.subBlockLoop]. flat.
    destruct (Z.ltb_spec o (byteLength dv)); [|lia].
    assert (E : PartDataParser0.parseSubBlock decode (mkState dv o tt)
                = Return (None, mkState dv (o + 1) tt)).
    { unfold PartDataParser0.parseSubBlock. flat.
      destruct (Z.leb_spec (byteLength dv) o); [lia|].
      eapply bind_run; [apply u8_run; flat; lia|].
      rewrite switch_sub_block. flat.
      repeat match goal with
             | |- context [?v =? ?k] => destruct (Z.eqb_spec v k); [contradiction|]
             end.
      reflexivity. }
    rewrite E. reflexivity.
Qed.

End WithDecoder.

Import Samples.

Lemma short_payload_is_rejected_witness :
  PartDataParser.parse ascii_decode (bytes_of [1; 2; 3]) JUndefined = Throw RangeError /\
  PartDataParser0.parse ascii_decode (bytes_of [1; 2; 3]) = Throw RangeError /\
  RawPCBParser.call_PartDataParser_parse ascii_decode
    RawPCBParser.PartDataParser_two_args (bytes_of [1; 2; 3])
  = Return None.
Proof.
  refine (short_payload_is_rejected ascii_decode RawPCBParser.PartDataParser_two_args
            (bytes_of [1; 2; 3]) JUndefined _).
  vm_compute. reflexivity.
Defined.

Lemma part_size_inside_header_gives_no_sub_blocks_witness :
  sub_blocks (mkPartResult (mkHeader 22 0 0 (Some 0) 0 0 String.EmptyString) []) = [].
Proof.
  refine (proj1 (part_size_inside_header_gives_no_sub_blocks ascii_decode
                   payload_with_tail_a JUndefined)
            (mkPartResult (mkHeader 22 0 0 (Some 0) 0 0 String.EmptyString) []) _ _).
  - vm_compute. reflexivity.
  - vm_compute. discriminate.
Defined.

Lemma unknown_sub_type_ends_sub_blocks_witness :
  PartDataParser0.subBlockLoop ascii_decode 1 []
    (put_extra (mkState payload_unknown_tag 26 (PartDataParser.mkFields JUndefined 0)) tt)
  = Return ([], mkState payload_unknown_tag 27 tt).
Proof.
  refine (proj2 (unknown_sub_type_ends_sub_blocks ascii_decode 0 []
                   (mkState payload_unknown_tag 26 (PartDataParser.mkFields JUndefined 0))
                   _ _ _ _ _)).
  - vm_compute. split; [discriminate | reflexivity].
  - vm_compute. discriminate.
  - vm_compute. discriminate.
  - vm_compute. discriminate.
  - vm_compute. discriminate.
Defined.

End PartEdges.

Module PinBound.
Section WithDecoder.

Variable decode : list byte -> string.

(** X26. A pin record of the two-argument revision is 60 bytes plus
    the pin name, whose size is the u32 at +20: the loop body returns
    exactly when these lie inside the view, with [width] read before
    [height] after the name, [pin_shape] one byte, a gap of 23 bytes and
    [netIndex]; the cursor then moves 13 bytes further without reading
    them.  Otherwise it throws a RangeError. *)
Theorem pin_record_layout (s : pstate PartDataParser.fields) :
  let dv := dataView s in
  let o := offset s in
  let name_size := uint32_at dv (o + 20) in
  let name :=
    if 0 <? name_size then decode (elements (mkUint8Array dv (o + 24) name_size))
    else String.EmptyString in
  PartDataParser.parsePin decode s =
  if in_range dv o (60 + name_size)
  then Return (mkPin (uint32_at dv o) (uint32_at dv (o + 4)) (uint32_at dv (o + 8))
                 (uint32_at dv (o + 12)) (uint32_at dv (o + 16)) name_size name
                 (uint32_at dv (o + 28 + name_size)) (uint32_at dv (o + 24 + name_size))
                 (byte_at dv (o + 32 + name_size)) (uint32_at dv (o + 56 + name_size)),
               mkState dv (o + 73 + name_size) (extra s))
  else Throw RangeError.
Proof.
  destruct s as [dv o x]. cbv zeta. flat.
  pose proof (uint32_at_range dv (o + 20)) as Hr.
  destruct (in_range dv o (60 + uint32_at dv (o + 20))) eqn:E.
  - apply in_range_true in E.
    replace (o + 20) with (o + 4 + 4 + 4 + 4 + 4) in * by lia.
    unfold PartDataParser.parsePin.
    destruct (0 <? uint32_at dv (o + 4 + 4 + 4 + 4 + 4)) eqn:En.
    + runM. flat.
      set (n := uint32_at dv (o + 4 + 4 + 4 + 4 + 4)) in *.
      replace (o + 4 + 4 + 4 + 4 + 4 + 4 + n) with (o + 24 + n) by lia.
      replace (o + 24 + n + 4) with (o + 28 + n) by lia.
      replace (o + 28 + n + 4) with (o + 32 + n) by lia.
      replace (o + 32 + n + 1 + 23) with (o + 56 + n) by lia.
      replace (o + 56 + n + 4 + 13) with (o + 73 + n) by lia.
      fold_offsets. reflexivity.
    + runM. flat. apply Z.ltb_ge in En.
      replace (uint32_at dv (o + 4 + 4 + 4 + 4 + 4)) with 0 by lia.
      fold_offsets. reflexivity.
  - apply in_range_false_inv in E.
    replace (o + 20) with (o + 4 + 4 + 4 + 4 + 4) in * by lia.
    apply not_Return_Throw.
    + apply PartDataParserFacts.parsePin_total.
    + unfold PartDataParser.parsePin. only_RangeError.
    + intros [p s'] H. unfold PartDataParser.parsePin in H.
      invM H; flat; apply E; lia.
Qed.
Lemma pinLoop_count fuel blockSize : forall pins (s s' : pstate PartDataParser.fields) out,
  PartDataParser.pinLoop decode fuel blockSize pins s = Return (out, s') ->
  exists new,
    out = pins ++ new /\
    offset s + 73 * Z.of_nat (List.length new) <= offset s' /\
    js_le (Fin (offset s' + blockSize))
          (ToNumber (PartDataParser.cur_block_size (extra s'))) = false /\
    match PartDataParser.cur_block_size (extra s) with
    | JUndefined => new = []
    | JNumber c =>
        73 * Z.of_nat (List.length new) <= Z.max 0 (c - blockSize - offset s + 73)
    end.
Proof.
  induction fuel as [|fuel IH]; intros pins s s' out H; [discriminate|].
  cbn [PartDataParser.pinLoop] in H.
  destruct (js_le _ _) eqn:Et.
  - apply bind_Return in H. destruct H as (p & s1 & Hp & H).
    apply PartDataParserFacts.parsePin_moved in Hp. destruct Hp as ((Hd & He & Ho) & _).
    apply IH in H. destruct H as (new & -> & Hoff & Hexit & Hc).
    exists (p :: new). rewrite <- app_assoc. split; [reflexivity|].
    cbn [List.length]. split; [lia|]. split; [exact Hexit|].
    rewrite He in Hc.
    destruct (PartDataParser.cur_block_size (extra s)) as [|c].
    + discriminate Et.
    + unfold js_le in Et. cbn [ToNumber] in Et. apply Z.leb_le in Et. lia.
  - injection H as <- <-. exists []. rewrite app_nil_r. split; [reflexivity|].
    cbn [List.length]. split; [lia|]. split; [exact Et|].
    destruct (PartDataParser.cur_block_size (extra s)); [reflexivity | lia].
Qed.

(** X23. The pin array of the two-argument revision.  A pin is read
    while [offset + block_size <= t07blockSize], and each pin takes at
    least 73 bytes; so a sub_type_09 entry has at most
    [(t07blockSize - block_size - start) / 73 + 1] pins, [start] being
    the position after the block-size field, and none when
    [t07blockSize] is undefined.  When the entry is returned the loop
    test no longer holds. *)
Theorem pin_count_bound (s s' : pstate PartDataParser.fields) block_size pins :
  PartDataParser.parseSubType09 decode s = Return (sub_type_09 block_size pins, s') ->
  block_size = uint32_at (dataView s) (offset s) /\
  offset s + 4 + 73 * Z.of_nat (List.length pins) <= offset s' /\
  js_le (Fin (offset s' + block_size))
        (ToNumber (PartDataParser.cur_block_size (extra s))) = false /\
  match PartDataParser.cur_block_size (extra s) with
  | JUndefined => pins = []
  | JNumber t07blockSize =>
      73 * Z.of_nat (List.length pins)
      <= Z.max 0 (t07blockSize - block_size - (offset s + 4) + 73)
  end.
Proof.
  unfold PartDataParser.parseSubType09. intros H.
  apply bind_Return in H. destruct H as (bs & s1 & Hb & H). invM Hb.
  apply bind_Return in H. destruct H as (out & s2 & Hl & H). invM H.
  pose proof (PartDataParserFacts.pinLoop_moved _ _ _ _ _ _ _ Hl) as (_ & He & _).
  apply pinLoop_count in Hl. destruct Hl as (new & Hout & Hoff & Hexit & Hc).
  flat. cbn [app] in Hout. subst new. rewrite He in Hexit.
  match goal with
  | Hq : sub_type_09 _ _ = sub_type_09 _ _ |- _ => injection Hq as Hq1 Hq2
  end.
  subst block_size pins.
  repeat split; try assumption; lia.
Qed.

End WithDecoder.

Import Samples.

Lemma pin_count_bound_witness :
  73 * Z.of_nat (List.length [mkPin 0 10 20 0 90 0 String.EmptyString 6 5 1 42])
  <= Z.max 0 (112 - 60 - (27 + 4) + 73).
Proof.
  pose proof (pin_count_bound ascii_decode
                (mkState pin_payload 27 (PartDataParser.mkFields (JNumber 112) 0))
                (mkState pin_payload 104 (PartDataParser.mkFields (JNumber 112) 0))
                60 [mkPin 0 10 20 0 90 0 String.EmptyString 6 5 1 42]) as H.
  assert (H1 : PartDataParser.parseSubType09 ascii_decode
                 (mkState pin_payload 27 (PartDataParser.mkFields (JNumber 112) 0))
               = Return (sub_type_09 60 [mkPin 0 10 20 0 90 0 String.EmptyString 6 5 1 42],
                         mkState pin_payload 104
                           (PartDataParser.mkFields (JNumber 112) 0)))
    by (vm_compute; reflexivity).
  destruct (H H1) as (_ & _ & _ & Hc). exact Hc.
Defined.

End PinBound.

Module PartErrors.
Section WithDecoder.

Variable decode : list byte -> string.

Lemma only_pinLoop fuel blockSize : forall pins s,
  throws_only_RangeError (PartDataParser.pinLoop decode fuel blockSize pins s).
Proof.
  induction fuel as [|fuel IH]; intros pins s; [intros e; discriminate|].
  cbn [PartDataParser.pinLoop]. destruct (js_le _ _); [|intros e; discriminate].
  apply RawFacts.only_bind; [|intros; apply IH].
  unfold PartDataParser.parsePin. only_RangeError.
Qed.

Lemma only_parseSubBlock s :
  throws_only_RangeError (PartDataParser.parseSubBlock decode s).
Proof.
  unfold PartDataParser.parseSubBlock.
  destruct (byteLength (dataView s) <=? offset s); [intros e; discriminate|].
  apply RawFacts.only_bind; [apply RawFacts.only_u8|]. intros tag s1 _.
  rewrite switch_sub_block.
  repeat match goal with
         | |- throws_only_RangeError ((if ?c then _ else _) _) => destruct c
         end;
    try apply RawFacts.only_ret;
    (apply RawFacts.only_bind; [|intros; apply RawFacts.only_ret]).
  - unfold PartDataParser.parseSubType01. only_RangeError.
  - unfold PartDataParser.parseSubType05. only_RangeError.
  - unfold PartDataParser.parseSubType06. only_RangeError.
  - unfold PartDataParser.parseSubType09.
    apply RawFacts.only_bind; [apply RawFacts.only_u32|]. intros bs s2 _.
    apply RawFacts.only_bind; [apply only_pinLoop | intros; apply RawFacts.only_ret].
Qed.

Lemma only_subBlockLoop fuel : forall acc s,
  throws_only_RangeError (PartDataParser.subBlockLoop decode fuel acc s).
Proof.
  induction fuel as [|fuel IH]; intros acc s; [intros e; discriminate|].
  cbn [PartDataParser.subBlockLoop]. destruct (_ <? _); [|intros e; discriminate].
  pose proof (only_parseSubBlock s) as Hb. intros e.
  destruct (PartDataParser.parseSubBlock decode s) as [[[sb|] s1]| |].
  - apply IH.
  - discriminate.
  - intros [= <-]. apply Hb. reflexivity.
  - discriminate.
Qed.

Lemma only_parsePinSubType s :
  throws_only_RangeError (PartDataParser0.parsePinSubType decode s).
Proof.
  unfold PartDataParser0.parsePinSubType.
  destruct (byteLength (dataView s) <=? offset s); [intros e; discriminate|].
  apply RawFacts.only_bind; [apply RawFacts.only_u8|]. intros tag s1 _.
  rewrite switch_pin_sub_type.
  repeat match goal with
         | |- throws_only_RangeError ((if ?c then _ else _) _) => destruct c
         end;
    try apply RawFacts.only_ret;
    (apply RawFacts.only_bind; [|intros; apply RawFacts.only_ret]).
  - unfold PartDataParser0.parsePinSubType00. only_RangeError.
  - unfold PartDataParser0.parsePinSubType01, PartDataParser0.parsePinSubTypeInts.
    only_RangeError.
  - unfold PartDataParser0.parsePinSubType02, PartDataParser0.parsePinSubTypeInts.
    only_RangeError.
  - unfold PartDataParser0.parsePinSubType03, PartDataParser0.parsePinSubTypeInts.
    only_RangeError.
Qed.

Lemma only_subPartLoop fuel blockEnd : forall acc s,
  throws_only_RangeError (PartDataParser0.subPartLoop decode fuel blockEnd acc s).
Proof.
  induction fuel as [|fuel IH]; intros acc s; [intros e; discriminate|].
  cbn [PartDataParser0.subPartLoop]. destruct (_ <? _); [|intros e; discriminate].
  pose proof (only_parsePinSubType s) as Hb. intros e.
  destruct (PartDataParser0.parsePinSubType decode s) as [[[sp|] s1]| |].
  - apply IH.
  - discriminate.
  - intros [= <-]. apply Hb. reflexivity.
  - discriminate.
Qed.

Lemma only_parseSubBlock0 s :
  throws_only_RangeError (PartDataParser0.parseSubBlock decode s).
Proof.
  unfold PartDataParser0.parseSubBlock.
  destruct (byteLength (dataView s) <=? offset s); [intros e; discriminate|].
  apply RawFacts.only_bind; [apply RawFacts.only_u8|]. intros tag s1 _.
  rewrite switch_sub_block.
  repeat match goal with
         | |- throws_only_RangeError ((if ?c then _ else _) _) => destruct c
         end;
    try apply RawFacts.only_ret;
    (apply RawFacts.only_bind; [|intros; apply RawFacts.only_ret]).
  - unfold PartDataParser0.parseSubType01. only_RangeError.
  - unfold PartDataParser0.parseSubType05. only_RangeError.
  - unfold PartDataParser0.parseSubType06. only_RangeError.
  - unfold PartDataParser0.parseSubType09.
    apply RawFacts.only_bind; [apply RawFacts.only_u32 | intros ? ? _].
    apply RawFacts.only_bind; [intros e; unfold get_offset; discriminate | intros ? ? _].
    repeat (apply RawFacts.only_bind;
            [ first [ cbv beta; apply only_subPartLoop | only_RangeError ]
            | intros ? ? _ ]).
    apply RawFacts.only_ret.
Qed.

Lemma only_subBlockLoop0 fuel : forall acc s,
  throws_only_RangeError (PartDataParser0.subBlockLoop decode fuel acc s).
Proof.
  induction fuel as [|fuel IH]; intros acc s; [intros e; discriminate|].
  cbn [PartDataParser0.subBlockLoop]. destruct (_ <? _); [|intros e; discriminate].
  pose proof (only_parseSubBlock0 s) as Hb. intros e.
  destruct (PartDataParser0.parseSubBlock decode s) as [[[sb|] s1]| |].
  - apply IH.
  - discriminate.
  - intros [= <-]. apply Hb. reflexivity.
  - discriminate.
Qed.

(** X24. Whatever the payload and whatever [t07blockSize], the only
    exception that [PartDataParser.parse] raises, in either revision, is
    the RangeError of a read outside the buffer: unknown tags, sizes that
    make no sense and an undefined [t07blockSize] raise nothing else. *)
Theorem payload_parsers_throw_only_RangeError
    (arrayBuffer : list byte) (t07blockSize : jsval) :
  throws_only_RangeError (PartDataParser.parse decode arrayBuffer t07blockSize) /\
  throws_only_RangeError (PartDataParser0.parse decode arrayBuffer).
Proof.
  split.
  - unfold PartDataParser.parse.
    assert (Hh : throws_only_RangeError
                   (PartDataParser.parseHeader decode
                      (PartDataParser.start arrayBuffer t07blockSize)))
      by (unfold PartDataParser.parseHeader; only_RangeError).
    intros e.
    destruct (PartDataParser.parseHeader decode _) as [[h s1]| |];
      [| intros [= <-]; apply Hh; reflexivity | discriminate].
    cbv zeta.
    pose proof (only_subBlockLoop
                  (S (List.length (dataView (PartDataParser.rescope arrayBuffer
                                               (part_size h) s1)))) []
                  (PartDataParser.rescope arrayBuffer (part_size h) s1) e) as Hl.
    destruct (PartDataParser.subBlockLoop decode _ _ _) as [[sbs s2]| |];
      [discriminate | intros [= <-]; apply Hl; reflexivity | discriminate].
  - unfold PartDataParser0.parse. cbv zeta.
    assert (Hh : throws_only_RangeError
                   (PartDataParser0.parseHeader decode (PartDataParser0.init arrayBuffer)))
      by (unfold PartDataParser0.parseHeader; only_RangeError).
    intros e.
    destruct (PartDataParser0.parseHeader decode _) as [[h s1]| |];
      [| intros [= <-]; apply Hh; reflexivity | discriminate].
    pose proof (only_subBlockLoop0
                  (S (List.length (dataView (PartDataParser0.rescope arrayBuffer
                                               (part_size h) s1)))) []
                  (PartDataParser0.rescope arrayBuffer (part_size h) s1) e) as Hl.
    destruct (PartDataParser0.subBlockLoop decode _ _ _) as [[sbs s2]| |];
      [discriminate | intros [= <-]; apply Hl; reflexivity | discriminate].
Qed.

End WithDecoder.

Import Samples.

Lemma payload_parsers_throw_only_RangeError_witness : RangeError = RangeError.
Proof.
  refine (proj1 (payload_parsers_throw_only_RangeError ascii_decode
                   single_pin_payload (JNumber 72)) RangeError _).
  vm_compute. reflexivity.
Defined.

End PartErrors.

Module SubParts.
Section WithDecoder.

Variable decode : list byte -> string.

Lemma parsePinSubTypeInts_int2 mk (s s' : pstate unit) p :
  PartDataParser0.parsePinSubTypeInts mk s = Return (p, s') ->
  exists int1 int2, p = mk int1 int2 /\ 0 <= int1 /\ (int2 = None <-> int1 = 0).
Proof.
  unfold PartDataParser0.parsePinSubTypeInts. intros H.
  apply bind_Return in H. destruct H as (int1 & s1 & Hi & H). invM Hi.
  destruct (Z.ltb_spec 0 (uint32_at (dataView s) (offset s))) as [Hp|Hz].
  - invM H. eexists _, _. split; [reflexivity|]. split; [lia|].
    split; [discriminate | lia].
  - invM H. eexists _, _. split; [reflexivity|]. split; [lia|].
    split; [lia | reflexivity].
Qed.

Lemma parsePinSubType_int2 (s s' : pstate unit) p :
  PartDataParser0.parsePinSubType decode s = Return (Some p, s') ->
  int2_follows_int1 p.
Proof.
  unfold PartDataParser0.parsePinSubType. intros H.
  destruct (byteLength (dataView s) <=? offset s); [discriminate|].
  apply bind_Return in H. destruct H as (tag & s1 & Ht & H). invM Ht.
  rewrite switch_pin_sub_type in H.
  repeat match type of H with
         | (if ?c then _ else _) _ = _ => destruct c
         end;
    try (apply bind_Return in H; destruct H as (q & s2 & Hq & H); invM H;
         match goal with Hs : Some _ = Some _ |- _ => injection Hs as <- end).
  - unfold PartDataParser0.parsePinSubType00 in Hq. invM Hq; exact I.
  - apply parsePinSubTypeInts_int2 in Hq. destruct Hq as (i1 & i2 & -> & Hq). exact Hq.
  - apply parsePinSubTypeInts_int2 in Hq. destruct Hq as (i1 & i2 & -> & Hq). exact Hq.
  - apply parsePinSubTypeInts_int2 in Hq. destruct Hq as (i1 & i2 & -> & Hq). exact Hq.
  - invM H. discriminate.
Qed.

Lemma subPartLoop_int2 fuel blockEnd : forall acc (s s' : pstate unit) out,
  Forall int2_follows_int1 acc ->
  PartDataParser0.subPartLoop decode fuel blockEnd acc s = Return (out, s') ->
  Forall int2_follows_int1 out.
Proof.
  induction fuel as [|fuel IH]; intros acc s s' out Ha H; [discriminate|].
  cbn [PartDataParser0.subPartLoop] in H. destruct (_ <? _).
  - destruct (PartDataParser0.parsePinSubType decode s) as [[[p|] s1]| |] eqn:E;
      try discriminate.
    + eapply IH; [|exact H]. apply Forall_app. split; [exact Ha|].
      constructor; [|constructor]. eapply parsePinSubType_int2. exact E.
    + injection H as <- _. exact Ha.
  - injection H as <- _. exact Ha.
Qed.

Lemma parseSubBlock_int2 (s s' : pstate unit) sb :
  PartDataParser0.parseSubBlock decode s = Return (Some sb, s') ->
  Forall int2_follows_int1 (sub_parts_of sb).
Proof.
  unfold PartDataParser0.parseSubBlock. intros H.
  destruct (byteLength (dataView s) <=? offset s); [discriminate|].
  apply bind_Return in H. destruct H as (tag & s1 & Ht & H). invM Ht.
  rewrite switch_sub_block in H.
  repeat match type of H with
         | (if ?c then _ else _) _ = _ => destruct c
         end.
  - unfold PartDataParser0.parseSubType01 in H. invM H.
    match goal with Hs : Some _ = Some _ |- _ => injection Hs as -> end. constructor.
  - unfold PartDataParser0.parseSubType05 in H. invM H.
    match goal with Hs : Some _ = Some _ |- _ => injection Hs as -> end. constructor.
  - unfold PartDataParser0.parseSubType06 in H. invM H;
    match goal with Hs : Some _ = Some _ |- _ => injection Hs as -> end; constructor.
  - apply bind_Return in H. destruct H as (b & s2 & Hb & H). invM H.
    match goal with Hs : Some _ = Some _ |- _ => injection Hs as -> end.
    unfold PartDataParser0.parseSubType09 in Hb.
    repeat (apply bind_Return in Hb;
            let v := fresh "v" in let s1 := fresh "s" in let Hm := fresh "Hm" in
            destruct Hb as (v & s1 & Hm & Hb);
            lazymatch type of Hm with
            | PartDataParser0.subPartLoop _ _ _ _ _ = _ =>
                apply subPartLoop_int2 in Hm; [|constructor]
            | _ => clear Hm
            end).
    apply ret_Return in Hb. destruct Hb as [-> _]. cbn [sub_parts_of]. assumption.
  - invM H. discriminate.
Qed.

Lemma subBlockLoop_int2 fuel : forall acc (s s' : pstate unit) out,
  Forall (fun sb => Forall int2_follows_int1 (sub_parts_of sb)) acc ->
  PartDataParser0.subBlockLoop decode fuel acc s = Return (out, s') ->
  Forall (fun sb => Forall int2_follows_int1 (sub_parts_of sb)) out.
Proof.
  induction fuel as [|fuel IH]; intros acc s s' out Ha H; [discriminate|].
  cbn [PartDataParser0.subBlockLoop] in H. destruct (_ <? _).
  - destruct (PartDataParser0.parseSubBlock decode s) as [[[sb|] s1]| |] eqn:E;
      try discriminate.
    + eapply IH; [|exact H]. apply Forall_app. split; [exact Ha|].
      constructor; [|constructor]. eapply parseSubBlock_int2. exact E.
    + injection H as <- _. exact Ha.
  - injection H as <- _. exact Ha.
Qed.

(** X25. In every result of src/part_data_parser.js, a pin sub-part of
    type 01, 02 or 03 has an [int2] property exactly when its [int1] is
    positive: [int2] is never present with [int1 = 0] and never missing
    with [int1 > 0]. *)
Theorem pin_sub_parts_carry_int2_iff_int1_positive (arrayBuffer : list byte) r :
  PartDataParser0.parse decode arrayBuffer = Return r ->
  forall sb, In sb (sub_blocks r) -> Forall int2_follows_int1 (sub_parts_of sb).
Proof.
  unfold PartDataParser0.parse. cbv zeta. intros H.
  destruct (PartDataParser0.parseHeader decode _) as [[h s1]| |]; try discriminate.
  destruct (PartDataParser0.subBlockLoop decode _ _ _) as [[sbs s2]| |] eqn:El;
    try discriminate.
  injection H as <-. cbn [sub_blocks].
  apply subBlockLoop_int2 in El; [|constructor].
  intros sb Hin. rewrite Forall_forall in El. apply El. exact Hin.
Qed.

End WithDecoder.

Import Samples.

Lemma pin_sub_parts_carry_int2_iff_int1_positive_witness :
  Forall int2_follows_int1 [pin_sub_type_01 5 (Some 6); pin_sub_type_02 0 None].
Proof.
  refine (pin_sub_parts_carry_int2_iff_int1_positive ascii_decode
            sub_parts_payload
            (mkPartResult (mkHeader 77 0 0 None 0 0 String.EmptyString)
               [sub_type_09_single 50 0 2 3 4 5 0 String.EmptyString 6 7
                  [pin_sub_type_01 5 (Some 6); pin_sub_type_02 0 None] 8])
            _
            (sub_type_09_single 50 0 2 3 4 5 0 String.EmptyString 6 7
               [pin_sub_type_01 5 (Some 6); pin_sub_type_02 0 None] 8)
            _).
  - vm_compute. reflexivity.
  - left. reflexivity.
Defined.

End SubParts.
